(** * robin.scrape: a shallow embedding of [scrape.py]

    The module fetches a batch of pages, some through a Tor SOCKS proxy,
    extracts their visible text and reports progress to a callback.

    Everything the Python code obtains from outside is an explicit
    argument of the functions below: the replies of the servers, the
    reply of the Tor check service, the order in which the futures
    complete, the behaviour of the callback.  Python dictionaries are
    [gmap]s, Python strings are [string]s whose characters stand for code
    points below 256, a call that raises returns [Raise].  Log messages
    and the choice of the User-Agent header have no part in what the
    functions return and are left out. *)

From Stdlib Require Import ZArith QArith Ascii String List.
From stdpp Require Import list gmap strings.

Set Warnings "-register-all,-clear-no-such-hyp".
Local Open Scope string_scope.
Local Open Scope Z_scope.
Local Open Scope list_scope.

(** ** Exceptions and results

    The classes of the exceptions that the calls of the module raise;
    all derive from [Exception].  [CallbackError] records an exception of
    the progress callback on its way to the caller of [scrape_multiple]:
    no handler of the module meets it from there on, so that its class,
    which [verdict] below keeps apart, plays no part any more. *)

Inductive exn : Type :=
  | KeyError (key : string)
  | ValueError
  | ConnectTimeout
  | ProxyError
  | RetryError
  | InvalidHeader
  | TooManyRedirects
  | ParserRejectedMarkup
  | OtherError
  | CallbackError.

Inductive result (A : Type) : Type :=
  | Ok (a : A)
  | Raise (e : exn).
Arguments Ok {A} a.
Arguments Raise {A} e.

#[global] Instance result_ret : MRet result := fun A a => Ok a.
#[global] Instance result_bind : MBind result := fun A B k r =>
  match r with
  | Ok a => k a
  | Raise e => Raise e
  end.

Definition returns {A} (r : result A) : Prop := exists a, r = Ok a.
Definition raises {A} (r : result A) : Prop := exists e, r = Raise e.

(** ** Python string operations *)

Module Py.

(** [len(s)] *)
Definition len (s : string) : nat := String.length s.

(** [s[:n]] *)
Definition take (n : nat) (s : string) : string := String.substring 0 n s.

(** [needle in hay] *)
Fixpoint contains (needle hay : string) : bool :=
  String.prefix needle hay ||
  match hay with
  | EmptyString => false
  | String _ hay' => contains needle hay'
  end.

(** [str.isspace] on one character (code points below 256). *)
Definition isspace (c : ascii) : bool :=
  let n := nat_of_ascii c in
  ((9 <=? n)%nat && (n <=? 13)%nat) || ((28 <=? n)%nat && (n <=? 32)%nat)
  || (n =? 133)%nat || (n =? 160)%nat.

(** [s.split()]: the maximal runs of non-whitespace characters.  [cur]
    is the run being read, in reverse. *)
Definition flush (cur : list ascii) : list string :=
  match cur with
  | [] => []
  | _ => [string_of_list_ascii (rev cur)]
  end.

Fixpoint split_aux (cur : list ascii) (s : string) : list string :=
  match s with
  | EmptyString => flush cur
  | String c s' =>
      if isspace c then flush cur ++ split_aux [] s'
      else split_aux (c :: cur) s'
  end.

Definition split (s : string) : list string := split_aux [] s.

(** [sep.join(l)] *)
Definition join (sep : string) (l : list string) : string :=
  String.concat sep l.

(** [d[k]] on a dictionary with string values. *)
Definition getitem (d : gmap string string) (k : string) : result string :=
  match d !! k with
  | Some v => Ok v
  | None => Raise (KeyError k)
  end.

(** [d.get(k, dflt)] *)
Definition get (d : gmap string string) (k dflt : string) : string :=
  default dflt (d !! k).

End Py.

(** ** The parse tree of BeautifulSoup *)

Inductive node : Type :=
  | NavigableString (s : string)
  | Tag (name : string) (contents : list node).

(** [soup(names)] followed by [extract()] on every hit: every tag whose
    name is listed leaves the tree, wherever it is. *)
Fixpoint extract_tags (names : list string) (n : node) : list node :=
  match n with
  | NavigableString s => [n]
  | Tag nm cs =>
      if bool_decide (nm ∈ names) then []
      else [Tag nm ((fix go (l : list node) : list node :=
                       match l with
                       | [] => []
                       | c :: l' => extract_tags names c ++ go l'
                       end) cs)]
  end.

Definition extract_all (names : list string) (soup : list node) : list node :=
  flat_map (extract_tags names) soup.

(** The strings below a node, in document order. *)
Fixpoint all_strings (n : node) : list string :=
  match n with
  | NavigableString s => [s]
  | Tag _ cs =>
      (fix go (l : list node) : list string :=
         match l with
         | [] => []
         | c :: l' => all_strings c ++ go l'
         end) cs
  end.

(** [soup.get_text(separator=sep)] *)
Definition get_text (sep : string) (soup : list node) : string :=
  Py.join sep (flat_map all_strings soup).

(** ** A reading of ["html.parser"]

    [BeautifulSoup] itself is a library and stays an argument of the
    functions that call it.  The parser below is the instance used for
    concrete pages; it follows [html.parser] as [bs4] drives it.  A start
    tag runs to the first [>] outside a quoted attribute value, an end
    tag, a declaration and a processing instruction to the first [>], a
    comment to its [-->], a marked section to its closing brackets; a
    marked section with an unknown keyword makes the parser raise, and
    markup that is not closed before the end of the input is text.
    Names are lower-cased, a void element is closed where it opens, the
    text of a [script] or [style] element runs to its end tag, an end tag
    closes every element opened since its start tag.  Character
    references are decoded where the character lies below code point 256,
    the range of the strings here.  The tree holds the tags and the
    strings that [get_text] reads: comments and declarations end the
    string before them and leave none of their own. *)

Module HtmlParser.

Inductive token : Type :=
  | StartTag (name : string)
  | EndTag (name : string)
  | Data (s : string).

Definition lower (c : ascii) : ascii :=
  let n := nat_of_ascii c in
  if ((65 <=? n) && (n <=? 90))%nat then ascii_of_nat (n + 32) else c.

Definition is_letter (c : ascii) : bool :=
  let n := nat_of_ascii (lower c) in ((97 <=? n) && (n <=? 122))%nat.

Definition is_digit (c : ascii) : bool :=
  let n := nat_of_ascii c in ((48 <=? n) && (n <=? 57))%nat.

Definition is_hex_digit (c : ascii) : bool :=
  let n := nat_of_ascii (lower c) in
  is_digit c || ((97 <=? n) && (n <=? 102))%nat.

(** The blanks that end a tag name: tab, line feed, form feed, carriage
    return, space. *)
Definition is_tag_space (c : ascii) : bool :=
  bool_decide (nat_of_ascii c ∈ [9; 10; 12; 13; 32]%nat).

Definition double_quote : ascii := ascii_of_nat 34.

Fixpoint lowercase (s : string) : string :=
  match s with
  | EmptyString => EmptyString
  | String c s' => String (lower c) (lowercase s')
  end.

Fixpoint string_drop (n : nat) (s : string) : string :=
  match n, s with
  | S n', String _ s' => string_drop n' s'
  | _, _ => s
  end.

(** The longest prefix whose characters satisfy [p]. *)
Fixpoint scan (p : ascii -> bool) (s : string) : string :=
  match s with
  | EmptyString => EmptyString
  | String c s' => if p c then String c (scan p s') else EmptyString
  end.

(** The name of a tag: up to the first blank or slash. *)
Fixpoint tag_name (s : string) : string :=
  match s with
  | EmptyString => EmptyString
  | String c s' =>
      if is_tag_space c || Ascii.eqb c "/" then EmptyString
      else String (lower c) (tag_name s')
  end.

Fixpoint ends_with_slash (s : string) : bool :=
  match s with
  | EmptyString => false
  | String c EmptyString => Ascii.eqb c "/"
  | String _ s' => ends_with_slash s'
  end.

Definition void_elements : list string :=
  ["area"; "base"; "br"; "col"; "embed"; "hr"; "img"; "input"; "keygen";
   "link"; "menuitem"; "meta"; "param"; "source"; "track"; "wbr";
   "basefont"; "bgsound"; "command"; "frame"; "image"; "isindex"; "nextid";
   "spacer"].

Definition raw_text_elements : list string := ["script"; "style"].

(** The number of characters up to the end of the first [needle]. *)
Fixpoint find_end (needle : string) (s : string) : option nat :=
  if String.prefix needle s then Some (String.length needle)
  else
    match s with
    | EmptyString => None
    | String _ s' => S <$> find_end needle s'
    end.

(** The number of characters in front of the first [c]. *)
Fixpoint find (c : ascii) (s : string) : option nat :=
  match s with
  | EmptyString => None
  | String d s' => if Ascii.eqb c d then Some O else S <$> find c s'
  end.

(** The number of characters of a start tag up to its [>]: the first one
    outside an attribute value in quotes, which opens after [=]. *)
Fixpoint tag_end (quote : option ascii) (after_eq : bool) (s : string)
  : option nat :=
  match s with
  | EmptyString => None
  | String c s' =>
      match quote with
      | Some q =>
          S <$> tag_end (if Ascii.eqb c q then None else quote) false s'
      | None =>
          if Ascii.eqb c ">" then Some 1%nat
          else if after_eq && (Ascii.eqb c double_quote || Ascii.eqb c "'")
          then S <$> tag_end (Some c) false s'
          else S <$> tag_end None
                       (Ascii.eqb c "=" || (after_eq && Py.isspace c)) s'
      end
  end.

(** What follows a [<]. *)
Inductive markup : Type :=
  | Markup (tokens : list token) (width : nat)
  | Ignored (width : nat)
  | Incomplete
  | Rejected
  | NotMarkup.

Definition start_tag (inner : string) : list token :=
  let name := tag_name inner in
  if ends_with_slash inner || bool_decide (name ∈ void_elements)
  then [StartTag name; EndTag name]
  else [StartTag name].

Definition is_name_char (c : ascii) : bool :=
  is_letter c || is_digit c
  || Ascii.eqb c "-" || Ascii.eqb c "_" || Ascii.eqb c ".".

(** The string of a [CDATA] section; other marked sections leave none. *)
Definition section_tokens (inner : string) : list token :=
  if String.prefix "cdata[" (lowercase inner) then [Data (string_drop 6 inner)]
  else [].

(** [<![ ... ]: [s] follows the opening bracket. *)
Definition marked_section (s : string) : markup :=
  match s with
  | EmptyString => Incomplete
  | String c _ =>
      if is_letter c then
        let name := lowercase (scan is_name_char s) in
        if bool_decide (String.length name = String.length s) then Incomplete
        else if bool_decide
                  (name ∈ ["temp"; "cdata"; "ignore"; "include"; "rcdata"])
        then
          match find_end "]]>" s with
          | Some n => Markup (section_tokens (Py.take (n - 3) s)) (2 + n)
          | None => Incomplete
          end
        else if bool_decide (name ∈ ["if"; "else"; "endif"]) then
          match find_end "]>" s with
          | Some n => Markup [] (2 + n)
          | None => Incomplete
          end
        else Rejected
      else Rejected
  end.

(** [s] follows the [<]; the width counts the characters of [s] that
    belong to the markup. *)
Definition parse_markup (s : string) : markup :=
  match s with
  | EmptyString => NotMarkup
  | String c rest =>
      if is_letter c then
        match tag_end None false s with
        | Some n => Markup (start_tag (Py.take (n - 1) s)) n
        | None => Incomplete
        end
      else if Ascii.eqb c "/" then
        match find_end ">" rest with
        | Some 1%nat => Ignored 2
        | Some n =>
            Markup
              (match rest with
               | String d _ =>
                   if is_letter d then [EndTag (tag_name (Py.take (n - 1) rest))]
                   else []
               | EmptyString => []
               end) (S n)
        | None => Incomplete
        end
      else if String.prefix "!--" s then
        match find_end "-->" (string_drop 3 s) with
        | Some n => Markup [] (3 + n)
        | None => Incomplete
        end
      else if String.prefix "![" s then marked_section (string_drop 2 s)
      else if Ascii.eqb c "!" || Ascii.eqb c "?" then
        match find_end ">" rest with
        | Some n => Markup [] (S n)
        | None => Incomplete
        end
      else NotMarkup
  end.

(** The text that markup without an end becomes, after its [<]: up to
    the next [>], or else up to the next [<]. *)
Definition fallback_width (s : string) : nat :=
  match find_end ">" s with
  | Some n => n
  | None => default 0%nat (find "<" s)
  end.

(** The end tag of a raw-text element: [</name>], blanks allowed around
    the name. *)
Definition closes_raw (name : string) (s : string) : option nat :=
  match s with
  | String "/" rest =>
      let blanks := scan Py.isspace rest in
      let rest' := string_drop (String.length blanks) rest in
      let found := scan is_name_char rest' in
      let rest'' := string_drop (String.length found) rest' in
      let blanks' := scan Py.isspace rest'' in
      if String.eqb (lowercase found) name
         && String.prefix ">" (string_drop (String.length blanks') rest'')
      then Some (2 + String.length blanks + String.length found
                 + String.length blanks')%nat
      else None
  | _ => None
  end.

(** The names of the characters 160 to 255, in order. *)
Definition latin1_names : list string :=
  ["nbsp"; "iexcl"; "cent"; "pound"; "curren"; "yen"; "brvbar"; "sect";
   "uml"; "copy"; "ordf"; "laquo"; "not"; "shy"; "reg"; "macr";
   "deg"; "plusmn"; "sup2"; "sup3"; "acute"; "micro"; "para"; "middot";
   "cedil"; "sup1"; "ordm"; "raquo"; "frac14"; "frac12"; "frac34"; "iquest";
   "Agrave"; "Aacute"; "Acirc"; "Atilde"; "Auml"; "Aring"; "AElig"; "Ccedil";
   "Egrave"; "Eacute"; "Ecirc"; "Euml"; "Igrave"; "Iacute"; "Icirc"; "Iuml";
   "ETH"; "Ntilde"; "Ograve"; "Oacute"; "Ocirc"; "Otilde"; "Ouml"; "times";
   "Oslash"; "Ugrave"; "Uacute"; "Ucirc"; "Uuml"; "Yacute"; "THORN"; "szlig";
   "agrave"; "aacute"; "acirc"; "atilde"; "auml"; "aring"; "aelig"; "ccedil";
   "egrave"; "eacute"; "ecirc"; "euml"; "igrave"; "iacute"; "icirc"; "iuml";
   "eth"; "ntilde"; "ograve"; "oacute"; "ocirc"; "otilde"; "ouml"; "divide";
   "oslash"; "ugrave"; "uacute"; "ucirc"; "uuml"; "yacute"; "thorn"; "yuml"].

Fixpoint index_of (name : string) (names : list string) : option nat :=
  match names with
  | [] => None
  | n :: names' =>
      if String.eqb n name then Some O else S <$> index_of name names'
  end.

(** The character an entity name stands for. *)
Definition entity (name : string) : option ascii :=
  if String.eqb name "amp" then Some "&"%char
  else if String.eqb name "lt" then Some "<"%char
  else if String.eqb name "gt" then Some ">"%char
  else if String.eqb name "quot" then Some double_quote
  else if String.eqb name "apos" then Some "'"%char
  else (fun i => ascii_of_nat (160 + i)) <$> index_of name latin1_names.

Definition digit_value (c : ascii) : N :=
  let n := N.of_nat (nat_of_ascii (lower c)) in
  (if is_digit c then n - 48 else n - 87)%N.

Definition number (base : N) (digits : string) : N :=
  fold_left (fun n c => (n * base + digit_value c)%N)
            (list_ascii_of_string digits) 0%N.

(** The character a numeric reference stands for: below 256 the number
    is read as a byte of Windows-1252, which is the code point itself
    outside 128 to 159 and where that encoding has no character. *)
Definition code_point (n : N) : option ascii :=
  if ((n <? 128) || ((160 <=? n) && (n <? 256))
      || bool_decide (n ∈ [129; 141; 143; 144; 157]))%N
  then Some (ascii_of_N n) else None.

(** [s] follows the [&]: the text of the reference and the number of
    characters of [s] it takes.  A reference needs a character behind
    it; a semicolon there belongs to it.  An unknown name stays, without
    its semicolon. *)
Definition parse_reference (s : string) : option (string * nat) :=
  match s with
  | String "#" rest =>
      let hex :=
        match rest with
        | String c _ => Ascii.eqb (lower c) "x"
        | EmptyString => false
        end in
      let digits :=
        if hex then scan is_hex_digit (string_drop 1 rest) else scan is_digit rest in
      let width := ((if hex then 2 else 1) + String.length digits)%nat in
      match digits, string_drop width s with
      | EmptyString, _ => None
      | _, EmptyString => None
      | _, String t _ =>
          if is_hex_digit t then None
          else
            let width' := if Ascii.eqb t ";" then S width else width in
            match code_point (number (if hex then 16 else 10) digits) with
            | Some c => Some (String c EmptyString, width')
            | None => Some ("&" +:+ Py.take width' s, width')
            end
      end
  | String c _ =>
      if is_letter c then
        let name := scan (fun c => is_letter c || is_digit c
                                   || Ascii.eqb c "-" || Ascii.eqb c ".") s in
        let width := String.length name in
        match string_drop width s with
        | EmptyString => None
        | String t _ =>
            Some (match entity name with
                  | Some c => String c EmptyString
                  | None => "&" +:+ name
                  end,
                  if Ascii.eqb t ";" then S width else width)
        end
      else None
  | EmptyString => None
  end.

Definition data_token (acc : list ascii) : list token :=
  match acc with
  | [] => []
  | _ => [Data (string_of_list_ascii (rev acc))]
  end.

Definition raw_mode (tokens : list token) : option string :=
  match tokens with
  | [StartTag name] =>
      if bool_decide (name ∈ raw_text_elements) then Some name else None
  | _ => None
  end.

(** [raw] is the raw-text element being read, [skip] the characters of
    markup still to pass over, [copy] those to take as text unread;
    [acc] is the text read so far, in reverse. *)
Fixpoint lex (raw : option string) (skip copy : nat) (acc : list ascii)
    (s : string) : result (list token) :=
  match s with
  | EmptyString => Ok (data_token acc)
  | String c s' =>
      match skip, copy with
      | S n, _ => lex raw n copy acc s'
      | O, S n => lex raw O n (c :: acc) s'
      | O, O =>
          match raw with
          | Some name =>
              match (if Ascii.eqb c "<" then closes_raw name s' else None)
              with
              | Some w =>
                  tokens ← lex None w O [] s';
                  Ok (data_token acc ++ EndTag name :: tokens)
              | None => lex raw O O (c :: acc) s'
              end
          | None =>
              if Ascii.eqb c "<" then
                match parse_markup s' with
                | Markup toks w =>
                    tokens ← lex (raw_mode toks) w O [] s';
                    Ok (data_token acc ++ toks ++ tokens)
                | Ignored w => lex None w O acc s'
                | Incomplete => lex None O (fallback_width s') (c :: acc) s'
                | Rejected => Raise ParserRejectedMarkup
                | NotMarkup => lex None O O (c :: acc) s'
                end
              else if Ascii.eqb c "&" then
                match parse_reference s' with
                | Some (chars, w) =>
                    lex None w O (rev (list_ascii_of_string chars) ++ acc) s'
                | None => lex None O O (c :: acc) s'
                end
              else lex None O O (c :: acc) s'
          end
      end
  end.

(** The open elements, innermost first, each with its children so far
    in reverse; and the children of the document, in reverse. *)
Definition frame : Type := string * list node.
Definition builder : Type := list frame * list node.

Definition push_child (c : node) (b : builder) : builder :=
  match b with
  | ([], root) => ([], c :: root)
  | ((name, cs) :: stack, root) => ((name, c :: cs) :: stack, root)
  end.

(** Close the innermost open element. *)
Definition pop (b : builder) : builder :=
  match b with
  | ([], root) => ([], root)
  | ((name, cs) :: stack, root) => push_child (Tag name (rev cs)) (stack, root)
  end.

Fixpoint depth_of (name : string) (stack : list frame) : option nat :=
  match stack with
  | [] => None
  | (n, _) :: stack' =>
      if String.eqb n name then Some O else S <$> depth_of name stack'
  end.

Definition is_ascii_space (c : ascii) : bool :=
  bool_decide (nat_of_ascii c ∈ [32; 10; 9; 12; 13]%nat).

(** A string of blanks only becomes one line feed or one space, except
    below [pre] and [textarea]. *)
Definition end_data (stack : list frame) (s : string) : string :=
  if forallb is_ascii_space (list_ascii_of_string s)
     && negb (existsb (fun fr => bool_decide (fst fr ∈ ["pre"; "textarea"]))
                      stack)
  then if existsb (Ascii.eqb (ascii_of_nat 10)) (list_ascii_of_string s)
       then String (ascii_of_nat 10) EmptyString
       else " "
  else s.

Fixpoint build (tokens : list token) (b : builder) : list node :=
  match tokens with
  | [] => rev (snd (Nat.iter (length (fst b)) pop b))
  | Data s :: tokens' =>
      build tokens' (push_child (NavigableString (end_data (fst b) s)) b)
  | StartTag name :: tokens' => build tokens' ((name, []) :: fst b, snd b)
  | EndTag name :: tokens' =>
      match depth_of name (fst b) with
      | None => build tokens' b
      | Some k => build tokens' (Nat.iter (S k) pop b)
      end
  end.

Definition html_parser (markup : string) : result (list node) :=
  tokens ← lex None O O [] markup;
  Ok (build tokens ([], [])).

End HtmlParser.

(** ** The transport

    What [requests] and [urllib3] do with one GET: the server is the
    sequence of the replies that the successive requests of the fetch
    meet.  The retry policy of the adapter decides how many replies one
    request may use up; [requests] follows a redirection with a new
    request, up to thirty times. *)

(** The value of the [Retry-After] header, as [urllib3] reads it:
    missing, empty, a number of seconds or a date, or anything else. *)
Inductive RetryAfter : Type :=
  | NoRetryAfter
  | EmptyRetryAfter
  | Delay
  | Unreadable.

(** The headers that the transport acts on. *)
Record Headers : Type :=
  { location : option string;
    retry_after : RetryAfter }.

Definition no_headers : Headers :=
  {| location := None; retry_after := NoRetryAfter |}.

Inductive reply : Type :=
  | Answer (status : Z) (hdrs : Headers) (body : string)
  | ConnectFault (e : exn)
  | ReadFault (e : exn).

Record Response : Type :=
  { status_code : Z;
    headers : Headers;
    text : string }.

Record Retry : Type :=
  { total : nat;
    read : option nat;
    connect : option nat;
    backoff_factor : Q;
    status_forcelist : list Z }.

Record Session : Type :=
  { max_retries : Retry;
    proxies : gmap string string }.

(** One retry charged to a counter; [None] on the left of the arrow is a
    counter that is not limited, [None] on the right is exhaustion. *)
Definition spend (counter : option nat) : option (option nat) :=
  match counter with
  | None => Some None
  | Some O => None
  | Some (S c) => Some (Some c)
  end.

Definition RETRY_AFTER_STATUS_CODES : list Z := [413; 429; 503].

(** [bool(response.headers.get("Retry-After"))] *)
Definition has_retry_after (hdrs : Headers) : bool :=
  match retry_after hdrs with
  | Delay => true
  | Unreadable => true
  | NoRetryAfter => false
  | EmptyRetryAfter => false
  end.

(** [Retry.is_retry]: the status is in the forcelist, or retries are
    left and the reply asks for one with a [Retry-After] header. *)
Definition is_retry (total : nat) (forcelist : list Z) (status : Z)
    (hdrs : Headers) : bool :=
  bool_decide (status ∈ forcelist)
  || (negb (total =? 0)%nat && has_retry_after hdrs
      && bool_decide (status ∈ RETRY_AFTER_STATUS_CODES)).

(** [Retry.sleep] before the next attempt: the time is of no concern
    here, but reading a [Retry-After] header that holds neither a number
    nor a date raises. *)
Definition sleep (hdrs : Headers) : result unit :=
  match retry_after hdrs with
  | NoRetryAfter => Ok tt
  | Delay => Ok tt
  | EmptyRetryAfter => Raise InvalidHeader
  | Unreadable => Raise InvalidHeader
  end.

(** The request loop of [urllib3]: attempt number [k] and the counters
    left.  A reply that [is_retry] accepts, or a fault, costs one unit of
    [total] and of its own counter; a counter that would go below zero
    ends the request with an exception.  With the response comes the
    number of the next attempt. *)
Fixpoint urlopen (total : nat) (read connect : option nat)
    (forcelist : list Z) (srv : nat -> reply) (k : nat)
  : result (Response * nat) :=
  match srv k with
  | Answer st hdrs body =>
      if is_retry total forcelist st hdrs then
        match total with
        | O => Raise RetryError
        | S t =>
            match sleep hdrs with
            | Raise e => Raise e
            | Ok _ => urlopen t read connect forcelist srv (S k)
            end
        end
      else Ok ({| status_code := st; headers := hdrs; text := body |}, S k)
  | ConnectFault e =>
      match total with
      | O => Raise e
      | S t =>
          match spend connect with
          | None => Raise e
          | Some c => urlopen t read c forcelist srv (S k)
          end
      end
  | ReadFault e =>
      match total with
      | O => Raise e
      | S t =>
          match spend read with
          | None => Raise e
          | Some r => urlopen t r connect forcelist srv (S k)
          end
      end
  end.

Definition REDIRECT_STATI : list Z := [301; 302; 303; 307; 308].
Definition DEFAULT_REDIRECT_LIMIT : nat := 30.

(** [Response.is_redirect] *)
Definition is_redirect (response : Response) : bool :=
  bool_decide (is_Some (location (headers response)))
  && bool_decide (status_code response ∈ REDIRECT_STATI).

(** [Session.send] with [allow_redirects]: every request goes through
    the adapter with the retry policy afresh; a redirection is followed
    while [redirects] last. *)
Fixpoint send (redirects : nat) (retry : Retry) (srv : nat -> reply)
    (k : nat) : result Response :=
  match urlopen (total retry) (read retry) (connect retry)
          (status_forcelist retry) srv k with
  | Raise e => Raise e
  | Ok (response, k') =>
      if is_redirect response then
        match redirects with
        | O => Raise TooManyRedirects
        | S n => send n retry srv k'
        end
      else Ok response
  end.

(** [session.get(url, ...)] *)
Definition session_get (session : Session) (srv : nat -> reply)
  : result Response :=
  send DEFAULT_REDIRECT_LIMIT (max_retries session) srv 0.

Definition tor_proxies : gmap string string :=
  {[ "http" := "socks5h://127.0.0.1:9050";
     "https" := "socks5h://127.0.0.1:9050" ]}.

Definition get_tor_session : Session :=
  let retry :=
    {| total := 3;
       read := Some 3%nat;
       connect := Some 3%nat;
       backoff_factor := (3 # 10)%Q;
       status_forcelist := [500; 502; 503; 504] |} in
  {| max_retries := retry; proxies := tor_proxies |}.

(** The session behind the module-level [requests.get]: the adapter that
    [requests] mounts by default never retries. *)
Definition default_session : Session :=
  {| max_retries :=
       {| total := 0;
          read := Some 0%nat;
          connect := None;
          backoff_factor := 0%Q;
          status_forcelist := [] |};
     proxies := ∅ |}.

Definition requests_get (srv : nat -> reply) : result Response :=
  session_get default_session srv.

(** ** check_tor_connection *)

Inductive json : Type :=
  | JNull
  | JBool (b : bool)
  | JNumber (n : Z)
  | JString (s : string)
  | JArray
  | JObject (fields : gmap string json).

(** The reply of the check service: its status and what
    [response.json()] gives ([None] when the body is not JSON). *)
Record CheckResponse : Type :=
  { check_status : Z;
    check_json : option json }.

Definition response_json (r : CheckResponse) : result json :=
  match check_json r with
  | Some j => Ok j
  | None => Raise ValueError
  end.

(** [data.get(key, ...)]: only dictionaries have the method. *)
Definition data_get (data : json) (key : string) (dflt : json) : result json :=
  match data with
  | JObject fields => Ok (default dflt (fields !! key))
  | _ => Raise OtherError
  end.

Definition check_tor_connection (probe : result CheckResponse) : bool :=
  let attempt : result (option bool) :=
    response ← probe;
    if bool_decide (check_status response = 200) then
      data ← response_json response;
      _ ← data_get data "IP" (JString "unknown");
      _ ← data_get data "IsTor" (JBool false);
      Ok (Some true)
    else Ok None in
  match attempt with
  | Ok (Some b) => b
  | Ok None => false
  | Raise _ => false
  end.

(** ** scrape_single *)

Definition try_except {A} (body : result A) (handler : exn -> result A)
  : result A :=
  match body with
  | Ok a => Ok a
  | Raise e => handler e
  end.

Section Scrape.

(** [BeautifulSoup(markup, "html.parser")]: the tree, or the exception
    with which the parser rejects the markup. *)
Variable BeautifulSoup : string -> result (list node).

Definition scrape_single (srv : nat -> reply)
    (url_data : gmap string string) : result (string * string) :=
  url ← Py.getitem url_data "link";
  let use_tor := Py.contains ".onion" url in
  scraped_text ←
    try_except
      (response ← (if use_tor then session_get get_tor_session srv
                   else requests_get srv);
       if bool_decide (status_code response = 200) then
         soup ← BeautifulSoup (text response);
         let soup := extract_all ["script"; "style"] soup in
         let text := get_text " " soup in
         let text := Py.join " " (Py.split text) in
         title ← Py.getitem url_data "title";
         Ok (title +:+ " - " +:+ text)
       else Py.getitem url_data "title")
      (fun e =>
         match e with
         | ConnectTimeout => Py.getitem url_data "title"
         | ProxyError => Py.getitem url_data "title"
         | _ => Py.getitem url_data "title"
         end);
  Ok (url, scraped_text).

End Scrape.

(** ** scrape_multiple *)

(** One invocation [progress_callback(label, status, current, total)]. *)
Record event : Type :=
  { ev_label : string;
    ev_status : string;
    ev_current : nat;
    ev_total : nat }.

(** What an invocation of the callback does.  An exception whose class
    derives from [Exception] is one that [except Exception] catches; one
    that derives from [BaseException] only, as [KeyboardInterrupt] and
    [SystemExit] do, passes that clause. *)
Inductive verdict : Type :=
  | Returns
  | RaisesException
  | RaisesBaseException.

(** A callback, as far as the coordinator can tell: given the invocations
    it has seen so far and the present one, what does it do? *)
Definition callback : Type := list event -> event -> verdict.

(** The local variables of [scrape_multiple] that the loop updates, and
    the invocations of the callback so far. *)
Record state : Type :=
  { results : gmap string string;
    success_count : nat;
    fail_count : nat;
    completed : nat;
    calls : list event }.

Definition initial_state (calls0 : list event) : state :=
  {| results := ∅; success_count := 0; fail_count := 0; completed := 0;
     calls := calls0 |}.

Definition store (url content : string) (st : state) : state :=
  {| results := <[url := content]> (results st);
     success_count := success_count st;
     fail_count := fail_count st;
     completed := completed st;
     calls := calls st |}.

Definition incr_completed (st : state) : state :=
  {| results := results st;
     success_count := success_count st;
     fail_count := fail_count st;
     completed := S (completed st);
     calls := calls st |}.

Definition incr_success (st : state) : state :=
  {| results := results st;
     success_count := S (success_count st);
     fail_count := fail_count st;
     completed := completed st;
     calls := calls st |}.

Definition incr_fail (st : state) : state :=
  {| results := results st;
     success_count := success_count st;
     fail_count := S (fail_count st);
     completed := completed st;
     calls := calls st |}.

Definition record_call (ev : event) (st : state) : state :=
  {| results := results st;
     success_count := success_count st;
     fail_count := fail_count st;
     completed := completed st;
     calls := calls st ++ [ev] |}.

(** [if progress_callback: progress_callback(...)]: what the call does,
    with the state it leaves behind. *)
Definition notify (progress_callback : option callback) (ev : event)
    (st : state) : verdict * state :=
  match progress_callback with
  | None => (Returns, st)
  | Some f => (f (calls st) ev, record_call ev st)
  end.

(** An invocation that no handler surrounds: whatever the callback
    raises goes on to the caller. *)
Definition unguarded (call : verdict * state) : option exn * state :=
  match call with
  | (Returns, st) => (None, st)
  | (_, st) => (Some CallbackError, st)
  end.

Definition max_chars : nat := 2000.
Definition truncation_marker : string := "...(truncated)".

(** Lines 186-187. *)
Definition truncate (content : string) : string :=
  if (max_chars <? Py.len content)%nat
  then Py.take max_chars content +:+ truncation_marker
  else content.

(** A submitted future: the task it was submitted for and what
    [future.result()] gives. *)
Definition future : Type := gmap string string * result (string * string).

Section Coordinator.

Variable total_urls : nat.
Variable progress_callback : option callback.

(** The [except Exception] clause of the loop. *)
Definition on_exception (url : string) (st : state) : option exn * state :=
  let st := incr_completed st in
  let st := incr_fail st in
  unguarded
    (notify progress_callback
       {| ev_label := url; ev_status := "error";
          ev_current := completed st; ev_total := total_urls |} st).

(** The body of [for future in as_completed(future_to_url)]. *)
Definition handle_future (fut : future) (st : state) : option exn * state :=
  let '(url_data, outcome) := fut in
  let url := Py.get url_data "link" "unknown" in
  match outcome with
  | Raise _ => on_exception url st
  | Ok (result_url, content) =>
      let content := truncate content in
      let st := store result_url content st in
      let st := incr_completed st in
      let '(st, status) :=
        if (Py.len (Py.get url_data "title" "") + 10 <? Py.len content)%nat
        then (incr_success st, "success")
        else (incr_fail st, "failed") in
      match notify progress_callback
              {| ev_label := url; ev_status := status;
                 ev_current := completed st; ev_total := total_urls |} st
      with
      | (Returns, st) => (None, st)
      | (RaisesException, st) => on_exception url st
      | (RaisesBaseException, st) => (Some CallbackError, st)
      end
  end.

(** The loop; an exception that leaves the body leaves the loop. *)
Fixpoint drain (futures : list future) (st : state) : option exn * state :=
  match futures with
  | [] => (None, st)
  | fut :: rest =>
      match handle_future fut st with
      | (None, st) => drain rest st
      | (Some e, st) => (Some e, st)
      end
  end.

End Coordinator.

(** What a run of [scrape_multiple] meets: the reply of the Tor check
    service, for the task at each position the replies of its server, and
    the positions of the futures in the order [as_completed] yields them. *)
Record environment : Type :=
  { probe : result CheckResponse;
    server : nat -> nat -> reply;
    completion : list nat }.

(** [as_completed] yields every future once, in the order the environment
    fixes. *)
Definition well_scheduled (env : environment)
    (urls_data : list (gmap string string)) : Prop :=
  completion env ≡ₚ seq 0 (length urls_data).

Definition as_completed (order : list nat) (futures : list future)
  : list future :=
  omap (fun i => futures !! i) order.

Section Batch.

Variable BeautifulSoup : string -> result (list node).

Definition submit_all (env : environment)
    (urls_data : list (gmap string string)) : list future :=
  imap (fun i url_data =>
          (url_data, scrape_single BeautifulSoup (server env i) url_data))
       urls_data.

(** Lines 158-168: the check that precedes the fetches. *)
Definition preflight (env : environment)
    (urls_data : list (gmap string string))
    (progress_callback : option callback) : option exn * state :=
  let total_urls := length urls_data in
  let st := initial_state [] in
  let has_onion :=
    existsb (fun url_data =>
               Py.contains ".onion" (Py.get url_data "link" ""))
            urls_data in
  if has_onion then
    match unguarded
            (notify progress_callback
               {| ev_label := "Checking Tor connection...";
                  ev_status := "checking";
                  ev_current := 0; ev_total := total_urls |} st)
    with
    | (Some e, st) => (Some e, st)
    | (None, st) =>
        let tor_ok := check_tor_connection (probe env) in
        if negb tor_ok then
          unguarded
            (notify progress_callback
               {| ev_label := "Tor NOT running!"; ev_status := "error";
                  ev_current := 0; ev_total := total_urls |} st)
        else (None, st)
    end
  else (None, st).

(** The run: what [scrape_multiple] returns or raises, and the
    invocations of the callback it made. *)
Definition scrape_multiple (env : environment)
    (urls_data : list (gmap string string)) (max_workers : Z)
    (progress_callback : option callback)
  : result (gmap string string) * list event :=
  let total_urls := length urls_data in
  match preflight env urls_data progress_callback with
  | (Some e, st) => (Raise e, calls st)
  | (None, st) =>
      if bool_decide (max_workers <= 0) then (Raise ValueError, calls st)
      else
        let future_to_url := submit_all env urls_data in
        match drain total_urls progress_callback
                (as_completed (completion env) future_to_url) st
        with
        | (Some e, st) => (Raise e, calls st)
        | (None, st) => (Ok (results st), calls st)
        end
  end.

End Batch.

(** ** Vocabulary of the statements *)

(** A task as the callers build it: a dictionary with the two keys. *)
Definition task (link title : string) : gmap string string :=
  {[ "link" := link; "title" := title ]}.

Definition well_formed (url_data : gmap string string) : Prop :=
  is_Some (url_data !! "link") /\ is_Some (url_data !! "title").

(** The request [scrape_single] issues for [url], by routing mode. *)
Definition transport (url : string) (srv : nat -> reply) : result Response :=
  if Py.contains ".onion" url then session_get get_tor_session srv
  else requests_get srv.

(** The fetch got no page: an exception, or a status other than 200. *)
Definition fetch_failed (url : string) (srv : nat -> reply) : Prop :=
  match transport url srv with
  | Ok response => status_code response <> 200
  | Raise _ => True
  end.

(** The text [scrape_single] builds from the tree of a page. *)
Definition visible_text (soup : list node) : string :=
  Py.join " "
    (Py.split (get_text " " (extract_all ["script"; "style"] soup))).

(** The request ended with a 200 response and the parser raised on its
    body. *)
Definition page_rejected (BeautifulSoup : string -> result (list node))
    (url : string) (srv : nat -> reply) : Prop :=
  exists response,
    transport url srv = Ok response
    /\ status_code response = 200
    /\ raises (BeautifulSoup (text response)).

Definition quiet (f : callback) : Prop := forall seen ev, f seen ev = Returns.

Definition never_raises (progress_callback : option callback) : Prop :=
  match progress_callback with
  | None => True
  | Some f => quiet f
  end.

(** The phase the loop reports for a completed future. *)
Definition classify (fut : future) : string :=
  match snd fut with
  | Raise _ => "error"
  | Ok (_, content) =>
      if (Py.len (Py.get (fst fut) "title" "") + 10
            <? Py.len (truncate content))%nat
      then "success" else "failed"
  end.

(** The invocation the loop makes for the [k]-th future it completes. *)
Definition task_event (total_urls k : nat) (fut : future) : event :=
  {| ev_label := Py.get (fst fut) "link" "unknown";
     ev_status := classify fut;
     ev_current := k;
     ev_total := total_urls |}.

(** The mapping after the futures of a list have been recorded. *)
Definition record_result (m : gmap string string) (fut : future)
  : gmap string string :=
  match snd fut with
  | Ok (url, content) => <[url := truncate content]> m
  | Raise _ => m
  end.

Definition results_after (futures : list future) (m : gmap string string)
  : gmap string string :=
  foldl record_result m futures.

Definition links (urls_data : list (gmap string string)) : list string :=
  omap (fun url_data => url_data !! "link") urls_data.

(** The invocations a callback sees from the loop, when none raises. *)
Definition loop_calls (total_urls : nat) (progress_callback : option callback)
    (start : nat) (futures : list future) : list event :=
  match progress_callback with
  | None => []
  | Some _ => imap (fun k => task_event total_urls (start + S k)) futures
  end.

(** The futures in the order the loop meets them. *)
Definition completed_futures (BeautifulSoup : string -> result (list node))
    (env : environment) (urls_data : list (gmap string string))
  : list future :=
  as_completed (completion env) (submit_all BeautifulSoup env urls_data).

(** The key under which a future is recorded, if it has a result. *)
Definition future_url (fut : future) : option string :=
  match snd fut with
  | Ok (url, _) => Some url
  | Raise _ => None
  end.

(** Every fetch of the batch fails. *)
Definition all_failed (env : environment)
    (urls_data : list (gmap string string)) : Prop :=
  forall i url_data link,
    urls_data !! i = Some url_data ->
    url_data !! "link" = Some link ->
    fetch_failed link (server env i).

(** The reply of the check service says that the request left through
    Tor. *)
Definition confirms_tor (r : CheckResponse) : Prop :=
  exists fields,
    check_json r = Some (JObject fields)
    /\ fields !! "IsTor" = Some (JBool true).


(** A reply that the retry policy answers with another attempt while
    retries are left: a fault, or a status of the list, or a 413, 429 or
    503 that comes with a [Retry-After] header; the header, if there is
    one, must be readable. *)
Definition retried (forcelist : list Z) (r : reply) : Prop :=
  match r with
  | Answer st hdrs _ =>
      (st ∈ forcelist
       \/ (has_retry_after hdrs = true /\ st ∈ RETRY_AFTER_STATUS_CODES))
      /\ sleep hdrs = Ok tt
  | ConnectFault _ => True
  | ReadFault _ => True
  end.

(** A reply that sends the client elsewhere. *)
Definition redirection (r : reply) : Prop :=
  match r with
  | Answer st hdrs _ => is_Some (location hdrs) /\ st ∈ REDIRECT_STATI
  | ConnectFault _ => False
  | ReadFault _ => False
  end.

(** A counter allows [k] more retries. *)
Definition allows (k : nat) (counter : option nat) : Prop :=
  match counter with
  | None => True
  | Some m => (k <= m)%nat
  end.

(** The invocations made before the fetches, and those made after. *)
Definition preflight_calls (env : environment)
    (urls_data : list (gmap string string))
    (progress_callback : option callback) : list event :=
  calls (snd (preflight env urls_data progress_callback)).

Definition task_calls (BeautifulSoup : string -> result (list node))
    (env : environment) (urls_data : list (gmap string string))
    (max_workers : Z) (progress_callback : option callback) : list event :=
  drop (length (preflight_calls env urls_data progress_callback))
       (snd (scrape_multiple BeautifulSoup env urls_data max_workers
               progress_callback)).

(** A callback that does not raise on the invocations that no handler
    surrounds. *)
Definition lenient (f : callback) : Prop :=
  forall seen ev,
    ev_status ev = "checking" \/ ev_status ev = "error" ->
    f seen ev = Returns.

Definition always_raises (f : callback) : Prop :=
  forall seen ev, f seen ev <> Returns.

(** A callback whose exceptions all derive from [Exception]. *)
Definition raises_exceptions_only (f : callback) : Prop :=
  forall seen ev, f seen ev <> RaisesBaseException.

(** The batch has a task for the Tor network. *)
Definition has_onion (urls_data : list (gmap string string)) : Prop :=
  exists url_data link,
    url_data ∈ urls_data
    /\ url_data !! "link" = Some link
    /\ Py.contains ".onion" link = true.

(** A tag with one of the names occurs in the node. *)
Fixpoint has_tag (names : list string) (n : node) : bool :=
  match n with
  | NavigableString _ => false
  | Tag nm cs =>
      bool_decide (nm ∈ names)
      || (fix go (l : list node) : bool :=
            match l with
            | [] => false
            | c :: l' => has_tag names c || go l'
            end) cs
  end.

(** The strings of a node that are not below a tag with one of the
    names. *)
Fixpoint kept_strings (names : list string) (n : node) : list string :=
  match n with
  | NavigableString s => [s]
  | Tag nm cs =>
      if bool_decide (nm ∈ names) then []
      else (fix go (l : list node) : list string :=
              match l with
              | [] => []
              | c :: l' => kept_strings names c ++ go l'
              end) cs
  end.

(** A word: not empty and free of whitespace. *)
Definition nonspace (c : ascii) : Prop := Py.isspace c = false.

Definition word (w : string) : Prop :=
  w <> "" /\ Forall nonspace (list_ascii_of_string w).

Fixpoint without_spaces (s : string) : string :=
  match s with
  | EmptyString => EmptyString
  | String c s' =>
      if Py.isspace c then without_spaces s' else String c (without_spaces s')
  end.

(** ** Inputs of the concrete runs *)

Module Scenario.

Definition html_parser := HtmlParser.html_parser.

(** No server can be reached and the Tor check fails. *)
Definition offline (order : list nat) : environment :=
  {| probe := Raise ProxyError;
     server := fun _ _ => ConnectFault ConnectTimeout;
     completion := order |}.

Definition hello_page : string :=
  "<html><body><script>x</script>Hello World</body></html>".

(** Every server answers 200 with the same page. *)
Definition serving (page : string) (order : list nat) : environment :=
  {| probe := Raise ProxyError;
     server := fun _ _ => Answer 200 no_headers page;
     completion := order |}.

Fixpoint letters (n : nat) : string :=
  match n with
  | O => EmptyString
  | S n' => String "a" (letters n')
  end.

(** A page whose text is 2005 characters long once the title [Long] and
    the separator are in front of it. *)
Definition long_page : string := letters 1998.

Definition long_result : gmap string string :=
  {[ "http://long.test/" :=
       "Long - " +:+ letters 1993 +:+ "...(truncated)" ]}.

(** The check service answers, and says the request did not come through
    Tor. *)
Definition not_tor : CheckResponse :=
  {| check_status := 200;
     check_json :=
       Some (JObject {[ "IP" := JString "203.0.113.7";
                        "IsTor" := JBool false ]}) |}.

Definition unavailable : CheckResponse :=
  {| check_status := 503; check_json := None |}.

(** A server that answers 503 to the first [n] attempts and the page
    after that. *)
Definition flaky (n : nat) (page : string) : nat -> reply :=
  fun k =>
    if (k <? n)%nat then Answer 503 no_headers ""
    else Answer 200 no_headers page.

Definition silent : callback := fun _ _ => Returns.
Definition faulty : callback := fun _ _ => RaisesException.

(** Raises on the failed phase only. *)
Definition picky : callback :=
  fun _ ev =>
    if String.eqb (ev_status ev) "failed" then RaisesException else Returns.

Definition onion_task : gmap string string :=
  task "http://alpha.onion/" "Alpha".

Definition three_tasks : list (gmap string string) :=
  [task "http://alpha.onion/" "Alpha";
   task "http://beta.test/" "Beta";
   task "http://alpha.onion/" "Alpha again"].

End Scenario.

(** ** The logger of the module

    Lines 15-34 run when the module is imported: they fetch the logger
    [robin.scrape] and attach handlers to it unless it has some already.
    A handler is its class, its level, where it writes and its format;
    [isinstance] follows the classes of [logging], where [FileHandler]
    derives from [StreamHandler]. *)

Module Logging.

Inductive handler_class : Type :=
  | Handler
  | StreamHandler
  | FileHandler.

Record handler : Type :=
  { handler_cls : handler_class;
    handler_level : Z;
    handler_target : string;
    handler_format : string }.

Record logger : Type :=
  { logger_level : Z;
    handlers : list handler }.

Definition DEBUG : Z := 10.
Definition INFO : Z := 20.

Definition isinstance (h : handler) (cls : handler_class) : bool :=
  match cls, handler_cls h with
  | Handler, _ => true
  | StreamHandler, StreamHandler => true
  | StreamHandler, FileHandler => true
  | FileHandler, FileHandler => true
  | _, _ => false
  end.

Definition setLevel (level : Z) (lg : logger) : logger :=
  {| logger_level := level; handlers := handlers lg |}.

Definition addHandler (h : handler) (lg : logger) : logger :=
  {| logger_level := logger_level lg; handlers := handlers lg ++ [h] |}.

Definition file_handler : handler :=
  {| handler_cls := FileHandler;
     handler_level := DEBUG;
     handler_target := "robin_debug.log";
     handler_format :=
       "%(asctime)s - %(name)s - %(levelname)s - %(funcName)s:%(lineno)d - %(message)s" |}.

Definition console_handler : handler :=
  {| handler_cls := StreamHandler;
     handler_level := INFO;
     handler_target := "sys.stdout";
     handler_format := "%(asctime)s - %(levelname)s - %(message)s" |}.

(** Lines 15-34, on the logger as [logging.getLogger] hands it over. *)
Definition configure (lg : logger) : logger :=
  let lg := setLevel DEBUG lg in
  let lg :=
    if negb (existsb (fun h => isinstance h FileHandler) (handlers lg))
    then addHandler file_handler lg else lg in
  let lg :=
    if negb (existsb (fun h => isinstance h StreamHandler) (handlers lg))
    then addHandler console_handler lg else lg in
  lg.

End Logging.

(** ** The local variables at the end of a run *)

Section Run.

Variable BeautifulSoup : string -> result (list node).

(** [scrape_multiple] up to its last line: the exception that ends it, if
    any, and the state it has reached. *)
Definition run (env : environment) (urls_data : list (gmap string string))
    (max_workers : Z) (progress_callback : option callback)
  : option exn * state :=
  match preflight env urls_data progress_callback with
  | (Some e, st) => (Some e, st)
  | (None, st) =>
      if bool_decide (max_workers <= 0) then (Some ValueError, st)
      else
        drain (length urls_data) progress_callback
          (as_completed (completion env)
             (submit_all BeautifulSoup env urls_data)) st
  end.

End Run.

(** A callback that raises an exception derived from [Exception] on
    every success and failed invocation and returns on the others. *)
Definition touchy (f : callback) : Prop :=
  lenient f
  /\ forall seen ev,
       ev_status ev = "success" \/ ev_status ev = "failed" ->
       f seen ev = RaisesException.

(** The link holds [.onion] somewhere. *)
Definition mentions_onion (link : string) : Prop :=
  exists pre post, link = pre +:+ ".onion" +:+ post.

(** The invocations since [before] are numbered from 1 by their count of
    completed tasks, which is where the counter stands, and carry the
    total. *)
Definition counted (total_urls : nat) (before : list event) (st : state)
  : Prop :=
  exists loop,
    calls st = before ++ loop
    /\ length loop = completed st
    /\ forall k ev,
         loop !! k = Some ev ->
         ev_current ev = S k /\ ev_total ev = total_urls.

(** The futures that the loop counts as successes. *)
Definition succeeded (futures : list future) : list future :=
  filter (fun fut => classify fut = "success") futures.

(** ** Inputs of further concrete runs *)

Module Edge.

Definition no_title : gmap string string :=
  {[ "link" := "http://gamma.test/" ]}.

Definition no_link : gmap string string :=
  {[ "title" := "Gamma" ]}.

Definition mixed_tasks : list (gmap string string) :=
  [task "http://beta.test/" "Beta"; no_link; no_title].

(** Raises on the success and failed phases. *)
Definition touchy_callback : callback :=
  fun _ ev =>
    if String.eqb (ev_status ev) "success" || String.eqb (ev_status ev) "failed"
    then RaisesException else Returns.

(** Raises [KeyboardInterrupt] on the success and failed phases. *)
Definition interrupting : callback :=
  fun _ ev =>
    if String.eqb (ev_status ev) "success" || String.eqb (ev_status ev) "failed"
    then RaisesBaseException else Returns.

(** The first server answers with a page, the others cannot be reached. *)
Definition first_serves (page : string) (order : list nat) : environment :=
  {| probe := Raise ProxyError;
     server := fun i _ =>
                 match i with
                 | O => Answer 200 no_headers page
                 | S _ => ConnectFault ConnectTimeout
                 end;
     completion := order |}.

Definition same_link_tasks : list (gmap string string) :=
  [task "http://beta.test/" "Beta"; task "http://beta.test/" "Beta"].

(** The check service confirms Tor. *)
Definition tor_up : CheckResponse :=
  {| check_status := 200;
     check_json :=
       Some (JObject {[ "IP" := JString "203.0.113.7";
                        "IsTor" := JBool true ]}) |}.

(** As [Scenario.offline], with a check service that confirms Tor. *)
Definition offline_with_tor (order : list nat) : environment :=
  {| probe := Ok tor_up;
     server := fun _ _ => ConnectFault ConnectTimeout;
     completion := order |}.

(** Answers as [Scenario.flaky 3] for four attempts and is gone after. *)
Definition flaky_then_gone (page : string) : nat -> reply :=
  fun k =>
    if (k <? 4)%nat then Scenario.flaky 3 page k
    else ConnectFault ConnectTimeout.

(** A body on which [html.parser] raises: a marked section with an
    unknown keyword. *)
Definition rejected_page : string := "<![x]>Hello World".

(** A clear-web address with [.onion] in its query. *)
Definition redirect_task : gmap string string :=
  task "http://example.test/?next=http://alpha.onion/" "Redirect".

End Edge.

(** * Properties *)

(** ** Strings *)

Lemma len_append (s1 s2 : string) :
  Py.len (s1 +:+ s2) = (Py.len s1 + Py.len s2)%nat.
Proof.
  unfold Py.len. induction s1 as [| c s1 IH]; simpl; [reflexivity |].
  f_equal. exact IH.
Qed.

Lemma len_take (n : nat) (s : string) :
  Py.len (Py.take n s) = Nat.min n (Py.len s).
Proof.
  unfold Py.len, Py.take. revert n.
  induction s as [| c s IH]; intros [| n]; simpl; try reflexivity.
  f_equal. apply IH.
Qed.

Lemma truncate_short (content : string) :
  (Py.len content <= max_chars)%nat -> truncate content = content.
Proof.
  intros Hle. unfold truncate.
  destruct (Nat.ltb_spec max_chars (Py.len content)); [lia | reflexivity].
Qed.

Lemma truncate_long (content : string) :
  (max_chars < Py.len content)%nat ->
  truncate content = Py.take max_chars content +:+ truncation_marker.
Proof.
  intros Hlt. unfold truncate.
  destruct (Nat.ltb_spec max_chars (Py.len content)); [reflexivity | lia].
Qed.

Lemma truncate_cases (content : string) :
  ((Py.len content <= 2000)%nat -> truncate content = content)
  /\ ((2000 < Py.len content)%nat ->
      truncate content = Py.take 2000 content +:+ "...(truncated)").
Proof.
  split; intros H; [apply truncate_short | apply truncate_long]; exact H.
Qed.

Lemma len_truncate (content : string) :
  Py.len (truncate content)
  = if (max_chars <? Py.len content)%nat
    then (max_chars + Py.len truncation_marker)%nat
    else Py.len content.
Proof.
  unfold truncate.
  destruct (Nat.ltb_spec max_chars (Py.len content)); [| reflexivity].
  rewrite len_append, len_take. lia.
Qed.

Lemma len_truncate_bound (content : string) :
  (Py.len (truncate content) <= max_chars + Py.len truncation_marker)%nat.
Proof.
  rewrite len_truncate.
  destruct (Nat.ltb_spec max_chars (Py.len content)); lia.
Qed.

(** ** The parse tree *)

Lemma node_induction (P : node -> Prop) :
  (forall s, P (NavigableString s)) ->
  (forall nm cs, Forall P cs -> P (Tag nm cs)) ->
  forall n, P n.
Proof.
  intros Hstring Htag. fix IH 1. intros [s | nm cs].
  - apply Hstring.
  - apply Htag. induction cs as [| c cs IHcs]; constructor.
    + apply IH.
    + exact IHcs.
Qed.

Lemma extract_tags_clean names n :
  Forall (fun m => has_tag names m = false) (extract_tags names n).
Proof.
  induction n as [s | nm cs IH] using node_induction; cbn.
  - repeat constructor.
  - destruct (bool_decide (nm ∈ names)) eqn:Hnm; [constructor |].
    constructor; [| constructor]. cbn. rewrite Hnm. cbn.
    induction IH as [| c cs Hc _ IHcs]; [reflexivity |].
    cbn. 
    induction Hc as [| m ms Hm _ IHm]; cbn; [exact IHcs |].
    rewrite Hm. cbn. exact IHm.
Qed.

Lemma extract_all_clean names soup :
  Forall (fun m => has_tag names m = false) (extract_all names soup).
Proof.
  unfold extract_all. induction soup as [| n soup IH]; cbn; [constructor |].
  apply Forall_app. split; [apply extract_tags_clean | exact IH].
Qed.

Lemma all_strings_extract_tags names n :
  flat_map all_strings (extract_tags names n) = kept_strings names n.
Proof.
  induction n as [s | nm cs IH] using node_induction; cbn; [reflexivity |].
  destruct (bool_decide (nm ∈ names)); [reflexivity |].
  cbn. rewrite app_nil_r.
  induction IH as [| c cs Hc _ IHcs]; [reflexivity |].
  rewrite <- Hc, <- IHcs. clear.
  induction (extract_tags names c) as [| m ms IHm]; cbn; [reflexivity |].
  rewrite <- app_assoc. f_equal. exact IHm.
Qed.

Lemma all_strings_extract_all names soup :
  flat_map all_strings (extract_all names soup)
  = flat_map (kept_strings names) soup.
Proof.
  unfold extract_all. induction soup as [| n soup IH]; [reflexivity |].
  cbn [flat_map]. rewrite flat_map_app, IH, all_strings_extract_tags.
  reflexivity.
Qed.

(** ** Whitespace *)

Lemma word_of_run cur :
  cur <> [] -> Forall nonspace cur -> word (string_of_list_ascii (rev cur)).
Proof.
  intros Hne Hcur. split.
  - intros Heq. apply (f_equal list_ascii_of_string) in Heq.
    rewrite list_ascii_of_string_of_list_ascii in Heq. cbn in Heq.
    apply (f_equal (@rev ascii)) in Heq. rewrite rev_involutive in Heq.
    contradiction.
  - rewrite list_ascii_of_string_of_list_ascii.
    apply Forall_forall. intros c Hc. apply list_elem_of_In, in_rev in Hc.
    apply (proj1 (Forall_forall _ _) Hcur). now apply list_elem_of_In.
Qed.

Lemma split_aux_words s : forall cur,
  Forall nonspace cur -> Forall word (Py.split_aux cur s).
Proof.
  induction s as [| c s IH]; intros cur Hcur; cbn.
  - destruct cur as [| c0 cur0]; [constructor |].
    constructor; [| constructor]. now apply word_of_run.
  - destruct (Py.isspace c) eqn:Hc.
    + apply Forall_app. split; [| apply IH; constructor].
      destruct cur as [| c0 cur0]; [constructor |].
      constructor; [| constructor]. now apply word_of_run.
    + apply IH. constructor; assumption.
Qed.

Lemma append_cons (x : ascii) (a b : string) :
  String x a +:+ b = String x (a +:+ b).
Proof. reflexivity. Qed.

Lemma append_assoc (a b c : string) : (a +:+ b) +:+ c = a +:+ (b +:+ c).
Proof.
  induction a as [| x a IH]; [reflexivity |].
  now rewrite !append_cons, IH.
Qed.

Lemma append_nil_r (a : string) : a +:+ "" = a.
Proof.
  induction a as [| x a IH]; [reflexivity |].
  now rewrite append_cons, IH.
Qed.

Lemma string_of_list_ascii_app (l1 l2 : list ascii) :
  string_of_list_ascii (l1 ++ l2)
  = string_of_list_ascii l1 +:+ string_of_list_ascii l2.
Proof.
  induction l1 as [| x l1 IH]; [reflexivity |].
  cbn [app string_of_list_ascii]. now rewrite append_cons, IH.
Qed.

Lemma concat_nil_app (l1 l2 : list string) :
  String.concat "" (l1 ++ l2) = String.concat "" l1 +:+ String.concat "" l2.
Proof.
  induction l1 as [| x l1 IH]; [reflexivity |].
  cbn [app]. destruct l1 as [| y l1].
  - cbn. destruct l2; cbn; [now rewrite append_nil_r | reflexivity].
  - change (String.concat "" (x :: (y :: l1) ++ l2))
      with (x +:+ "" +:+ String.concat "" ((y :: l1) ++ l2)).
    rewrite IH. cbn. now rewrite append_assoc.
Qed.

Lemma split_aux_letters s : forall cur,
  String.concat "" (Py.split_aux cur s)
  = string_of_list_ascii (rev cur) +:+ without_spaces s.
Proof.
  induction s as [| c s IH]; intros cur; cbn.
  - rewrite append_nil_r. destruct cur; reflexivity.
  - destruct (Py.isspace c).
    + rewrite concat_nil_app, IH. cbn. destruct cur; reflexivity.
    + rewrite IH. cbn. rewrite string_of_list_ascii_app, append_assoc.
      reflexivity.
Qed.

Lemma split_aux_word w : forall cur rest,
  Forall nonspace (list_ascii_of_string w) ->
  Py.split_aux cur (w +:+ rest)
  = Py.split_aux (rev (list_ascii_of_string w) ++ cur) rest.
Proof.
  induction w as [| c w IH]; intros cur rest Hw; [reflexivity |].
  cbn in Hw. apply Forall_cons in Hw. destruct Hw as [Hc Hw].
  rewrite append_cons. cbn [Py.split_aux list_ascii_of_string rev].
  unfold nonspace in Hc. rewrite Hc. rewrite (IH _ _ Hw).
  now rewrite <- app_assoc.
Qed.

Lemma split_join ws :
  Forall word ws -> Py.split (Py.join " " ws) = ws.
Proof.
  unfold Py.split, Py.join.
  induction 1 as [| w ws [Hne Hw] Hws IH]; [reflexivity |].
  assert (Hflush : forall tail,
             match rev (list_ascii_of_string w) with
             | [] => []
             | _ => [string_of_list_ascii (rev (rev (list_ascii_of_string w)))]
             end ++ tail = w :: tail).
  { intros tail. rewrite rev_involutive, string_of_list_ascii_of_string.
    destruct (rev (list_ascii_of_string w)) eqn:Hrev; [| reflexivity].
    apply (f_equal (@rev ascii)) in Hrev. rewrite rev_involutive in Hrev.
    apply (f_equal string_of_list_ascii) in Hrev.
    rewrite string_of_list_ascii_of_string in Hrev. contradiction. }
  destruct ws as [| w2 ws].
  - cbn [String.concat]. rewrite <- (append_nil_r w) at 1.
    rewrite (split_aux_word _ _ _ Hw).
    rewrite (app_nil_r (rev (list_ascii_of_string w))).
    cbn [Py.split_aux].
    exact (eq_trans (eq_sym (app_nil_r _)) (Hflush [])).
  - change (String.concat " " (w :: w2 :: ws))
      with (w +:+ " " +:+ String.concat " " (w2 :: ws)).
    rewrite (split_aux_word _ _ _ Hw).
    rewrite (app_nil_r (rev (list_ascii_of_string w))).
    change (" " +:+ ?r) with (String " "%char r).
    cbn [Py.split_aux]. change (Py.isspace " ") with true. cbv iota.
    rewrite IH. apply Hflush.
Qed.

Lemma flush_word w :
  w <> "" -> Py.flush (rev (list_ascii_of_string w)) = [w].
Proof.
  intros Hne. unfold Py.flush.
  rewrite rev_involutive, string_of_list_ascii_of_string.
  destruct (rev (list_ascii_of_string w)) eqn:Hrev; [| reflexivity].
  apply (f_equal (@rev ascii)) in Hrev. rewrite rev_involutive in Hrev.
  apply (f_equal string_of_list_ascii) in Hrev.
  rewrite string_of_list_ascii_of_string in Hrev. contradiction.
Qed.

(** A run of whitespace ends the word being read. *)
Lemma split_aux_gap gap : forall cur rest,
  gap <> "" ->
  Forall (fun c => Py.isspace c = true) (list_ascii_of_string gap) ->
  Py.split_aux cur (gap +:+ rest) = Py.flush cur ++ Py.split_aux [] rest.
Proof.
  induction gap as [| c gap IH]; intros cur rest Hne Hgap; [contradiction |].
  cbn in Hgap. apply Forall_cons in Hgap. destruct Hgap as [Hc Hgap].
  rewrite append_cons. cbn [Py.split_aux]. rewrite Hc. f_equal.
  destruct gap as [| d gap]; [reflexivity |].
  now rewrite IH.
Qed.

Lemma split_two_words w1 w2 gap :
  word w1 -> word w2 ->
  gap <> "" ->
  Forall (fun c => Py.isspace c = true) (list_ascii_of_string gap) ->
  Py.join " " (Py.split (gap +:+ w1 +:+ gap +:+ w2 +:+ gap))
  = w1 +:+ " " +:+ w2.
Proof.
  intros [Hne1 Hw1] [Hne2 Hw2] Hne Hgap. unfold Py.split.
  rewrite (split_aux_gap gap [] _ Hne Hgap).
  rewrite (split_aux_word w1 [] _ Hw1), app_nil_r.
  rewrite (split_aux_gap gap _ _ Hne Hgap), (flush_word w1 Hne1).
  rewrite (split_aux_word w2 [] _ Hw2), app_nil_r.
  rewrite <- (append_nil_r gap) at 1.
  rewrite (split_aux_gap gap _ _ Hne Hgap), (flush_word w2 Hne2).
  reflexivity.
Qed.

(** [str.isspace] below code point 256. *)
Lemma isspace_spec c :
  Py.isspace c = true <->
  nat_of_ascii c ∈ [9; 10; 11; 12; 13; 28; 29; 30; 31; 32; 133; 160]%nat.
Proof.
  rewrite <- (bool_decide_eq_true
                (nat_of_ascii c
                 ∈ [9; 10; 11; 12; 13; 28; 29; 30; 31; 32; 133; 160]%nat)).
  assert (Heq : Py.isspace c
                = bool_decide
                    (nat_of_ascii c
                     ∈ [9; 10; 11; 12; 13; 28; 29; 30; 31; 32; 133;
                        160]%nat)).
  { destruct c as [[] [] [] [] [] [] [] []]; vm_compute; reflexivity. }
  now rewrite Heq.
Qed.

(** ** Substrings *)

Lemma prefix_spec needle hay :
  String.prefix needle hay = true <-> exists post, hay = needle +:+ post.
Proof.
  revert hay. induction needle as [| c needle IH]; intros hay.
  - cbn. split; [eauto | destruct hay; reflexivity].
  - destruct hay as [| d hay]; cbn [String.prefix].
    + split; [discriminate | intros [post Hpost]; discriminate].
    + setoid_rewrite append_cons.
      destruct (Ascii.ascii_dec c d) as [-> | Hne].
      * rewrite IH. split; intros [post Hpost]; exists post; congruence.
      * split; [discriminate |]. intros [post [= Hd _]]. congruence.
Qed.

Lemma contains_spec needle hay :
  Py.contains needle hay = true
  <-> exists pre post, hay = pre +:+ needle +:+ post.
Proof.
  induction hay as [| d hay IH]; cbn [Py.contains].
  - rewrite orb_false_r, prefix_spec. split.
    + intros [post Hpost]. exists "", post. exact Hpost.
    + intros (pre & post & Hpost). destruct pre; [eauto |]. discriminate.
  - rewrite orb_true_iff, prefix_spec, IH. split.
    + intros [[post Hpost] | (pre & post & Hpost)].
      * exists "", post. exact Hpost.
      * exists (String d pre), post. rewrite append_cons. now rewrite Hpost.
    + intros (pre & post & Hpost). destruct pre as [| c pre].
      * left. eauto.
      * right. rewrite append_cons in Hpost. injection Hpost as _ Hpost.
        eauto.
Qed.

(** ** The retry loop *)

Lemma allows_weaken k counter : allows (S k) counter -> allows k counter.
Proof. destruct counter; cbn; lia. Qed.

Lemma allows_spend k counter :
  allows (S k) counter ->
  exists counter', spend counter = Some counter' /\ allows k counter'.
Proof.
  destruct counter as [[| m] |]; cbn; intros H; [lia | |].
  - exists (Some m). split; [reflexivity | cbn; lia].
  - exists None. split; [reflexivity | exact I].
Qed.

Section RetryFacts.

Variable forcelist : list Z.
Variable srv : nat -> reply.


Lemma is_retry_retried total st hdrs body :
  retried forcelist (Answer st hdrs body) ->
  is_retry (S total) forcelist st hdrs = true.
Proof.
  unfold is_retry. intros [[Hin | [Hafter Hin]] _].
  - now rewrite bool_decide_eq_true_2.
  - rewrite Hafter, (bool_decide_eq_true_2 _ Hin). cbn.
    apply orb_true_r.
Qed.

(** After [k] replies that are retried the next reply is the result, when
    every counter allows [k] retries. *)
Lemma urlopen_retries k : forall total read connect n st hdrs body,
  (k <= total)%nat -> allows k read -> allows k connect ->
  (forall j, (j < k)%nat -> retried forcelist (srv (n + j))) ->
  srv (n + k) = Answer st hdrs body ->
  is_retry (total - k) forcelist st hdrs = false ->
  urlopen total read connect forcelist srv n
  = Ok ({| status_code := st; headers := hdrs; text := body |}, S (n + k)).
Proof.
  induction k as [| k IH];
    intros total read connect n st hdrs body
      Htotal Hread Hconnect Hretry Hlast Hst.
  - rewrite Nat.add_0_r in Hlast. rewrite Nat.sub_0_r in Hst.
    rewrite Nat.add_0_r.
    destruct total; cbn [urlopen]; rewrite Hlast, Hst; reflexivity.
  - destruct total as [| total]; [lia |].
    change (S total - S k)%nat with (total - k)%nat in Hst.
    replace (S (n + S k)) with (S (S n + k)) by lia.
    assert (Hnext : forall read' connect',
               allows k read' -> allows k connect' ->
               urlopen total read' connect' forcelist srv (S n)
               = Ok ({| status_code := st; headers := hdrs; text := body |},
                     S (S n + k))).
    { intros read' connect' Hread' Hconnect'.
      apply IH; try assumption; try lia.
      - intros j Hj. replace (S n + j)%nat with (n + S j)%nat by lia.
        apply Hretry. lia.
      - replace (S n + k)%nat with (n + S k)%nat by lia. assumption. }
    pose proof (Hretry 0%nat ltac:(lia)) as Hfirst.
    rewrite Nat.add_0_r in Hfirst.
    cbn [urlopen]. destruct (srv n) as [st0 hdrs0 body0 | e | e].
    + rewrite (is_retry_retried _ _ _ _ Hfirst), (proj2 Hfirst).
      apply Hnext; apply allows_weaken; assumption.
    + destruct (allows_spend _ _ Hconnect) as (c & -> & Hc).
      apply Hnext; [apply allows_weaken |]; assumption.
    + destruct (allows_spend _ _ Hread) as (r & -> & Hr).
      apply Hnext; [| apply allows_weaken]; assumption.
Qed.


(** A request takes at least one reply and at most one more than the
    retries it may make. *)
Lemma urlopen_next total : forall read connect n response n',
  urlopen total read connect forcelist srv n = Ok (response, n') ->
  (n < n' <= S (n + total))%nat.
Proof.
  induction total as [| total IH]; intros read connect n response n';
    cbn [urlopen]; destruct (srv n) as [st hdrs body | e | e];
    try discriminate.
  - destruct (is_retry _ _ _ _); [discriminate |]. intros [= _ <-]. lia.
  - destruct (is_retry _ _ _ _).
    + destruct (sleep hdrs); [| discriminate].
      intros H. apply IH in H. lia.
    + intros [= _ <-]. lia.
  - destruct (spend connect); [| discriminate].
    intros H. apply IH in H. lia.
  - destruct (spend read); [| discriminate].
    intros H. apply IH in H. lia.
Qed.

End RetryFacts.

(** ** Redirections *)

Section SendFacts.

Variable retry : Retry.
Variable srv : nat -> reply.

Let request (k : nat) : result (Response * nat) :=
  urlopen (total retry) (read retry) (connect retry)
    (status_forcelist retry) srv k.

Lemma send_raises redirects k e :
  request k = Raise e -> send redirects retry srv k = Raise e.
Proof.
  unfold request. intros H. destruct redirects; cbn [send]; now rewrite H.
Qed.

Lemma send_final redirects k response k' :
  request k = Ok (response, k') ->
  is_redirect response = false ->
  send redirects retry srv k = Ok response.
Proof.
  unfold request. intros H Hfinal.
  destruct redirects; cbn [send]; now rewrite H, Hfinal.
Qed.

Lemma send_redirect redirects k response k' :
  request k = Ok (response, k') ->
  is_redirect response = true ->
  send (S redirects) retry srv k = send redirects retry srv k'.
Proof.
  unfold request. intros H Hmoved. cbn [send]. now rewrite H, Hmoved.
Qed.


End SendFacts.

Lemma is_redirect_redirection st hdrs body :
  is_redirect {| status_code := st; headers := hdrs; text := body |} = true
  <-> redirection (Answer st hdrs body).
Proof.
  unfold is_redirect, redirection. cbn.
  now rewrite andb_true_iff, !bool_decide_eq_true.
Qed.

Lemma is_redirect_final st hdrs body :
  location hdrs = None \/ st ∉ REDIRECT_STATI ->
  is_redirect {| status_code := st; headers := hdrs; text := body |} = false.
Proof.
  intros Hfinal. apply not_true_iff_false. rewrite is_redirect_redirection.
  cbn. intros [[target Htarget] Hin]. destruct Hfinal; congruence.
Qed.

(** The adapter of [requests.get] makes one attempt. *)
Lemma urlopen_default srv k :
  urlopen 0 (Some 0%nat) None [] srv k
  = match srv k with
    | Answer st hdrs body =>
        Ok ({| status_code := st; headers := hdrs; text := body |}, S k)
    | ConnectFault e => Raise e
    | ReadFault e => Raise e
    end.
Proof.
  cbn [urlopen]. destruct (srv k) as [st hdrs body | e | e]; reflexivity.
Qed.

Lemma is_retry_final forcelist total st hdrs :
  st ∉ forcelist ->
  total = 0%nat \/ has_retry_after hdrs = false
  \/ st ∉ RETRY_AFTER_STATUS_CODES ->
  is_retry total forcelist st hdrs = false.
Proof.
  intros Hout Hfinal. unfold is_retry.
  rewrite bool_decide_eq_false_2 by assumption. cbn.
  destruct Hfinal as [-> | [-> | Hcode]]; [reflexivity | |].
  - now rewrite andb_false_r.
  - rewrite (bool_decide_eq_false_2 _ Hcode). now rewrite andb_false_r.
Qed.

(** ** The two routing modes *)

Section ModeFacts.

Variable srv : nat -> reply.

(** The session of the Tor mode: up to three retried replies, then the
    reply that decides. *)
Lemma session_get_tor k st hdrs body :
  (k <= 3)%nat ->
  (forall j, (j < k)%nat -> retried [500; 502; 503; 504] (srv j)) ->
  srv k = Answer st hdrs body ->
  st ∉ [500; 502; 503; 504] ->
  k = 3%nat \/ has_retry_after hdrs = false
  \/ st ∉ RETRY_AFTER_STATUS_CODES ->
  location hdrs = None \/ st ∉ REDIRECT_STATI ->
  session_get get_tor_session srv
  = Ok {| status_code := st; headers := hdrs; text := body |}.
Proof.
  intros Hk Hretry Hlast Hst Hafter Hfinal. unfold session_get.
  apply (send_final _ srv _ 0%nat _ (S k)); [| now apply is_redirect_final].
  apply (urlopen_retries _ srv k 3 (Some 3%nat) (Some 3%nat) 0%nat);
    cbn; auto.
  apply is_retry_final; [assumption |].
  destruct Hafter as [-> | [H | H]]; auto.
Qed.


Lemma request_default k :
  urlopen (total (max_retries default_session))
    (read (max_retries default_session))
    (connect (max_retries default_session))
    (status_forcelist (max_retries default_session)) srv k
  = match srv k with
    | Answer st hdrs body =>
        Ok ({| status_code := st; headers := hdrs; text := body |}, S k)
    | ConnectFault e => Raise e
    | ReadFault e => Raise e
    end.
Proof. exact (urlopen_default srv k). Qed.

(** The direct mode follows redirections and nothing else. *)
Lemma send_default_follows j : forall m n,
  (j <= m)%nat ->
  (forall i, (i < j)%nat -> redirection (srv (n + i))) ->
  send m (max_retries default_session) srv n
  = send (m - j) (max_retries default_session) srv (n + j).
Proof.
  induction j as [| j IH]; intros m n Hm Hmoved.
  - now rewrite Nat.sub_0_r, Nat.add_0_r.
  - destruct m as [| m]; [lia |].
    pose proof (Hmoved 0%nat ltac:(lia)) as Hfirst.
    rewrite Nat.add_0_r in Hfirst.
    destruct (srv n) as [st hdrs body | e | e] eqn:Hn; try contradiction.
    rewrite (send_redirect _ srv m n
               {| status_code := st; headers := hdrs; text := body |} (S n)).
    + rewrite (IH m (S n)); [| lia |].
      * change (S m - S j)%nat with (m - j)%nat.
        now replace (n + S j)%nat with (S n + j)%nat by lia.
      * intros i Hi. replace (S n + i)%nat with (n + S i)%nat by lia.
        apply Hmoved. lia.
    + now rewrite request_default, Hn.
    + now apply is_redirect_redirection.
Qed.

Lemma requests_get_decided j :
  (j <= 30)%nat ->
  (forall i, (i < j)%nat -> redirection (srv i)) ->
  match srv j with
  | Answer st hdrs body =>
      location hdrs = None \/ st ∉ REDIRECT_STATI ->
      requests_get srv
      = Ok {| status_code := st; headers := hdrs; text := body |}
  | ConnectFault e => requests_get srv = Raise e
  | ReadFault e => requests_get srv = Raise e
  end.
Proof.
  intros Hj Hmoved. unfold requests_get, session_get, DEFAULT_REDIRECT_LIMIT.
  rewrite (send_default_follows j 30 0 Hj Hmoved). cbn [Nat.add].
  destruct (srv j) as [st hdrs body | e | e] eqn:Hlast.
  - intros Hfinal.
    apply (send_final _ srv _ j _ (S j)); [| now apply is_redirect_final].
    now rewrite request_default, Hlast.
  - apply send_raises. now rewrite request_default, Hlast.
  - apply send_raises. now rewrite request_default, Hlast.
Qed.


End ModeFacts.

(** ** scrape_single *)

Section SingleFacts.

Variable BeautifulSoup : string -> result (list node).

(** What [scrape_single] returns for a task with both keys. *)
Lemma scrape_single_spec srv url_data link title :
  url_data !! "link" = Some link ->
  url_data !! "title" = Some title ->
  scrape_single BeautifulSoup srv url_data =
    Ok (link,
        match transport link srv with
        | Ok response =>
            if bool_decide (status_code response = 200)
            then match BeautifulSoup (text response) with
                 | Ok soup => title +:+ " - " +:+ visible_text soup
                 | Raise _ => title
                 end
            else title
        | Raise _ => title
        end).
Proof.
  intros Hlink Htitle.
  unfold scrape_single, transport, Py.getitem, visible_text.
  rewrite Hlink, Htitle.
  change (Ok link ≫= ?k) with (k link). cbv beta.
  destruct (Py.contains ".onion" link).
  - destruct (session_get get_tor_session srv) as [response | e]; cbn.
    + destruct (bool_decide (status_code response = 200)); [| reflexivity].
      destruct (BeautifulSoup (text response)) as [soup | e]; cbn;
        [reflexivity | destruct e; reflexivity].
    + destruct e; reflexivity.
  - destruct (requests_get srv) as [response | e]; cbn.
    + destruct (bool_decide (status_code response = 200)); [| reflexivity].
      destruct (BeautifulSoup (text response)) as [soup | e]; cbn;
        [reflexivity | destruct e; reflexivity].
    + destruct e; reflexivity.
Qed.

(** The text for a 200 response whose body the parser accepts. *)
Lemma scrape_single_page srv url_data link title response soup :
  url_data !! "link" = Some link ->
  url_data !! "title" = Some title ->
  transport link srv = Ok response ->
  status_code response = 200 ->
  BeautifulSoup (text response) = Ok soup ->
  scrape_single BeautifulSoup srv url_data
  = Ok (link, title +:+ " - " +:+ visible_text soup).
Proof.
  intros Hlink Htitle Hget Hok Hsoup.
  rewrite (scrape_single_spec _ _ _ _ Hlink Htitle), Hget.
  rewrite bool_decide_eq_true_2 by assumption. now rewrite Hsoup.
Qed.

(** The text for a 200 response whose body the parser rejects. *)
Lemma scrape_single_rejected srv url_data link title :
  url_data !! "link" = Some link ->
  url_data !! "title" = Some title ->
  page_rejected BeautifulSoup link srv ->
  scrape_single BeautifulSoup srv url_data = Ok (link, title).
Proof.
  intros Hlink Htitle (response & Hget & Hok & e & Hraise).
  rewrite (scrape_single_spec _ _ _ _ Hlink Htitle), Hget.
  rewrite bool_decide_eq_true_2 by assumption. now rewrite Hraise.
Qed.

Lemma scrape_single_failed srv url_data link title :
  url_data !! "link" = Some link ->
  url_data !! "title" = Some title ->
  fetch_failed link srv ->
  scrape_single BeautifulSoup srv url_data = Ok (link, title).
Proof.
  intros Hlink Htitle Hfail.
  rewrite (scrape_single_spec _ _ _ _ Hlink Htitle).
  unfold fetch_failed in Hfail.
  destruct (transport link srv) as [response | e]; [| reflexivity].
  rewrite bool_decide_eq_false_2 by assumption. reflexivity.
Qed.

Lemma scrape_single_returns srv url_data :
  well_formed url_data ->
  exists text,
    scrape_single BeautifulSoup srv url_data
    = Ok (Py.get url_data "link" "unknown", text).
Proof.
  intros [[link Hlink] [title Htitle]].
  rewrite (scrape_single_spec _ _ _ _ Hlink Htitle).
  unfold Py.get. rewrite Hlink. cbn. eauto.
Qed.

(** The first component of the result is the link of the task. *)
Lemma scrape_single_url srv url_data url text :
  scrape_single BeautifulSoup srv url_data = Ok (url, text) ->
  url_data !! "link" = Some url.
Proof.
  unfold scrape_single, Py.getitem.
  destruct (url_data !! "link") as [link |]; [| discriminate].
  change (Ok link ≫= ?k) with (k link). cbv beta.
  match goal with
  | |- context [try_except ?body ?handler] =>
      destruct (try_except body handler) as [scraped |]
  end; cbn; congruence.
Qed.

End SingleFacts.

(** ** The loop of scrape_multiple *)

Ltac case_if :=
  match goal with
  | |- context [if ?b then _ else _] => destruct b eqn:?; cbn
  end.

Ltac case_verdict :=
  match goal with
  | |- context [match ?f ?seen ?ev with
                | Returns => _
                | RaisesException => _
                | RaisesBaseException => _
                end] => destruct (f seen ev) eqn:?; cbn
  end.

Section LoopFacts.

Variable total_urls : nat.

(** Whatever the callback does, one turn of the loop records the
    result of its future, if it has one. *)
Lemma handle_future_results progress_callback fut st o st' :
  handle_future total_urls progress_callback fut st = (o, st') ->
  results st' = record_result (results st) fut.
Proof.
  destruct fut as [url_data [[result_url content] | e]];
    unfold handle_future, on_exception, unguarded, notify, record_result;
    cbn.
  - destruct progress_callback as [f |]; cbn; repeat case_if;
      repeat case_verdict; intros [= <- <-]; reflexivity.
  - destruct progress_callback as [f |]; cbn; repeat case_verdict;
      intros [= <- <-]; reflexivity.
Qed.

Lemma drain_results progress_callback futures st st' :
  drain total_urls progress_callback futures st = (None, st') ->
  results st' = results_after futures (results st).
Proof.
  revert st. induction futures as [| fut rest IH]; intros st; cbn.
  - intros [= <-]. reflexivity.
  - destruct (handle_future total_urls progress_callback fut st)
      as [[e |] st1] eqn:Hfut; [discriminate |].
    intros Hrest. rewrite (IH _ Hrest).
    rewrite (handle_future_results _ _ _ _ _ Hfut). reflexivity.
Qed.

Lemma handle_future_never_raises progress_callback fut st :
  never_raises progress_callback ->
  exists st',
    handle_future total_urls progress_callback fut st = (None, st')
    /\ completed st' = S (completed st)
    /\ calls st'
       = calls st ++ loop_calls total_urls progress_callback (completed st) [fut].
Proof.
  intros Hquiet.
  destruct fut as [url_data [[result_url content] | e]];
    unfold handle_future, on_exception, unguarded, notify, loop_calls,
      task_event, classify; cbn.
  - destruct progress_callback as [f |]; cbn; case_if;
      rewrite ?Hquiet; eexists; (split; [reflexivity |]); cbn;
      rewrite ?Nat.add_1_r, ?app_nil_r; auto.
  - destruct progress_callback as [f |]; cbn;
      rewrite ?Hquiet; eexists; (split; [reflexivity |]); cbn;
      rewrite ?Nat.add_1_r, ?app_nil_r; auto.
Qed.

Lemma loop_calls_cons progress_callback start fut rest :
  loop_calls total_urls progress_callback start (fut :: rest)
  = loop_calls total_urls progress_callback start [fut]
    ++ loop_calls total_urls progress_callback (S start) rest.
Proof.
  destruct progress_callback as [f |]; cbn; [| reflexivity].
  f_equal. apply imap_ext. intros k fut' _. cbn.
  f_equal. lia.
Qed.

(** With a callback that does not raise the loop runs to its end. *)
Lemma drain_never_raises progress_callback futures st :
  never_raises progress_callback ->
  exists st',
    drain total_urls progress_callback futures st = (None, st')
    /\ completed st' = (completed st + length futures)%nat
    /\ results st' = results_after futures (results st)
    /\ calls st'
       = calls st ++ loop_calls total_urls progress_callback (completed st) futures.
Proof.
  intros Hquiet. revert st.
  induction futures as [| fut rest IH]; intros st.
  - exists st. cbn. repeat split; try lia.
    destruct progress_callback; cbn; now rewrite app_nil_r.
  - destruct (handle_future_never_raises _ fut st Hquiet)
      as (st1 & Hfut & Hdone & Hcalls).
    destruct (IH st1) as (st2 & Hrest & Hdone2 & Hres2 & Hcalls2).
    exists st2. cbn [drain]. rewrite Hfut. split; [exact Hrest |].
    split; [cbn [length]; lia |].
    split.
    + rewrite Hres2. rewrite (handle_future_results _ _ _ _ _ Hfut).
      reflexivity.
    + rewrite Hcalls2, Hcalls, Hdone.
      rewrite (loop_calls_cons _ (completed st) fut rest), app_assoc.
      reflexivity.
Qed.

End LoopFacts.

(** ** Completion order *)

Lemma as_completed_in_order_aux (done rest : list future) :
  omap (fun i => (done ++ rest) !! i) (seq (length done) (length rest)) = rest.
Proof.
  revert done. induction rest as [| fut rest IH]; intros done; [reflexivity |].
  cbn [length seq omap list_omap].
  rewrite list_lookup_middle by reflexivity.
  f_equal.
  specialize (IH (done ++ [fut])).
  rewrite <- app_assoc, length_app in IH. cbn in IH.
  rewrite Nat.add_1_r in IH. exact IH.
Qed.

Lemma as_completed_in_order (futures : list future) :
  as_completed (seq 0 (length futures)) futures = futures.
Proof. exact (as_completed_in_order_aux [] futures). Qed.

(** Every future is yielded once. *)
Lemma as_completed_Permutation order (futures : list future) :
  order ≡ₚ seq 0 (length futures) ->
  as_completed order futures ≡ₚ futures.
Proof.
  intros Hperm. rewrite <- (as_completed_in_order futures) at 2.
  unfold as_completed. now rewrite Hperm.
Qed.

(** The [k]-th future yielded is the one at the [k]-th position of the
    order. *)
Lemma as_completed_Forall2 order (futures : list future) :
  order ≡ₚ seq 0 (length futures) ->
  Forall2 (fun i fut => futures !! i = Some fut)
          order (as_completed order futures).
Proof.
  intros Hperm.
  assert (Hbound : Forall (fun i => (i < length futures)%nat) order).
  { rewrite Hperm. apply Forall_forall. intros i Hi.
    apply elem_of_seq in Hi. lia. }
  clear Hperm. induction Hbound as [| i order Hi _ IH]; [constructor |].
  unfold as_completed. cbn.
  destruct (lookup_lt_is_Some_2 futures i Hi) as [fut Hfut].
  rewrite Hfut. constructor; assumption.
Qed.

Section BatchFacts.

Variable BeautifulSoup : string -> result (list node).

Lemma length_submit_all env urls_data :
  length (submit_all BeautifulSoup env urls_data) = length urls_data.
Proof. apply length_imap. Qed.

Lemma lookup_submit_all env urls_data i :
  submit_all BeautifulSoup env urls_data !! i
  = (fun url_data =>
       (url_data, scrape_single BeautifulSoup (server env i) url_data))
    <$> urls_data !! i.
Proof. apply list_lookup_imap. Qed.

Lemma completed_futures_Permutation env urls_data :
  well_scheduled env urls_data ->
  completed_futures BeautifulSoup env urls_data
  ≡ₚ submit_all BeautifulSoup env urls_data.
Proof.
  intros Hsched. apply as_completed_Permutation.
  now rewrite length_submit_all.
Qed.

Lemma length_completed_futures env urls_data :
  well_scheduled env urls_data ->
  length (completed_futures BeautifulSoup env urls_data) = length urls_data.
Proof.
  intros Hsched.
  rewrite (Permutation_length (completed_futures_Permutation _ _ Hsched)).
  apply length_submit_all.
Qed.

(** The future yielded at step [k] belongs to the task at position
    [completion env !! k]. *)
Lemma lookup_completed_futures env urls_data k fut :
  well_scheduled env urls_data ->
  completed_futures BeautifulSoup env urls_data !! k = Some fut ->
  exists i url_data,
    completion env !! k = Some i
    /\ urls_data !! i = Some url_data
    /\ fut = (url_data,
              scrape_single BeautifulSoup (server env i) url_data).
Proof.
  intros Hsched Hk.
  assert (H2 := as_completed_Forall2 (completion env)
                  (submit_all BeautifulSoup env urls_data)).
  rewrite length_submit_all in H2. specialize (H2 Hsched).
  destruct (Forall2_lookup_r _ _ _ _ _ H2 Hk) as (i & Hi & Hfut).
  rewrite lookup_submit_all in Hfut.
  destruct (urls_data !! i) as [url_data |] eqn:Hd; [| discriminate].
  injection Hfut as <-. eauto.
Qed.

Lemma preflight_initial env urls_data progress_callback :
  let st := snd (preflight env urls_data progress_callback) in
  results st = ∅ /\ completed st = 0%nat.
Proof.
  unfold preflight, unguarded, notify.
  destruct progress_callback as [f |]; cbn;
    repeat (case_if || case_verdict); auto.
Qed.

Lemma preflight_never_raises env urls_data progress_callback :
  never_raises progress_callback ->
  fst (preflight env urls_data progress_callback) = None.
Proof.
  intros Hquiet. unfold preflight, unguarded, notify.
  destruct progress_callback as [f |]; cbn in *;
    repeat case_if; rewrite ?Hquiet in *; cbn; rewrite ?Hquiet; cbn;
    congruence.
Qed.

(** The mapping [scrape_multiple] returns, when it returns. *)
Lemma scrape_multiple_returned env urls_data max_workers cb r :
  fst (scrape_multiple BeautifulSoup env urls_data max_workers cb) = Ok r ->
  r = results_after (completed_futures BeautifulSoup env urls_data) ∅.
Proof.
  unfold scrape_multiple.
  destruct (preflight_initial env urls_data cb) as [Hres _].
  destruct (preflight env urls_data cb) as [[e |] st0]; [discriminate |].
  cbn in Hres.
  destruct (bool_decide (max_workers <= 0)); [discriminate |].
  fold (completed_futures BeautifulSoup env urls_data).
  destruct (drain _ _ _ _) as [[e |] st1] eqn:Hdrain; [discriminate |].
  cbn. intros [= <-].
  rewrite (drain_results _ _ _ _ _ Hdrain), Hres. reflexivity.
Qed.

(** A run whose callback does not raise. *)
Lemma scrape_multiple_never_raises env urls_data max_workers cb :
  never_raises cb ->
  0 < max_workers ->
  scrape_multiple BeautifulSoup env urls_data max_workers cb
  = (Ok (results_after (completed_futures BeautifulSoup env urls_data) ∅),
     calls (snd (preflight env urls_data cb))
     ++ loop_calls (length urls_data) cb 0
          (completed_futures BeautifulSoup env urls_data)).
Proof.
  intros Hquiet Hworkers. unfold scrape_multiple.
  destruct (preflight_initial env urls_data cb) as [Hres Hdone].
  pose proof (preflight_never_raises env urls_data cb Hquiet) as Hpre.
  destruct (preflight env urls_data cb) as [o st0]. cbn in *. subst o.
  rewrite bool_decide_eq_false_2 by lia.
  fold (completed_futures BeautifulSoup env urls_data).
  destruct (drain_never_raises (length urls_data) cb
              (completed_futures BeautifulSoup env urls_data) st0 Hquiet)
    as (st1 & -> & _ & Hres1 & Hcalls1).
  rewrite Hres1, Hcalls1, Hres, Hdone. reflexivity.
Qed.

End BatchFacts.

(** ** The mapping that the loop builds *)

Lemma results_after_snoc futures fut (m : gmap string string) :
  results_after (futures ++ [fut]) m
  = record_result (results_after futures m) fut.
Proof. unfold results_after. now rewrite foldl_app. Qed.

Lemma dom_record_result (m : gmap string string) fut :
  dom (record_result m fut)
  = dom m ∪ list_to_set (option_list (future_url fut)).
Proof.
  unfold record_result, future_url.
  destruct (snd fut) as [[url content] | e]; cbn.
  - rewrite dom_insert_L. set_solver.
  - set_solver.
Qed.

Lemma dom_results_after futures (m : gmap string string) :
  dom (results_after futures m)
  = dom m ∪ list_to_set (omap future_url futures).
Proof.
  induction futures as [| fut futures IH] using rev_ind.
  - cbn. set_solver.
  - rewrite results_after_snoc, dom_record_result, IH, omap_app.
    cbn. destruct (future_url fut); cbn; set_solver.
Qed.

(** A key that no later future is recorded under keeps its entry. *)
Lemma results_after_untouched futures (m : gmap string string) url :
  url ∉ omap future_url futures ->
  results_after futures m !! url = m !! url.
Proof.
  revert m. induction futures as [| fut futures IH]; intros m Hnot;
    [reflexivity |].
  cbn in Hnot. cbn.
  unfold results_after in IH. rewrite IH.
  - unfold record_result. unfold future_url in Hnot.
    destruct (snd fut) as [[u content] | e]; [| reflexivity].
    apply lookup_insert_ne. set_solver.
  - destruct (future_url fut); set_solver.
Qed.

(** The entry of a key is written by the last future recorded under it. *)
Lemma results_after_last before fut after (m : gmap string string)
    url content :
  snd fut = Ok (url, content) ->
  url ∉ omap future_url after ->
  results_after (before ++ fut :: after) m !! url = Some (truncate content).
Proof.
  intros Hfut Hafter. unfold results_after.
  rewrite foldl_app. cbn [foldl].
  fold (results_after after (record_result (foldl record_result m before) fut)).
  rewrite (results_after_untouched _ _ _ Hafter).
  unfold record_result. rewrite Hfut. apply lookup_insert_eq.
Qed.

(** Every entry was written by one of the futures. *)
Lemma results_after_origin futures (m : gmap string string) url v :
  results_after futures m !! url = Some v ->
  m !! url = Some v
  \/ exists fut content,
       fut ∈ futures /\ snd fut = Ok (url, content) /\ v = truncate content.
Proof.
  induction futures as [| fut futures IH] using rev_ind; [auto |].
  rewrite results_after_snoc. unfold record_result at 1.
  destruct (snd fut) as [[u content] | e] eqn:Hfut.
  - destruct (decide (u = url)) as [-> | Hne].
    + rewrite lookup_insert_eq. intros [= <-]. right.
      exists fut, content. set_solver.
    + rewrite lookup_insert_ne by assumption. intros Hv.
      destruct (IH Hv) as [| (fut' & c' & Hin & Hsnd & Hc)]; [auto |].
      right. exists fut', c'. set_solver.
  - intros Hv.
    destruct (IH Hv) as [| (fut' & c' & Hin & Hsnd & Hc)]; [auto |].
    right. exists fut', c'. set_solver.
Qed.

Section Entries.

Variable BeautifulSoup : string -> result (list node).

(** The futures of well-formed tasks are recorded under their links. *)
Lemma future_urls_well_formed env urls_data :
  Forall well_formed urls_data ->
  omap future_url (submit_all BeautifulSoup env urls_data)
  = links urls_data.
Proof.
  intros Hwf. unfold submit_all, links.
  generalize (server env). intros srv. revert srv.
  induction Hwf as [| url_data urls_data Hd _ IH]; intros srv;
    [reflexivity |].
  rewrite imap_cons. cbn [omap list_omap].
  destruct (scrape_single_returns BeautifulSoup (srv 0%nat) url_data Hd)
    as [text Hret].
  destruct Hd as [[link Hlink] _].
  unfold future_url at 1. cbn [snd]. rewrite Hret.
  unfold Py.get. rewrite Hlink. cbn.
  f_equal. apply (IH (fun i => srv (S i))).
Qed.

Lemma dom_results_well_formed env urls_data :
  Forall well_formed urls_data ->
  well_scheduled env urls_data ->
  dom (results_after (completed_futures BeautifulSoup env urls_data) ∅)
  = list_to_set (links urls_data).
Proof.
  intros Hwf Hsched.
  rewrite dom_results_after, dom_empty_L, (left_id_L ∅ (∪)).
  rewrite <- (future_urls_well_formed env urls_data Hwf).
  apply leibniz_equiv.
  now rewrite (completed_futures_Permutation _ _ _ Hsched).
Qed.

(** The entry of a link is written by the last task completed with that
    link. *)
Lemma results_last_completed env urls_data before i after url_data link text :
  completion env = before ++ i :: after ->
  urls_data !! i = Some url_data ->
  scrape_single BeautifulSoup (server env i) url_data = Ok (link, text) ->
  (forall j other,
     j ∈ after -> urls_data !! j = Some other ->
     other !! "link" <> Some link) ->
  results_after (completed_futures BeautifulSoup env urls_data) ∅ !! link
  = Some (truncate text).
Proof.
  intros Horder Hi Hret Hafter.
  unfold completed_futures, as_completed. rewrite Horder, omap_app.
  cbn [omap list_omap]. rewrite lookup_submit_all, Hi. cbn [fmap option_fmap option_map].
  apply results_after_last; [exact Hret |].
  intros Hin. apply list_elem_of_omap in Hin.
  destruct Hin as (fut & Hfut & Hurl).
  apply list_elem_of_omap in Hfut. destruct Hfut as (j & Hj & Hlook).
  rewrite lookup_submit_all in Hlook.
  destruct (urls_data !! j) as [other |] eqn:Hother; [| discriminate].
  injection Hlook as <-.
  unfold future_url in Hurl. cbn [snd] in Hurl.
  destruct (scrape_single BeautifulSoup (server env j) other)
    as [[u c] |] eqn:Hs; [| discriminate].
  injection Hurl as ->.
  apply scrape_single_url in Hs.
  exact (Hafter j other Hj Hother Hs).
Qed.

End Entries.

(** ** Invocations of the callback *)

Lemma classify_cases fut :
  classify fut = "success" \/ classify fut = "failed"
  \/ classify fut = "error".
Proof.
  unfold classify. destruct (snd fut) as [[url content] | e]; [| auto].
  case_if; auto.
Qed.

Section CallFacts.

Variable BeautifulSoup : string -> result (list node).

Lemma task_calls_never_raises env urls_data max_workers cb :
  never_raises cb ->
  0 < max_workers ->
  task_calls BeautifulSoup env urls_data max_workers cb
  = loop_calls (length urls_data) cb 0
      (completed_futures BeautifulSoup env urls_data).
Proof.
  intros Hquiet Hworkers. unfold task_calls, preflight_calls.
  rewrite (scrape_multiple_never_raises _ _ _ _ _ Hquiet Hworkers). cbn [snd].
  now rewrite drop_app_length.
Qed.

(** The [k]-th invocation from the loop, for a callback that is there and
    does not raise. *)
Lemma lookup_task_calls env urls_data max_workers f k ev :
  quiet f ->
  0 < max_workers ->
  well_scheduled env urls_data ->
  task_calls BeautifulSoup env urls_data max_workers (Some f) !! k = Some ev ->
  exists i url_data,
    completion env !! k = Some i
    /\ urls_data !! i = Some url_data
    /\ ev = task_event (length urls_data) (S k)
              (url_data,
               scrape_single BeautifulSoup (server env i) url_data).
Proof.
  intros Hquiet Hworkers Hsched.
  rewrite (task_calls_never_raises _ _ _ (Some f) Hquiet Hworkers).
  unfold loop_calls. rewrite list_lookup_imap.
  destruct (completed_futures BeautifulSoup env urls_data !! k)
    as [fut |] eqn:Hfut; [| discriminate].
  cbn. intros [= <-].
  destruct (lookup_completed_futures _ _ _ _ _ Hsched Hfut)
    as (i & url_data & Hi & Hd & ->).
  eauto.
Qed.

Lemma length_task_calls env urls_data max_workers f :
  quiet f ->
  0 < max_workers ->
  well_scheduled env urls_data ->
  length (task_calls BeautifulSoup env urls_data max_workers (Some f))
  = length urls_data.
Proof.
  intros Hquiet Hworkers Hsched.
  rewrite (task_calls_never_raises _ _ _ (Some f) Hquiet Hworkers).
  unfold loop_calls. rewrite length_imap.
  now apply length_completed_futures.
Qed.

Lemma scrape_multiple_calls env urls_data max_workers cb :
  never_raises cb ->
  0 < max_workers ->
  snd (scrape_multiple BeautifulSoup env urls_data max_workers cb)
  = preflight_calls env urls_data cb
    ++ task_calls BeautifulSoup env urls_data max_workers cb.
Proof.
  intros Hquiet Hworkers.
  rewrite (task_calls_never_raises _ _ _ _ Hquiet Hworkers).
  now rewrite (scrape_multiple_never_raises _ _ _ _ _ Hquiet Hworkers).
Qed.

End CallFacts.

(** ** Callbacks that raise *)

Section RaisingCallbacks.

Variable BeautifulSoup : string -> result (list node).

Lemma handle_future_lenient total_urls f fut st :
  lenient f ->
  raises_exceptions_only f ->
  exists st', handle_future total_urls (Some f) fut st = (None, st').
Proof.
  intros Hlenient Honly.
  destruct fut as [url_data [[result_url content] | e]];
    unfold handle_future, on_exception, unguarded, notify; cbn.
  - case_if; case_verdict; rewrite ?Hlenient by (cbn; auto); eauto;
      exfalso; eapply Honly; eassumption.
  - rewrite Hlenient by (cbn; auto). eauto.
Qed.

Lemma drain_lenient total_urls f futures st :
  lenient f ->
  raises_exceptions_only f ->
  exists st', drain total_urls (Some f) futures st = (None, st').
Proof.
  intros Hlenient Honly. revert st.
  induction futures as [| fut rest IH]; intros st; cbn [drain]; [eauto |].
  destruct (handle_future_lenient total_urls f fut st Hlenient Honly)
    as [st1 ->].
  apply IH.
Qed.

Lemma preflight_lenient env urls_data f :
  lenient f ->
  fst (preflight env urls_data (Some f)) = None.
Proof.
  intros Hlenient. unfold preflight, unguarded, notify. cbn.
  repeat (case_if; rewrite ?Hlenient by (cbn; auto); cbn);
    rewrite ?Hlenient by (cbn; auto); reflexivity.
Qed.

Lemma scrape_multiple_lenient env urls_data max_workers f :
  lenient f ->
  raises_exceptions_only f ->
  0 < max_workers ->
  fst (scrape_multiple BeautifulSoup env urls_data max_workers (Some f))
  = Ok (results_after (completed_futures BeautifulSoup env urls_data) ∅).
Proof.
  intros Hlenient Honly Hworkers. unfold scrape_multiple.
  destruct (preflight_initial env urls_data (Some f)) as [Hres _].
  pose proof (preflight_lenient env urls_data f Hlenient) as Hpre.
  destruct (preflight env urls_data (Some f)) as [o st0]. cbn in *. subst o.
  rewrite bool_decide_eq_false_2 by lia.
  fold (completed_futures BeautifulSoup env urls_data).
  destruct (drain_lenient (length urls_data) f
              (completed_futures BeautifulSoup env urls_data) st0
              Hlenient Honly)
    as [st1 Hdrain].
  rewrite Hdrain. cbn.
  now rewrite (drain_results _ _ _ _ _ Hdrain), Hres.
Qed.

Lemma handle_future_always_raises total_urls f fut st :
  always_raises f ->
  exists st',
    handle_future total_urls (Some f) fut st = (Some CallbackError, st').
Proof.
  intros Hraises.
  destruct fut as [url_data [[result_url content] | e]];
    unfold handle_future, on_exception, unguarded, notify; cbn.
  - case_if; case_verdict; try (exfalso; eapply Hraises; eassumption);
      eauto; case_verdict; try (exfalso; eapply Hraises; eassumption);
      eauto.
  - case_verdict; try (exfalso; eapply Hraises; eassumption); eauto.
Qed.

(** An exception of the callback that does not derive from [Exception]
    passes the handler of the loop. *)
Lemma handle_future_interrupted total_urls f url_data result_url content st :
  (forall seen ev,
     ev_status ev = "success" \/ ev_status ev = "failed" ->
     f seen ev = RaisesBaseException) ->
  exists st',
    handle_future total_urls (Some f) (url_data, Ok (result_url, content)) st
    = (Some CallbackError, st').
Proof.
  intros Hstops. unfold handle_future, notify; cbn.
  case_if; rewrite Hstops by (cbn; auto); eauto.
Qed.

Lemma scrape_multiple_always_raises env urls_data max_workers f :
  always_raises f ->
  urls_data <> [] ->
  well_scheduled env urls_data ->
  raises (fst (scrape_multiple BeautifulSoup env urls_data max_workers
                 (Some f))).
Proof.
  intros Hraises Hnonempty Hsched. unfold scrape_multiple, raises.
  destruct (preflight env urls_data (Some f)) as [[e |] st0]; [cbn; eauto |].
  case_if; [eauto |].
  fold (completed_futures BeautifulSoup env urls_data).
  pose proof (length_completed_futures BeautifulSoup env urls_data Hsched)
    as Hlen.
  destruct (completed_futures BeautifulSoup env urls_data) as [| fut rest].
  - destruct urls_data; [contradiction | discriminate].
  - cbn [drain].
    destruct (handle_future_always_raises (length urls_data) f fut st0 Hraises)
      as [st1 ->].
    cbn. eauto.
Qed.

Lemma scrape_multiple_interrupted env urls_data max_workers f :
  (forall seen ev,
     ev_status ev = "success" \/ ev_status ev = "failed" ->
     f seen ev = RaisesBaseException) ->
  Forall well_formed urls_data ->
  urls_data <> [] ->
  well_scheduled env urls_data ->
  raises (fst (scrape_multiple BeautifulSoup env urls_data max_workers
                 (Some f))).
Proof.
  intros Hstops Hwf Hnonempty Hsched. unfold scrape_multiple, raises.
  destruct (preflight env urls_data (Some f)) as [[e |] st0]; [cbn; eauto |].
  case_if; [eauto |].
  fold (completed_futures BeautifulSoup env urls_data).
  pose proof (length_completed_futures BeautifulSoup env urls_data Hsched)
    as Hlen.
  destruct (completed_futures BeautifulSoup env urls_data)
    as [| fut rest] eqn:Hfuts.
  - destruct urls_data; [contradiction | discriminate].
  - assert (Hfirst : completed_futures BeautifulSoup env urls_data !! 0%nat
                     = Some fut) by now rewrite Hfuts.
    destruct (lookup_completed_futures BeautifulSoup _ _ _ _ Hsched Hfirst)
      as (i & url_data & _ & Hi & ->).
    pose proof (proj1 (Forall_lookup _ _) Hwf i url_data Hi) as Hgood.
    destruct (scrape_single_returns BeautifulSoup (server env i) url_data
                Hgood) as [text ->].
    cbn [drain].
    destruct (handle_future_interrupted (length urls_data) f url_data
                (Py.get url_data "link" "unknown") text st0 Hstops)
      as [st1 ->].
    cbn. eauto.
Qed.

End RaisingCallbacks.

Lemma has_onion_detected urls_data :
  has_onion urls_data ->
  existsb (fun url_data => Py.contains ".onion" (Py.get url_data "link" ""))
    urls_data = true.
Proof.
  intros (url_data & link & Hin & Hlink & Honion).
  apply existsb_exists. exists url_data. split.
  - now apply list_elem_of_In.
  - unfold Py.get. now rewrite Hlink.
Qed.

(** The invocations before the fetches when the Tor check fails. *)
Lemma preflight_calls_tor_down env urls_data f :
  quiet f ->
  has_onion urls_data ->
  check_tor_connection (probe env) = false ->
  preflight_calls env urls_data (Some f)
  = [ {| ev_label := "Checking Tor connection..."; ev_status := "checking";
         ev_current := 0; ev_total := length urls_data |};
      {| ev_label := "Tor NOT running!"; ev_status := "error";
         ev_current := 0; ev_total := length urls_data |} ].
Proof.
  intros Hquiet Honion Hdown.
  unfold preflight_calls, preflight, unguarded, notify.
  rewrite (has_onion_detected _ Honion). cbn.
  rewrite Hquiet, Hdown. cbn. rewrite ?Hquiet. reflexivity.
Qed.

(** The invocations before the fetches, with a callback that does not
    raise. *)
Lemma preflight_calls_quiet env urls_data f :
  quiet f ->
  preflight_calls env urls_data (Some f)
  = if existsb (fun url_data =>
                  Py.contains ".onion" (Py.get url_data "link" ""))
               urls_data
    then {| ev_label := "Checking Tor connection...";
            ev_status := "checking";
            ev_current := 0; ev_total := length urls_data |}
         :: (if check_tor_connection (probe env) then []
             else [ {| ev_label := "Tor NOT running!";
                       ev_status := "error";
                       ev_current := 0;
                       ev_total := length urls_data |} ])
    else [].
Proof.
  intros Hquiet. unfold preflight_calls, preflight, unguarded, notify.
  destruct (existsb _ urls_data); [| reflexivity].
  cbn. rewrite Hquiet. cbn.
  destruct (check_tor_connection (probe env)); cbn; rewrite ?Hquiet;
    reflexivity.
Qed.

Section StepFacts.

Variable BeautifulSoup : string -> result (list node).

(** The invocation for the task completed at a given place of the order. *)
Lemma task_call_at env urls_data max_workers f before i after url_data :
  quiet f ->
  0 < max_workers ->
  well_scheduled env urls_data ->
  completion env = before ++ i :: after ->
  urls_data !! i = Some url_data ->
  task_calls BeautifulSoup env urls_data max_workers (Some f)
    !! length before
  = Some (task_event (length urls_data) (S (length before))
            (url_data,
             scrape_single BeautifulSoup (server env i) url_data)).
Proof.
  intros Hquiet Hworkers Hsched Horder Hi.
  rewrite (task_calls_never_raises _ _ _ _ (Some f) Hquiet Hworkers).
  unfold loop_calls. rewrite list_lookup_imap.
  assert (H2 := as_completed_Forall2 (completion env)
                  (submit_all BeautifulSoup env urls_data)).
  rewrite length_submit_all in H2. specialize (H2 Hsched).
  assert (Hk : completion env !! length before = Some i).
  { rewrite Horder. now apply list_lookup_middle. }
  destruct (Forall2_lookup_l _ _ _ _ _ H2 Hk) as (fut & Hfut & Hsub).
  unfold completed_futures. rewrite Hfut. cbn.
  rewrite lookup_submit_all, Hi in Hsub. injection Hsub as <-.
  reflexivity.
Qed.

End StepFacts.

(** * The claims *)

Section Claims.

Variable BeautifulSoup : string -> result (list node).

(** C1, as the code has it.  For a batch of well-formed tasks the mapping
    that [scrape_multiple] returns has exactly the distinct links of the
    input as its keys, so its size is the number of distinct links, and
    every task finds an entry under its link.  The entry of a link
    belongs to the task completed last among those that share it: when
    the fetch of that task failed the entry is its title, if the title
    has at most 2000 characters, and the first 2000 characters of the
    title followed by the marker otherwise.  When every fetch fails,
    every entry is such a title or cut title of a task with that link.
    With a positive worker count and a callback that does not raise the
    mapping is returned. *)
Theorem scrape_multiple_one_entry_per_link env urls_data max_workers cb :
  Forall well_formed urls_data ->
  well_scheduled env urls_data ->
  (forall r,
     fst (scrape_multiple BeautifulSoup env urls_data max_workers cb) = Ok r ->
     dom r = list_to_set (links urls_data)
     /\ size r = length (remove_dups (links urls_data))
     /\ (forall url_data link,
           url_data ∈ urls_data -> url_data !! "link" = Some link ->
           is_Some (r !! link))
     /\ (forall before i after url_data link title,
           completion env = before ++ i :: after ->
           urls_data !! i = Some url_data ->
           url_data !! "link" = Some link ->
           url_data !! "title" = Some title ->
           fetch_failed link (server env i) ->
           (forall j other,
              j ∈ after -> urls_data !! j = Some other ->
              other !! "link" <> Some link) ->
           ((Py.len title <= 2000)%nat -> r !! link = Some title)
           /\ ((2000 < Py.len title)%nat ->
               r !! link
               = Some (Py.take 2000 title +:+ "...(truncated)")))
     /\ (all_failed env urls_data ->
         forall url v,
           r !! url = Some v ->
           exists url_data title,
             url_data ∈ urls_data
             /\ url_data !! "link" = Some url
             /\ url_data !! "title" = Some title
             /\ ((Py.len title <= 2000)%nat -> v = title)
             /\ ((2000 < Py.len title)%nat ->
                 v = Py.take 2000 title +:+ "...(truncated)")))
  /\ (0 < max_workers -> never_raises cb ->
      returns (fst (scrape_multiple BeautifulSoup env urls_data
                      max_workers cb))).
Proof.
  intros Hwf Hsched. split.
  - intros r Hr.
    apply scrape_multiple_returned in Hr. subst r.
    pose proof (dom_results_well_formed BeautifulSoup env urls_data
                  Hwf Hsched) as Hdom.
    split; [exact Hdom |]. split; [| split; [| split]].
    + rewrite <- size_dom, Hdom.
      rewrite <- (size_list_to_set (C := gset string)
                    (remove_dups (links urls_data)))
        by apply NoDup_remove_dups.
      f_equal. apply set_eq. intros x.
      now rewrite !elem_of_list_to_set, elem_of_remove_dups.
    + intros url_data link Hin Hlink.
      apply elem_of_dom. rewrite Hdom, elem_of_list_to_set.
      unfold links. apply list_elem_of_omap. eauto.
    + intros before i after url_data link title
        Horder Hi Hlink Htitle Hfail Hafter.
      pose proof (scrape_single_failed BeautifulSoup _ _ _ _
                    Hlink Htitle Hfail) as Hret.
      rewrite (results_last_completed BeautifulSoup env urls_data before i
                 after url_data link title Horder Hi Hret Hafter).
      destruct (truncate_cases title) as [Hshort Hlong].
      split; intros Hlen; f_equal; auto.
    + intros Hfail url v Hv.
      apply results_after_origin in Hv.
      destruct Hv as [Hv | (fut & content & Hin & Hsnd & ->)];
        [rewrite lookup_empty in Hv; discriminate |].
      rewrite (completed_futures_Permutation _ _ _ Hsched) in Hin.
      apply elem_of_lookup_imap in Hin.
      destruct Hin as (i & url_data & -> & Hi).
      pose proof (proj1 (Forall_lookup _ _) Hwf i url_data Hi)
        as [[link Hlink] [title Htitle]].
      cbn in Hsnd.
      rewrite (scrape_single_failed _ _ _ _ _ Hlink Htitle
                 (Hfail i url_data link Hi Hlink)) in Hsnd.
      injection Hsnd as <- <-.
      exists url_data, title.
      destruct (truncate_cases title) as [Hshort Hlong].
      repeat split; try assumption.
      apply list_elem_of_lookup. eauto.
  - intros Hworkers Hquiet. unfold returns.
    rewrite (scrape_multiple_never_raises _ _ _ _ _ Hquiet Hworkers).
    cbn. eauto.
Qed.

(** C2, as the code has it.  [scrape_single] returns for every well-formed
    task; when the request raises or ends with a status other than 200,
    the text it returns is the title.  The batch then stores under the
    link what the loop makes of the title, the title itself when it has
    at most 2000 characters, provided no task with the same link is
    completed later. *)
Theorem failed_fetch_falls_back_to_title :
  (forall srv url_data,
     well_formed url_data ->
     returns (scrape_single BeautifulSoup srv url_data))
  /\ (forall srv url_data link title,
        url_data !! "link" = Some link ->
        url_data !! "title" = Some title ->
        fetch_failed link srv ->
        scrape_single BeautifulSoup srv url_data = Ok (link, title))
  /\ (forall env urls_data max_workers cb r before i after
             url_data link title,
        fst (scrape_multiple BeautifulSoup env urls_data max_workers cb)
        = Ok r ->
        completion env = before ++ i :: after ->
        urls_data !! i = Some url_data ->
        url_data !! "link" = Some link ->
        url_data !! "title" = Some title ->
        fetch_failed link (server env i) ->
        (forall j other,
           j ∈ after -> urls_data !! j = Some other ->
           other !! "link" <> Some link) ->
        r !! link = Some (truncate title)
        /\ ((Py.len title <= 2000)%nat -> r !! link = Some title)).
Proof.
  split; [| split].
  - intros srv url_data Hwf.
    destruct (scrape_single_returns BeautifulSoup srv url_data Hwf)
      as [text Htext].
    unfold returns. eauto.
  - apply scrape_single_failed.
  - intros env urls_data max_workers cb r before i after url_data link title
      Hr Horder Hi Hlink Htitle Hfail Hafter.
    apply scrape_multiple_returned in Hr. subst r.
    pose proof (scrape_single_failed BeautifulSoup _ _ _ _ Hlink Htitle Hfail)
      as Hret.
    pose proof (results_last_completed BeautifulSoup env urls_data before i
                  after url_data link title Horder Hi Hret Hafter) as Hentry.
    split; [exact Hentry |].
    intros Hshort. rewrite Hentry. f_equal. now apply truncate_short.
Qed.

(** C3, as the code has it.  When the request ends with a 200 response
    whose body the parser accepts, the text returned is the title, the
    separator [" - "] and the text of the page: the tree without its
    script and style elements, its strings joined with a blank, and every
    run of whitespace collapsed to one blank.  When the parser raises on
    the body, the text returned is the title alone.  No script or style
    tag is left in the tree and the strings that remain are those outside
    such tags; whitespace is what [str.isspace] accepts below code point
    256; the text is made of the words of the page, which are not empty,
    hold no whitespace and hold every other character of the page in
    order, and collapsing it again changes nothing.  For the title
    [Example] and the body
    [<html><body><script>x</script>Hello World</body></html>], parsed as
    an [html] element around a [body] element that holds the script and
    the string, the result is [Example - Hello World]. *)
Theorem scrape_single_page_text :
  (forall srv url_data link title response soup,
     url_data !! "link" = Some link ->
     url_data !! "title" = Some title ->
     transport link srv = Ok response ->
     status_code response = 200 ->
     BeautifulSoup (text response) = Ok soup ->
     scrape_single BeautifulSoup srv url_data
     = Ok (link,
           title +:+ " - "
           +:+ Py.join " "
                 (Py.split
                    (get_text " " (extract_all ["script"; "style"] soup)))))
  /\ (forall srv url_data link title response,
        url_data !! "link" = Some link ->
        url_data !! "title" = Some title ->
        transport link srv = Ok response ->
        status_code response = 200 ->
        raises (BeautifulSoup (text response)) ->
        scrape_single BeautifulSoup srv url_data = Ok (link, title))
  /\ (forall soup,
        Forall (fun n => has_tag ["script"; "style"] n = false)
               (extract_all ["script"; "style"] soup)
        /\ get_text " " (extract_all ["script"; "style"] soup)
           = Py.join " " (flat_map (kept_strings ["script"; "style"]) soup))
  /\ (forall c,
        Py.isspace c = true <->
        nat_of_ascii c
        ∈ [9; 10; 11; 12; 13; 28; 29; 30; 31; 32; 133; 160]%nat)
  /\ (forall s,
        Forall word (Py.split s)
        /\ String.concat "" (Py.split s) = without_spaces s
        /\ Py.split (Py.join " " (Py.split s)) = Py.split s)
  /\ (forall w1 w2 gap,
        word w1 -> word w2 ->
        gap <> "" ->
        Forall (fun c => Py.isspace c = true) (list_ascii_of_string gap) ->
        Py.join " " (Py.split (gap +:+ w1 +:+ gap +:+ w2 +:+ gap))
        = w1 +:+ " " +:+ w2)
  /\ (BeautifulSoup Scenario.hello_page
      = Ok [Tag "html"
              [Tag "body"
                 [Tag "script" [NavigableString "x"];
                  NavigableString "Hello World"]]] ->
      scrape_single BeautifulSoup
        (fun _ => Answer 200 no_headers Scenario.hello_page)
        (task "http://example.test/ok" "Example")
      = Ok ("http://example.test/ok", "Example - Hello World")).
Proof.
  split; [| split; [| split; [| split; [| split; [| split]]]]].
  - intros srv url_data link title response soup
      Hlink Htitle Hget Hok Hsoup.
    exact (scrape_single_page BeautifulSoup _ _ _ _ _ _
             Hlink Htitle Hget Hok Hsoup).
  - intros srv url_data link title response Hlink Htitle Hget Hok Hraise.
    apply scrape_single_rejected; try assumption.
    exists response. auto.
  - intros soup. split; [apply extract_all_clean |].
    unfold get_text. now rewrite all_strings_extract_all.
  - apply isspace_spec.
  - intros s.
    assert (Hwords : Forall word (Py.split s)).
    { apply split_aux_words. constructor. }
    split; [exact Hwords |]. split.
    + unfold Py.split. now rewrite split_aux_letters.
    + now apply split_join.
  - apply split_two_words.
  - intros Hsoup.
    rewrite (scrape_single_page BeautifulSoup
               (fun _ => Answer 200 no_headers Scenario.hello_page)
               (task "http://example.test/ok" "Example")
               "http://example.test/ok" "Example"
               {| status_code := 200; headers := no_headers;
                  text := Scenario.hello_page |} _
               eq_refl eq_refl eq_refl eq_refl Hsoup).
    reflexivity.
Qed.


(** C5.  With a callback that does not raise, the loop invokes it once
    for every task, in completion order: the [k]-th of these invocations
    (from 0) carries the link of the task completed at step [k], one of
    the phases success, failed and error, [k + 1] as the count of
    completed tasks and the number of tasks as the total, whatever the
    fetches did.  The last one carries completed = total = the number of
    tasks.  The invocations before the loop carry 0. *)
Theorem one_progress_event_per_task env urls_data max_workers f :
  quiet f ->
  0 < max_workers ->
  well_scheduled env urls_data ->
  let run :=
    scrape_multiple BeautifulSoup env urls_data max_workers (Some f) in
  let per_task :=
    task_calls BeautifulSoup env urls_data max_workers (Some f) in
  returns (fst run)
  /\ snd run = preflight_calls env urls_data (Some f) ++ per_task
  /\ Forall (fun ev => ev_current ev = 0%nat)
            (preflight_calls env urls_data (Some f))
  /\ length per_task = length urls_data
  /\ (forall k ev,
        per_task !! k = Some ev ->
        ev_current ev = S k
        /\ ev_total ev = length urls_data
        /\ ev_status ev ∈ ["success"; "failed"; "error"]
        /\ exists i url_data,
             completion env !! k = Some i
             /\ urls_data !! i = Some url_data
             /\ ev_label ev = Py.get url_data "link" "unknown")
  /\ (forall ev,
        last per_task = Some ev ->
        ev_current ev = length urls_data
        /\ ev_total ev = length urls_data).
Proof.
  intros Hquiet Hworkers Hsched run per_task.
  assert (Hkth : forall k ev,
             per_task !! k = Some ev ->
             ev_current ev = S k
             /\ ev_total ev = length urls_data
             /\ ev_status ev ∈ ["success"; "failed"; "error"]
             /\ exists i url_data,
                  completion env !! k = Some i
                  /\ urls_data !! i = Some url_data
                  /\ ev_label ev = Py.get url_data "link" "unknown").
  { intros k ev Hev.
    destruct (lookup_task_calls _ _ _ _ _ _ _ Hquiet Hworkers Hsched Hev)
      as (i & url_data & Hi & Hd & ->).
    cbn. repeat split.
    - destruct (classify_cases
                  (url_data,
                   scrape_single BeautifulSoup (server env i) url_data))
        as [-> | [-> | ->]]; set_solver.
    - eauto. }
  pose proof (length_task_calls BeautifulSoup env urls_data max_workers f
                Hquiet Hworkers Hsched) as Hlen.
  split; [| split; [| split; [| split; [| split]]]].
  - unfold returns, run.
    rewrite (scrape_multiple_never_raises _ _ _ _ (Some f) Hquiet Hworkers).
    cbn. eauto.
  - apply (scrape_multiple_calls _ _ _ _ (Some f) Hquiet Hworkers).
  - unfold preflight_calls, preflight, unguarded, notify. cbn.
    repeat (case_if || case_verdict); repeat constructor.
  - exact Hlen.
  - exact Hkth.
  - intros ev Hlast. rewrite last_lookup in Hlast.
    destruct (Hkth _ _ Hlast) as (Hcur & Htot & _).
    fold per_task in Hlen. rewrite Hlen in Hcur.
    split; [| exact Htot].
    rewrite Hcur. destruct (length urls_data) eqn:Hn; [| reflexivity].
    rewrite Hlen in Hlast. cbn in Hlast.
    apply lookup_lt_Some in Hlast. lia.
Qed.

(** C6.  Every text in the returned mapping is at most 2000 characters
    plus the marker long and comes from what a future of the batch
    returned for that URL: the text itself when it has at most 2000
    characters, its first 2000 characters followed by the marker
    otherwise.  In the other direction, what the task completed last
    among those of its link returned is stored under the link in that
    form; a text of 2005 characters is stored as its first 2000
    characters followed by the marker, 2014 characters in all. *)
Theorem stored_text_truncated env urls_data max_workers cb r :
  fst (scrape_multiple BeautifulSoup env urls_data max_workers cb) = Ok r ->
  (forall url v,
     r !! url = Some v ->
     (Py.len v <= 2000 + Py.len "...(truncated)")%nat
     /\ exists fut content,
          fut ∈ completed_futures BeautifulSoup env urls_data
          /\ snd fut = Ok (url, content)
          /\ ((Py.len content <= 2000)%nat -> v = content)
          /\ ((2000 < Py.len content)%nat ->
              v = Py.take 2000 content +:+ "...(truncated)"))
  /\ (forall before i after url_data link content,
        completion env = before ++ i :: after ->
        urls_data !! i = Some url_data ->
        scrape_single BeautifulSoup (server env i) url_data
        = Ok (link, content) ->
        (forall j other,
           j ∈ after -> urls_data !! j = Some other ->
           other !! "link" <> Some link) ->
        ((Py.len content <= 2000)%nat -> r !! link = Some content)
        /\ ((2000 < Py.len content)%nat ->
            r !! link = Some (Py.take 2000 content +:+ "...(truncated)"))
        /\ (Py.len content = 2005%nat ->
            r !! link = Some (Py.take 2000 content +:+ "...(truncated)")
            /\ Py.len (Py.take 2000 content +:+ "...(truncated)")
               = 2014%nat)).
Proof.
  intros Hr. apply scrape_multiple_returned in Hr. subst r. split.
  - intros url v Hv. apply results_after_origin in Hv.
    destruct Hv as [Hv | (fut & content & Hin & Hsnd & ->)];
      [rewrite lookup_empty in Hv; discriminate |].
    split; [apply len_truncate_bound |].
    exists fut, content.
    destruct (truncate_cases content) as [Hshort Hlong].
    repeat split; assumption.
  - intros before i after url_data link content Horder Hi Hret Hafter.
    rewrite (results_last_completed BeautifulSoup env urls_data before i
               after url_data link content Horder Hi Hret Hafter).
    destruct (truncate_cases content) as [Hshort Hlong].
    split; [| split].
    + intros Hlen. f_equal. auto.
    + intros Hlen. f_equal. auto.
    + intros Hlen. split; [f_equal; apply Hlong; lia |].
      rewrite len_append, len_take, Hlen.
      change (Py.len "...(truncated)") with 14%nat. lia.
Qed.

(** C7, as the code has it.  [check_tor_connection] returns a boolean on
    every reply; it returns true exactly when the check service answers
    200 with a JSON object, whatever the object says about Tor; every
    exception and every other status give false. *)
Theorem check_tor_connection_true_iff :
  (forall probe,
     check_tor_connection probe = true <->
     exists r fields,
       probe = Ok r /\ check_status r = 200
       /\ check_json r = Some (JObject fields))
  /\ (forall e, check_tor_connection (Raise e) = false)
  /\ (forall r, check_status r <> 200 -> check_tor_connection (Ok r) = false).
Proof.
  split; [| split].
  - intros [r | e]; unfold check_tor_connection; cbn.
    + destruct (decide (check_status r = 200)) as [Hok | Hno].
      * rewrite bool_decide_eq_true_2 by assumption.
        unfold response_json.
        destruct (check_json r) as [j |] eqn:Hjson; [destruct j |]; cbn;
          split; intros H; try discriminate; try reflexivity;
          try (destruct H as (r' & fields' & [= <-] & _ & Hjson');
               congruence).
        exists r, fields. auto.
      * rewrite bool_decide_eq_false_2 by assumption.
        split; [discriminate |].
        intros (r' & fields' & [= <-] & Hst & _). contradiction.
    + split; [discriminate |]. intros (r' & fields' & Hr & _). discriminate.
  - reflexivity.
  - intros r Hno. unfold check_tor_connection. cbn.
    rewrite bool_decide_eq_false_2 by assumption. reflexivity.
Qed.

(** C8, as the code has it.  The coordinator does not isolate faults of
    the callback.  The handler of the loop catches what the callback
    raises on a success or failed invocation, if its class derives from
    [Exception], and invokes the callback again with the phase error;
    nothing surrounds that invocation or the two before the loop.  So the
    batch runs to its end, and returns what it returns without a
    callback, when the callback does not raise on its checking and error
    invocations and raises nothing but exceptions derived from
    [Exception].  A callback that raises at every invocation makes
    [scrape_multiple] raise on every batch that is not empty, and so
    does one that raises a [KeyboardInterrupt] or another exception not
    derived from [Exception] on the success and failed invocations when
    the tasks are well-formed. *)
Theorem callback_faults_reach_the_caller :
  (forall env urls_data max_workers f,
     lenient f ->
     raises_exceptions_only f ->
     0 < max_workers ->
     returns (fst (scrape_multiple BeautifulSoup env urls_data max_workers
                     (Some f)))
     /\ fst (scrape_multiple BeautifulSoup env urls_data max_workers (Some f))
        = fst (scrape_multiple BeautifulSoup env urls_data max_workers None))
  /\ (forall env urls_data max_workers f,
        always_raises f ->
        urls_data <> [] ->
        well_scheduled env urls_data ->
        raises (fst (scrape_multiple BeautifulSoup env urls_data max_workers
                       (Some f))))
  /\ (forall env urls_data max_workers f,
        (forall seen ev,
           ev_status ev = "success" \/ ev_status ev = "failed" ->
           f seen ev = RaisesBaseException) ->
        Forall well_formed urls_data ->
        urls_data <> [] ->
        well_scheduled env urls_data ->
        raises (fst (scrape_multiple BeautifulSoup env urls_data max_workers
                       (Some f)))).
Proof.
  split; [| split].
  - intros env urls_data max_workers f Hlenient Honly Hworkers.
    rewrite (scrape_multiple_lenient _ _ _ _ _ Hlenient Honly Hworkers).
    rewrite (scrape_multiple_never_raises _ _ _ _ None I Hworkers).
    split; [unfold returns; eauto | reflexivity].
  - intros env urls_data max_workers f.
    apply scrape_multiple_always_raises.
  - intros env urls_data max_workers f.
    apply scrape_multiple_interrupted.
Qed.

(** C9, as the code has it.  When a task has a [.onion] link and the Tor
    check fails, the callback is told so with the label
    [Tor NOT running!] and the phase [error], after the [checking]
    invocation and before any fetch; the batch goes on, every task gets
    its invocation and the mapping is returned.  A task whose fetch then
    fails has under its link what the loop makes of its title, provided
    no task with the same link is completed later. *)
Theorem tor_down_is_reported env urls_data max_workers f :
  quiet f ->
  0 < max_workers ->
  well_scheduled env urls_data ->
  has_onion urls_data ->
  check_tor_connection (probe env) = false ->
  let run :=
    scrape_multiple BeautifulSoup env urls_data max_workers (Some f) in
  snd run
  = [ {| ev_label := "Checking Tor connection..."; ev_status := "checking";
         ev_current := 0; ev_total := length urls_data |};
      {| ev_label := "Tor NOT running!"; ev_status := "error";
         ev_current := 0; ev_total := length urls_data |} ]
    ++ task_calls BeautifulSoup env urls_data max_workers (Some f)
  /\ length (task_calls BeautifulSoup env urls_data max_workers (Some f))
     = length urls_data
  /\ returns (fst run)
  /\ (forall r before i after url_data link title,
        fst run = Ok r ->
        completion env = before ++ i :: after ->
        urls_data !! i = Some url_data ->
        url_data !! "link" = Some link ->
        url_data !! "title" = Some title ->
        fetch_failed link (server env i) ->
        (forall j other,
           j ∈ after -> urls_data !! j = Some other ->
           other !! "link" <> Some link) ->
        r !! link = Some (truncate title)).
Proof.
  intros Hquiet Hworkers Hsched Honion Hdown run.
  split; [| split; [| split]].
  - unfold run.
    rewrite (scrape_multiple_calls _ _ _ _ (Some f) Hquiet Hworkers).
    now rewrite (preflight_calls_tor_down _ _ _ Hquiet Honion Hdown).
  - now apply length_task_calls.
  - unfold returns, run.
    rewrite (scrape_multiple_never_raises _ _ _ _ (Some f) Hquiet Hworkers).
    cbn. eauto.
  - intros r before i after url_data link title
      Hr Horder Hi Hlink Htitle Hfail Hafter.
    apply scrape_multiple_returned in Hr. subst r.
    apply (results_last_completed BeautifulSoup env urls_data before i after
             url_data link title Horder Hi); [| exact Hafter].
    now apply scrape_single_failed.
Qed.

(** C10, as the code has it.  The phase of a completed task is decided on
    the stored text: success when it is more than 10 characters longer
    than the title, failed otherwise.  So a 200 response whose body the
    parser accepts and whose page text has fewer than 8 characters is
    reported as failed whenever title, separator and text together stay
    within 2000 characters, although the text stored for it is longer
    than the title.  A 200 response whose body the parser rejects is
    reported as failed too, under a title of at most 2000 characters, and
    the text stored for it is the title. *)
Theorem short_page_reported_failed
    env urls_data max_workers f before i after url_data link title :
  quiet f ->
  0 < max_workers ->
  well_scheduled env urls_data ->
  completion env = before ++ i :: after ->
  urls_data !! i = Some url_data ->
  url_data !! "link" = Some link ->
  url_data !! "title" = Some title ->
  (forall content,
     scrape_single BeautifulSoup (server env i) url_data
     = Ok (link, content) ->
     exists ev,
       task_calls BeautifulSoup env urls_data max_workers (Some f)
         !! length before = Some ev
       /\ ev_label ev = link
       /\ ev_status ev
          = if (Py.len title + 10 <? Py.len (truncate content))%nat
            then "success" else "failed")
  /\ (forall response soup,
        transport link (server env i) = Ok response ->
        status_code response = 200 ->
        BeautifulSoup (text response) = Ok soup ->
        let page := visible_text soup in
        let content := title +:+ " - " +:+ page in
        (Py.len page < 8)%nat ->
        (Py.len content <= 2000)%nat ->
        (exists ev,
           task_calls BeautifulSoup env urls_data max_workers (Some f)
             !! length before = Some ev
           /\ ev_label ev = link
           /\ ev_status ev = "failed")
        /\ content <> title
        /\ ((forall j other,
               j ∈ after -> urls_data !! j = Some other ->
               other !! "link" <> Some link) ->
            forall r,
              fst (scrape_multiple BeautifulSoup env urls_data max_workers
                     (Some f)) = Ok r ->
              r !! link = Some content))
  /\ (forall response,
        transport link (server env i) = Ok response ->
        status_code response = 200 ->
        raises (BeautifulSoup (text response)) ->
        (Py.len title <= 2000)%nat ->
        (exists ev,
           task_calls BeautifulSoup env urls_data max_workers (Some f)
             !! length before = Some ev
           /\ ev_label ev = link
           /\ ev_status ev = "failed")
        /\ ((forall j other,
               j ∈ after -> urls_data !! j = Some other ->
               other !! "link" <> Some link) ->
            forall r,
              fst (scrape_multiple BeautifulSoup env urls_data max_workers
                     (Some f)) = Ok r ->
              r !! link = Some title)).
Proof.
  intros Hquiet Hworkers Hsched Horder Hi Hlink Htitle.
  pose proof (task_call_at BeautifulSoup env urls_data max_workers f before i
                after url_data Hquiet Hworkers Hsched Horder Hi) as Hcall.
  assert (Hrule : forall content,
             scrape_single BeautifulSoup (server env i) url_data
             = Ok (link, content) ->
             exists ev,
               task_calls BeautifulSoup env urls_data max_workers (Some f)
                 !! length before = Some ev
               /\ ev_label ev = link
               /\ ev_status ev
                  = if (Py.len title + 10 <? Py.len (truncate content))%nat
                    then "success" else "failed").
  { intros content Hret. rewrite Hret in Hcall.
    eexists. split; [exact Hcall |].
    unfold task_event, classify, Py.get. cbn. rewrite Hlink, Htitle. cbn.
    split; reflexivity. }
  split; [exact Hrule |]. split.
  - intros response soup Hget Hok Hsoup page content Hshort Hfits.
    assert (Hret : scrape_single BeautifulSoup (server env i) url_data
                   = Ok (link, content)).
    { exact (scrape_single_page BeautifulSoup _ _ _ _ _ _
               Hlink Htitle Hget Hok Hsoup). }
    assert (Hlen : Py.len content = (Py.len title + 3 + Py.len page)%nat).
    { unfold content. rewrite !len_append. cbn. lia. }
    assert (Hkeep : truncate content = content).
    { apply truncate_short. exact Hfits. }
    split; [| split].
    + destruct (Hrule content Hret) as (ev & Hev & Hlabel & Hstatus).
      exists ev. repeat split; try assumption.
      rewrite Hstatus, Hkeep.
      destruct (Nat.ltb_spec (Py.len title + 10) (Py.len content));
        [lia | reflexivity].
    + intros Heq. rewrite Heq in Hlen. lia.
    + intros Hafter r Hr.
      apply scrape_multiple_returned in Hr. subst r.
      rewrite <- Hkeep.
      apply (results_last_completed BeautifulSoup env urls_data before i after
               url_data link content Horder Hi Hret Hafter).
  - intros response Hget Hok Hraise Hfits.
    assert (Hret : scrape_single BeautifulSoup (server env i) url_data
                   = Ok (link, title)).
    { apply scrape_single_rejected; try assumption.
      exists response. auto. }
    assert (Hkeep : truncate title = title).
    { apply truncate_short. exact Hfits. }
    split.
    + destruct (Hrule title Hret) as (ev & Hev & Hlabel & Hstatus).
      exists ev. repeat split; try assumption.
      rewrite Hstatus, Hkeep.
      destruct (Nat.ltb_spec (Py.len title + 10) (Py.len title));
        [lia | reflexivity].
    + intros Hafter r Hr.
      apply scrape_multiple_returned in Hr. subst r.
      rewrite <- Hkeep.
      apply (results_last_completed BeautifulSoup env urls_data before i after
               url_data link title Horder Hi Hret Hafter).
Qed.

End Claims.

(** * Concrete runs *)

Module ScenarioFacts.

Import Scenario.

Lemma three_tasks_well_formed : Forall well_formed three_tasks.
Proof. repeat constructor; eexists; reflexivity. Defined.

Lemma three_tasks_scheduled :
  well_scheduled (offline [2; 0; 1]%nat) three_tasks.
Proof.
  unfold well_scheduled. cbn.
  apply (bool_decide_unpack _). vm_compute. exact I.
Defined.

End ScenarioFacts.

Lemma silent_quiet : quiet Scenario.silent.
Proof. intros seen ev. reflexivity. Defined.

Lemma picky_lenient : lenient Scenario.picky.
Proof. intros seen ev [H | H]; unfold Scenario.picky; rewrite H; reflexivity. Defined.

(** A batch of one task has one completion order. *)
Lemma one_task_scheduled env_of url_data :
  completion (env_of [0%nat]) = [0%nat] ->
  well_scheduled (env_of [0%nat]) [url_data].
Proof. intros H. unfold well_scheduled. rewrite H. reflexivity. Defined.

Lemma onion_batch : has_onion [Scenario.onion_task].
Proof.
  exists Scenario.onion_task, "http://alpha.onion/".
  split; [apply list_elem_of_here |]. split; reflexivity.
Defined.

(** The run that stores a text of 2005 characters. *)
Lemma long_run :
  fst (scrape_multiple Scenario.html_parser
         (Scenario.serving Scenario.long_page [0%nat])
         [task "http://long.test/" "Long"] 5 None)
  = Ok Scenario.long_result.
Proof. vm_compute. reflexivity. Defined.

(** The run of the three tasks when nothing can be reached. *)
Lemma offline_run :
  fst (scrape_multiple Scenario.html_parser (Scenario.offline [2; 0; 1]%nat)
         Scenario.three_tasks 5 None)
  = Ok {[ "http://alpha.onion/" := "Alpha"; "http://beta.test/" := "Beta" ]}.
Proof. vm_compute. reflexivity. Defined.

(** C1 on the three tasks, two of them with the same link, when nothing
    can be reached: two entries. *)
Lemma scrape_multiple_one_entry_per_link_witness :
  exists r,
    fst (scrape_multiple Scenario.html_parser (Scenario.offline [2; 0; 1]%nat)
           Scenario.three_tasks 5 None) = Ok r
    /\ size r = 2%nat.
Proof.
  destruct (scrape_multiple_one_entry_per_link Scenario.html_parser
              (Scenario.offline [2; 0; 1]%nat) Scenario.three_tasks 5 None
              ScenarioFacts.three_tasks_well_formed ScenarioFacts.three_tasks_scheduled)
    as [Hkeys Hret].
  destruct Hret as [r Hr]; [lia | exact I |].
  exists r. split; [exact Hr |].
  destruct (Hkeys r Hr) as (_ & -> & _). reflexivity.
Defined.

(** C1 as stated fails: of two tasks with one link, both failed, only the
    one completed last finds its title under the link. *)
Lemma shared_link_keeps_one_title :
  ~ (forall env urls_data max_workers cb r url_data link title,
       Forall well_formed urls_data ->
       well_scheduled env urls_data ->
       all_failed env urls_data ->
       fst (scrape_multiple Scenario.html_parser env urls_data max_workers cb)
       = Ok r ->
       url_data ∈ urls_data ->
       url_data !! "link" = Some link ->
       url_data !! "title" = Some title ->
       r !! link = Some title).
Proof.
  intros Hclaim.
  assert (Hfail : all_failed (Scenario.offline [2; 0; 1]%nat)
                    Scenario.three_tasks).
  { intros i url_data link Hi Hlink.
    destruct i as [| [| [| i]]]; [| | | discriminate];
      injection Hi as <-; injection Hlink as <-; vm_compute; exact I. }
  pose proof (Hclaim (Scenario.offline [2; 0; 1]%nat) Scenario.three_tasks
                5 None _ (task "http://alpha.onion/" "Alpha again")
                "http://alpha.onion/" "Alpha again"
                ScenarioFacts.three_tasks_well_formed
                ScenarioFacts.three_tasks_scheduled Hfail offline_run
                ltac:(unfold Scenario.three_tasks; set_solver)
                eq_refl eq_refl) as Hentry.
  vm_compute in Hentry. discriminate.
Qed.

(** C2 on the three tasks: the entry of the shared link is the title of
    the task completed last. *)
Lemma failed_fetch_falls_back_to_title_witness :
  ({[ "http://alpha.onion/" := "Alpha"; "http://beta.test/" := "Beta" ]}
     : gmap string string) !! "http://alpha.onion/" = Some "Alpha".
Proof.
  refine (proj2 (proj2 (proj2 (failed_fetch_falls_back_to_title
                          Scenario.html_parser))
            (Scenario.offline [2; 0; 1]%nat) Scenario.three_tasks 5 None _
            [2%nat] 0%nat [1%nat] (task "http://alpha.onion/" "Alpha")
            "http://alpha.onion/" "Alpha" offline_run eq_refl eq_refl
            eq_refl eq_refl _ _) _).
  - vm_compute. exact I.
  - intros j other Hj Hother.
    apply list_elem_of_singleton in Hj. subst j.
    injection Hother as <-. vm_compute. discriminate.
  - vm_compute. lia.
Defined.

(** C2 as stated fails: a failed fetch of a task whose title is 2001
    characters long leaves an entry that is not the title. *)
Lemma failed_entry_is_not_always_the_title :
  ~ (forall env urls_data max_workers cb r i url_data link title,
       Forall well_formed urls_data ->
       well_scheduled env urls_data ->
       fst (scrape_multiple Scenario.html_parser env urls_data max_workers cb)
       = Ok r ->
       urls_data !! i = Some url_data ->
       url_data !! "link" = Some link ->
       url_data !! "title" = Some title ->
       fetch_failed link (server env i) ->
       r !! link = Some title).
Proof.
  intros Hclaim.
  assert (Hwf : Forall well_formed
                  [task "http://beta.test/" (Scenario.letters 2001)]).
  { repeat constructor; eexists; reflexivity. }
  assert (Hrun : fst (scrape_multiple Scenario.html_parser
                        (Scenario.offline [0%nat])
                        [task "http://beta.test/" (Scenario.letters 2001)]
                        5 None)
                 = Ok {[ "http://beta.test/" :=
                           Scenario.letters 2000 +:+ "...(truncated)" ]}).
  { vm_compute. reflexivity. }
  assert (Hfail : fetch_failed "http://beta.test/"
                    (server (Scenario.offline [0%nat]) 0)).
  { vm_compute. exact I. }
  pose proof (Hclaim (Scenario.offline [0%nat]) _ _ _ _ 0%nat _
                "http://beta.test/" (Scenario.letters 2001) Hwf
                (Permutation_refl [0%nat]) Hrun
                eq_refl eq_refl eq_refl Hfail) as Hentry.
  apply (f_equal (fun o => Py.len (default "" o))) in Hentry.
  vm_compute in Hentry. discriminate.
Qed.

(** C3 on the page of Scenario A. *)
Lemma scrape_single_page_text_witness :
  scrape_single Scenario.html_parser
    (fun _ => Answer 200 no_headers Scenario.hello_page)
    (task "http://example.test/ok" "Example")
  = Ok ("http://example.test/ok", "Example - Hello World").
Proof.
  apply (proj2 (proj2 (proj2 (proj2 (proj2 (proj2
           (scrape_single_page_text Scenario.html_parser))))))).
  vm_compute. reflexivity.
Defined.

(** C3 as stated fails: the server answers 200 with a body that starts
    with a marked section of an unknown keyword, the parser raises on it
    and the text is the title alone. *)
Lemma rejected_page_leaves_the_title :
  ~ (forall srv url_data link title response,
       url_data !! "link" = Some link ->
       url_data !! "title" = Some title ->
       transport link srv = Ok response ->
       status_code response = 200 ->
       exists page,
         scrape_single Scenario.html_parser srv url_data
         = Ok (link, title +:+ " - " +:+ page)).
Proof.
  intros Hclaim.
  destruct (Hclaim (fun _ => Answer 200 no_headers Edge.rejected_page)
              (task "http://example.test/ok" "Example")
              "http://example.test/ok" "Example"
              {| status_code := 200; headers := no_headers;
                 text := Edge.rejected_page |}
              eq_refl eq_refl eq_refl eq_refl) as [page Hpage].
  vm_compute in Hpage. discriminate.
Qed.



(** C5 on the three tasks when nothing can be reached: three
    invocations. *)
Lemma one_progress_event_per_task_witness :
  length (task_calls Scenario.html_parser (Scenario.offline [2; 0; 1]%nat)
            Scenario.three_tasks 5 (Some Scenario.silent)) = 3%nat.
Proof.
  destruct (one_progress_event_per_task Scenario.html_parser
              (Scenario.offline [2; 0; 1]%nat) Scenario.three_tasks 5
              Scenario.silent silent_quiet ltac:(lia)
              ScenarioFacts.three_tasks_scheduled)
    as (_ & _ & _ & Hlen & _).
  exact Hlen.
Defined.

(** C6 on the text of 2005 characters. *)
Lemma stored_text_truncated_witness :
  Scenario.long_result !! "http://long.test/"
  = Some (Py.take 2000 ("Long - " +:+ Scenario.letters 1998)
          +:+ "...(truncated)")
  /\ Py.len (Py.take 2000 ("Long - " +:+ Scenario.letters 1998)
             +:+ "...(truncated)") = 2014%nat.
Proof.
  apply (proj2 (stored_text_truncated Scenario.html_parser _ _ _ _ _ long_run)
           [] 0%nat [] (task "http://long.test/" "Long")
           "http://long.test/" ("Long - " +:+ Scenario.letters 1998)).
  - reflexivity.
  - reflexivity.
  - vm_compute. reflexivity.
  - intros j other Hj. apply elem_of_nil in Hj. contradiction.
  - vm_compute. reflexivity.
Defined.

(** C7 on a 503 reply and on a 200 reply. *)
Lemma check_tor_connection_true_iff_witness :
  check_tor_connection (Ok Scenario.unavailable) = false
  /\ check_tor_connection (Ok Scenario.not_tor) = true.
Proof.
  destruct check_tor_connection_true_iff as (Hiff & _ & Hstatus).
  split.
  - apply Hstatus. cbn. lia.
  - apply Hiff. eexists _, _. repeat split; reflexivity.
Defined.

(** C7 as stated fails: the check answers 200 with [IsTor] false and
    the result is true. *)
Lemma check_tor_connection_ignores_IsTor :
  ~ (forall probe,
       check_tor_connection probe = true ->
       exists r, probe = Ok r /\ check_status r = 200 /\ confirms_tor r).
Proof.
  intros Hclaim.
  destruct (Hclaim (Ok Scenario.not_tor) eq_refl)
    as (r & [= <-] & _ & fields & [= <-] & Hflag).
  vm_compute in Hflag. discriminate.
Qed.

(** C8 on a callback that always raises, on one that raises on the
    failed phase only, and on one that raises [KeyboardInterrupt] on the
    success and failed phases. *)
Lemma callback_faults_reach_the_caller_witness :
  raises (fst (scrape_multiple Scenario.html_parser
                 (Scenario.offline [0%nat]) [Scenario.onion_task] 5
                 (Some Scenario.faulty)))
  /\ returns (fst (scrape_multiple Scenario.html_parser
                     (Scenario.offline [0%nat]) [Scenario.onion_task] 5
                     (Some Scenario.picky)))
  /\ raises (fst (scrape_multiple Scenario.html_parser
                    (Scenario.offline [0%nat]) [Scenario.onion_task] 5
                    (Some Edge.interrupting))).
Proof.
  destruct (callback_faults_reach_the_caller Scenario.html_parser)
    as (Hlenient & Hraises & Hstops).
  split; [| split].
  - apply Hraises.
    + intros seen ev. discriminate.
    + discriminate.
    + apply (one_task_scheduled Scenario.offline). reflexivity.
  - apply Hlenient; [exact picky_lenient | | lia].
    intros seen ev. unfold Scenario.picky.
    destruct (String.eqb (ev_status ev) "failed"); discriminate.
  - apply Hstops.
    + intros seen ev [H | H]; unfold Edge.interrupting; rewrite H.
      * reflexivity.
      * reflexivity.
    + repeat constructor; eexists; reflexivity.
    + discriminate.
    + apply (one_task_scheduled Scenario.offline). reflexivity.
Defined.

(** C8 as stated fails: with a callback that raises at every invocation
    the run raises. *)
Lemma raising_callback_ends_the_batch :
  ~ (forall env urls_data max_workers f,
       well_scheduled env urls_data ->
       0 < max_workers ->
       returns (fst (scrape_multiple Scenario.html_parser env urls_data
                       max_workers (Some f)))).
Proof.
  intros Hclaim.
  destruct (Hclaim (Scenario.offline [0%nat])
              [task "http://beta.test/" "Beta"] 5 Scenario.faulty
              (Permutation_refl [0%nat]) ltac:(lia)) as [r Hr].
  vm_compute in Hr. discriminate.
Qed.

(** C9 on one [.onion] task when nothing can be reached. *)
Lemma tor_down_is_reported_witness :
  snd (scrape_multiple Scenario.html_parser (Scenario.offline [0%nat])
         [Scenario.onion_task] 5 (Some Scenario.silent))
  = [ {| ev_label := "Checking Tor connection..."; ev_status := "checking";
         ev_current := 0; ev_total := 1 |};
      {| ev_label := "Tor NOT running!"; ev_status := "error";
         ev_current := 0; ev_total := 1 |} ]
    ++ task_calls Scenario.html_parser (Scenario.offline [0%nat])
         [Scenario.onion_task] 5 (Some Scenario.silent).
Proof.
  apply (tor_down_is_reported Scenario.html_parser
           (Scenario.offline [0%nat]) [Scenario.onion_task] 5 Scenario.silent
           silent_quiet ltac:(lia)
           (one_task_scheduled Scenario.offline Scenario.onion_task eq_refl)
           onion_batch eq_refl).
Defined.

(** C9 as stated fails twice when the Tor check fails.  First run: the
    invocation that says so has the phase [error], not [failed].  Second
    run: the server of the [.onion] task answers all the same, and the
    entry is the page, not the title. *)
Lemma tor_down_phase_and_entry :
  ~ (forall env urls_data max_workers f,
       quiet f -> 0 < max_workers -> well_scheduled env urls_data ->
       has_onion urls_data ->
       check_tor_connection (probe env) = false ->
       exists ev,
         ev ∈ snd (scrape_multiple Scenario.html_parser env urls_data
                     max_workers (Some f))
         /\ ev_label ev = "Tor NOT running!"
         /\ ev_status ev = "failed")
  /\ ~ (forall env urls_data max_workers f r url_data link title,
          quiet f -> 0 < max_workers -> well_scheduled env urls_data ->
          check_tor_connection (probe env) = false ->
          fst (scrape_multiple Scenario.html_parser env urls_data
                 max_workers (Some f)) = Ok r ->
          url_data ∈ urls_data ->
          url_data !! "link" = Some link ->
          url_data !! "title" = Some title ->
          Py.contains ".onion" link = true ->
          r !! link = Some title).
Proof.
  split.
  - intros Hclaim.
    destruct (Hclaim (Scenario.offline [0%nat]) [Scenario.onion_task] 5
                Scenario.silent silent_quiet ltac:(lia)
                (Permutation_refl [0%nat]) onion_batch eq_refl)
      as (ev & Hin & Hlabel & Hstatus).
    change (snd (scrape_multiple Scenario.html_parser
                   (Scenario.offline [0%nat]) [Scenario.onion_task] 5
                   (Some Scenario.silent)))
      with [ {| ev_label := "Checking Tor connection...";
                ev_status := "checking"; ev_current := 0; ev_total := 1 |};
             {| ev_label := "Tor NOT running!"; ev_status := "error";
                ev_current := 0; ev_total := 1 |};
             {| ev_label := "http://alpha.onion/"; ev_status := "failed";
                ev_current := 1; ev_total := 1 |} ] in Hin.
    repeat (apply elem_of_cons in Hin; destruct Hin as [-> | Hin];
            [cbn in Hlabel, Hstatus; discriminate |]).
    apply elem_of_nil in Hin. exact Hin.
  - intros Hclaim.
    assert (Hrun : fst (scrape_multiple Scenario.html_parser
                          (Scenario.serving Scenario.hello_page [0%nat])
                          [Scenario.onion_task] 5 (Some Scenario.silent))
                   = Ok {[ "http://alpha.onion/" := "Alpha - Hello World" ]}).
    { vm_compute. reflexivity. }
    pose proof (Hclaim (Scenario.serving Scenario.hello_page [0%nat])
                  [Scenario.onion_task] 5 Scenario.silent _
                  Scenario.onion_task "http://alpha.onion/" "Alpha"
                  silent_quiet ltac:(lia) (Permutation_refl [0%nat])
                  eq_refl Hrun (list_elem_of_here _ _) eq_refl eq_refl eq_refl)
      as Hentry.
    vm_compute in Hentry. discriminate.
Qed.

(** C10 on a page whose text is [Hi]. *)
Lemma short_page_reported_failed_witness :
  exists ev,
    task_calls Scenario.html_parser (Scenario.serving "<p>Hi</p>" [0%nat])
      [task "http://short.test/" "Short"] 5 (Some Scenario.silent)
      !! 0%nat = Some ev
    /\ ev_label ev = "http://short.test/"
    /\ ev_status ev = "failed".
Proof.
  destruct (short_page_reported_failed Scenario.html_parser
              (Scenario.serving "<p>Hi</p>" [0%nat])
              [task "http://short.test/" "Short"] 5 Scenario.silent
              [] 0%nat [] (task "http://short.test/" "Short")
              "http://short.test/" "Short"
              silent_quiet ltac:(lia) (Permutation_refl [0%nat])
              eq_refl eq_refl eq_refl eq_refl) as (_ & Hshort & _).
  destruct (Hshort {| status_code := 200; headers := no_headers;
                      text := "<p>Hi</p>" |}
              [Tag "p" [NavigableString "Hi"]]
              eq_refl eq_refl) as [Hev _].
  - vm_compute. reflexivity.
  - vm_compute. lia.
  - vm_compute. lia.
  - exact Hev.
Defined.

(** C10 as stated fails: a page without text under a title of 1998
    characters.  Title and separator are cut at 2000 characters, the
    marker makes the stored text 16 characters longer than the title, and
    the phase is success. *)
Lemma short_page_long_title_reported_success :
  ~ (forall env urls_data max_workers f before i after url_data link title
            response soup,
       quiet f -> 0 < max_workers -> well_scheduled env urls_data ->
       completion env = before ++ i :: after ->
       urls_data !! i = Some url_data ->
       url_data !! "link" = Some link ->
       url_data !! "title" = Some title ->
       transport link (server env i) = Ok response ->
       status_code response = 200 ->
       Scenario.html_parser (text response) = Ok soup ->
       (Py.len (visible_text soup) < 8)%nat ->
       exists ev,
         task_calls Scenario.html_parser env urls_data max_workers (Some f)
           !! length before = Some ev
         /\ ev_status ev = "failed").
Proof.
  intros Hclaim.
  destruct (Hclaim (Scenario.serving "" [0%nat])
              [task "http://short.test/" (Scenario.letters 1998)] 5
              Scenario.silent [] 0%nat []
              (task "http://short.test/" (Scenario.letters 1998))
              "http://short.test/" (Scenario.letters 1998)
              {| status_code := 200; headers := no_headers; text := "" |} []
              silent_quiet ltac:(lia) (Permutation_refl [0%nat])
              eq_refl eq_refl eq_refl eq_refl eq_refl eq_refl eq_refl
              ltac:(vm_compute; lia))
    as (ev & Hev & Hstatus).
  vm_compute in Hev. injection Hev as <-.
  cbn in Hstatus. discriminate.
Qed.

(** * Further properties *)



(** ** scrape_single on any dictionary *)

Section SingleEdge.

Variable BeautifulSoup : string -> result (list node).

Lemma scrape_single_no_link srv url_data :
  url_data !! "link" = None ->
  scrape_single BeautifulSoup srv url_data = Raise (KeyError "link").
Proof.
  intros Hlink. unfold scrape_single, Py.getitem. now rewrite Hlink.
Qed.

Lemma scrape_single_no_title srv url_data link :
  url_data !! "link" = Some link ->
  url_data !! "title" = None ->
  scrape_single BeautifulSoup srv url_data = Raise (KeyError "title").
Proof.
  intros Hlink Htitle. unfold scrape_single, Py.getitem.
  rewrite Hlink, Htitle.
  change (Ok link ≫= ?k) with (k link). cbv beta.
  destruct (Py.contains ".onion" link).
  - destruct (session_get get_tor_session srv) as [response | e]; cbn.
    + destruct (bool_decide (status_code response = 200)); [| reflexivity].
      destruct (BeautifulSoup (text response)) as [soup | e]; cbn;
        [reflexivity | destruct e; reflexivity].
    + destruct e; reflexivity.
  - destruct (requests_get srv) as [response | e]; cbn.
    + destruct (bool_decide (status_code response = 200)); [| reflexivity].
      destruct (BeautifulSoup (text response)) as [soup | e]; cbn;
        [reflexivity | destruct e; reflexivity].
    + destruct e; reflexivity.
Qed.

Lemma scrape_single_ill_formed srv url_data :
  ~ well_formed url_data ->
  raises (scrape_single BeautifulSoup srv url_data).
Proof.
  intros Hill. unfold raises.
  destruct (url_data !! "link") as [link |] eqn:Hlink.
  - destruct (url_data !! "title") as [title |] eqn:Htitle.
    + exfalso. apply Hill. split; eauto.
    + rewrite (scrape_single_no_title _ _ _ Hlink Htitle). eauto.
  - rewrite (scrape_single_no_link _ _ Hlink). eauto.
Qed.

Lemma scrape_single_returns_only_well_formed srv url_data :
  returns (scrape_single BeautifulSoup srv url_data) ->
  well_formed url_data.
Proof.
  intros [a Ha].
  destruct (url_data !! "link") as [link |] eqn:Hlink.
  - destruct (url_data !! "title") as [title |] eqn:Htitle.
    + split; [rewrite Hlink | rewrite Htitle]; eauto.
    + rewrite (scrape_single_no_title _ _ _ Hlink Htitle) in Ha.
      discriminate.
  - rewrite (scrape_single_no_link _ _ Hlink) in Ha. discriminate.
Qed.

(** X1.  [scrape_single] returns exactly for the dictionaries that have
    both keys.  Without [link] it raises [KeyError] for [link] before any
    request; with [link] and without [title] it raises [KeyError] for
    [title], whatever the server does, since success and failure both
    read the title. *)
Theorem scrape_single_returns_iff_well_formed srv url_data :
  (returns (scrape_single BeautifulSoup srv url_data)
   <-> well_formed url_data)
  /\ (url_data !! "link" = None ->
      scrape_single BeautifulSoup srv url_data = Raise (KeyError "link"))
  /\ (is_Some (url_data !! "link") ->
      url_data !! "title" = None ->
      scrape_single BeautifulSoup srv url_data = Raise (KeyError "title")).
Proof.
  split; [| split].
  - split.
    + apply scrape_single_returns_only_well_formed.
    + intros Hwf.
      destruct (scrape_single_returns BeautifulSoup srv url_data Hwf)
        as [text Htext].
      unfold returns. eauto.
  - apply scrape_single_no_link.
  - intros [link Hlink] Htitle.
    exact (scrape_single_no_title _ _ _ Hlink Htitle).
Qed.

Lemma separator_lengthens (title page : string) :
  title +:+ " - " +:+ page <> title.
Proof.
  intros Heq. apply (f_equal Py.len) in Heq.
  rewrite !len_append in Heq. cbn in Heq. lia.
Qed.

(** X2.  For a task with both keys the text returned starts with the
    title, and it is the title alone exactly when no page was read: the
    request raised, or ended with a status other than 200, or the parser
    raised on the body of a 200 response.  A page that is empty still
    leaves the separator behind the title. *)
Theorem scrape_single_text_marks_failure srv url_data link title :
  url_data !! "link" = Some link ->
  url_data !! "title" = Some title ->
  exists text,
    scrape_single BeautifulSoup srv url_data = Ok (link, text)
    /\ (exists rest, text = title +:+ rest)
    /\ (text = title <->
        fetch_failed link srv \/ page_rejected BeautifulSoup link srv).
Proof.
  intros Hlink Htitle.
  rewrite (scrape_single_spec _ _ _ _ _ Hlink Htitle).
  unfold fetch_failed, page_rejected.
  destruct (transport link srv) as [response | e].
  - destruct (decide (status_code response = 200)) as [Hok | Hno].
    + rewrite bool_decide_eq_true_2 by assumption.
      destruct (BeautifulSoup (text response)) as [soup | e] eqn:Hsoup.
      * eexists. split; [reflexivity |]. split; [eauto |]. split.
        -- intros Heq. exfalso. exact (separator_lengthens _ _ Heq).
        -- intros [Hno | (response' & [= <-] & _ & e & He)];
             [contradiction |].
           rewrite Hsoup in He. discriminate.
      * exists title. split; [reflexivity |]. split.
        -- exists "". now rewrite append_nil_r.
        -- split; [| reflexivity]. intros _. right.
           exists response. unfold raises. eauto.
    + rewrite bool_decide_eq_false_2 by assumption.
      exists title. split; [reflexivity |]. split; [| tauto].
      exists "". now rewrite append_nil_r.
  - exists title. split; [reflexivity |]. split; [| tauto].
    exists "". now rewrite append_nil_r.
Qed.

End SingleEdge.


(** ** Batches with ill-formed tasks *)

Section MixedBatches.

Variable BeautifulSoup : string -> result (list node).

Lemma future_url_submitted env urls_data url :
  url ∈ omap future_url (submit_all BeautifulSoup env urls_data)
  <-> exists url_data,
        url_data ∈ urls_data /\ well_formed url_data
        /\ url_data !! "link" = Some url.
Proof.
  rewrite list_elem_of_omap. split.
  - intros (fut & Hin & Hurl).
    apply elem_of_lookup_imap in Hin. destruct Hin as (i & url_data & -> & Hi).
    unfold future_url in Hurl. cbn [snd] in Hurl.
    destruct (scrape_single BeautifulSoup (server env i) url_data)
      as [[u text] |] eqn:Hs; [| discriminate].
    injection Hurl as ->.
    exists url_data. split; [apply list_elem_of_lookup; eauto |].
    split; [| now apply (scrape_single_url _ _ _ _ _ Hs)].
    apply (scrape_single_returns_only_well_formed BeautifulSoup (server env i)).
    unfold returns. eauto.
  - intros (url_data & Hin & Hwf & Hlink).
    apply list_elem_of_lookup in Hin. destruct Hin as [i Hi].
    exists (url_data, scrape_single BeautifulSoup (server env i) url_data).
    split.
    { apply list_elem_of_lookup. exists i.
      now rewrite lookup_submit_all, Hi. }
    destruct (scrape_single_returns BeautifulSoup (server env i) url_data Hwf)
      as [text Htext].
    unfold future_url. cbn [snd]. rewrite Htext.
    unfold Py.get. now rewrite Hlink.
Qed.

(** X3.  A task that lacks a key does not end the batch.  With a
    callback that does not raise and a positive worker count
    [scrape_multiple] returns; the keys of the mapping are the links of
    the tasks that have both keys; and the task without a key gets one
    invocation, with the phase [error], its link (or [unknown]) as label
    and the running count. *)
Theorem scrape_multiple_skips_ill_formed_tasks
    env urls_data max_workers f :
  quiet f ->
  0 < max_workers ->
  well_scheduled env urls_data ->
  (exists r,
     fst (scrape_multiple BeautifulSoup env urls_data max_workers (Some f))
     = Ok r
     /\ forall url,
          url ∈ dom r <->
          exists url_data,
            url_data ∈ urls_data /\ well_formed url_data
            /\ url_data !! "link" = Some url)
  /\ (forall k i url_data,
        completion env !! k = Some i ->
        urls_data !! i = Some url_data ->
        ~ well_formed url_data ->
        task_calls BeautifulSoup env urls_data max_workers (Some f) !! k
        = Some {| ev_label := Py.get url_data "link" "unknown";
                  ev_status := "error";
                  ev_current := S k;
                  ev_total := length urls_data |}).
Proof.
  intros Hquiet Hworkers Hsched. split.
  - rewrite (scrape_multiple_never_raises _ _ _ _ (Some f) Hquiet Hworkers).
    eexists. split; [reflexivity |].
    intros url.
    rewrite dom_results_after, dom_empty_L, (left_id_L ∅ (∪)).
    rewrite elem_of_list_to_set.
    rewrite (completed_futures_Permutation _ _ _ Hsched).
    apply future_url_submitted.
  - intros k i url_data Hk Hi Hill.
    assert (Hlen : (k < length (task_calls BeautifulSoup env urls_data
                                  max_workers (Some f)))%nat).
    { rewrite (length_task_calls _ _ _ _ _ Hquiet Hworkers Hsched).
      apply lookup_lt_Some in Hk.
      rewrite (Permutation_length Hsched), length_seq in Hk. exact Hk. }
    destruct (lookup_lt_is_Some_2 _ _ Hlen) as [ev Hev].
    rewrite Hev. f_equal.
    destruct (lookup_task_calls _ _ _ _ _ _ _ Hquiet Hworkers Hsched Hev)
      as (i' & url_data' & Hk' & Hi' & ->).
    rewrite Hk in Hk'. injection Hk' as <-.
    rewrite Hi in Hi'. injection Hi' as <-.
    destruct (scrape_single_ill_formed BeautifulSoup (server env i) url_data
                Hill) as [e He].
    unfold task_event, classify. cbn [fst snd]. now rewrite He.
Qed.

End MixedBatches.


(** ** Counts and invocations *)

Section Counting.

Variable BeautifulSoup : string -> result (list node).

Lemma scrape_multiple_run env urls_data max_workers cb :
  scrape_multiple BeautifulSoup env urls_data max_workers cb
  = (match fst (run BeautifulSoup env urls_data max_workers cb) with
     | Some e => Raise e
     | None =>
         Ok (results (snd (run BeautifulSoup env urls_data max_workers cb)))
     end,
     calls (snd (run BeautifulSoup env urls_data max_workers cb))).
Proof.
  unfold scrape_multiple, run.
  destruct (preflight env urls_data cb) as [[e |] st0]; [reflexivity |].
  destruct (bool_decide (max_workers <= 0)); [reflexivity |].
  destruct (drain _ _ _ _) as [[e |] st1]; reflexivity.
Qed.

Lemma counted_notify total_urls before f ev st st1 :
  counted total_urls before st ->
  calls st1 = calls st ->
  completed st1 = S (completed st) ->
  ev_current ev = completed st1 ->
  ev_total ev = total_urls ->
  counted total_urls before (snd (notify (Some f) ev st1)).
Proof.
  intros (loop & Hcalls & Hlen & Hloop) Hsame Hdone Hcur Htot.
  exists (loop ++ [ev]). cbn. rewrite Hsame, Hcalls, app_assoc.
  split; [reflexivity |]. split.
  - rewrite length_app. cbn. lia.
  - intros k ev' Hk.
    apply lookup_app_Some in Hk.
    destruct Hk as [Hk | [Hge Hk]]; [now apply Hloop |].
    apply list_lookup_singleton_Some in Hk. destruct Hk as [Hk <-].
    split; [| exact Htot]. rewrite Hcur, Hdone. lia.
Qed.

Lemma snd_unguarded call : snd (unguarded call) = snd call.
Proof. destruct call as [[| |] st]; reflexivity. Qed.

Lemma counted_on_exception total_urls before f url st :
  counted total_urls before st ->
  counted total_urls before (snd (on_exception total_urls (Some f) url st)).
Proof.
  intros Hst. unfold on_exception. rewrite snd_unguarded.
  apply (counted_notify _ _ _ _ st); auto.
Qed.

Lemma counted_handle_future total_urls before f fut st :
  counted total_urls before st ->
  counted total_urls before (snd (handle_future total_urls (Some f) fut st)).
Proof.
  intros Hst.
  destruct fut as [url_data [[result_url content] | e]]; cbn [handle_future].
  - set (url := Py.get url_data "link" "unknown").
    set (st1 := incr_completed (store result_url (truncate content) st)).
    assert (Hstep : forall st2 status,
               calls st2 = calls st ->
               completed st2 = S (completed st) ->
               counted total_urls before
                 (snd (match notify (Some f)
                               {| ev_label := url; ev_status := status;
                                  ev_current := completed st2;
                                  ev_total := total_urls |} st2
                       with
                       | (Returns, st3) => (None, st3)
                       | (RaisesException, st3) =>
                           on_exception total_urls (Some f) url st3
                       | (RaisesBaseException, st3) =>
                           (Some CallbackError, st3)
                       end))).
    { intros st2 status Hsame Hdone.
      pose proof (counted_notify total_urls before f
                    {| ev_label := url; ev_status := status;
                       ev_current := completed st2;
                       ev_total := total_urls |} st st2 Hst Hsame Hdone
                    eq_refl eq_refl) as Hnext.
      destruct (notify (Some f) _ st2) as [[| |] st3]; cbn [snd] in *.
      - exact Hnext.
      - now apply counted_on_exception.
      - exact Hnext. }
    destruct ((_ <? _)%nat); apply Hstep; reflexivity.
  - now apply counted_on_exception.
Qed.

Lemma counted_drain total_urls before f futures : forall st,
  counted total_urls before st ->
  counted total_urls before (snd (drain total_urls (Some f) futures st)).
Proof.
  induction futures as [| fut rest IH]; intros st Hst; [exact Hst |].
  cbn [drain].
  pose proof (counted_handle_future total_urls before f fut st Hst) as Hnext.
  destruct (handle_future total_urls (Some f) fut st) as [[e |] st1];
    cbn [snd] in *; [exact Hnext | now apply IH].
Qed.

Lemma preflight_counts env urls_data cb :
  Forall (fun ev => ev_current ev = 0%nat /\ ev_total ev = length urls_data)
         (preflight_calls env urls_data cb).
Proof.
  unfold preflight_calls, preflight, unguarded, notify.
  destruct cb as [f |]; cbn; repeat (case_if || case_verdict);
    repeat constructor.
Qed.

Lemma counted_run env urls_data max_workers f :
  counted (length urls_data) (preflight_calls env urls_data (Some f))
    (snd (run BeautifulSoup env urls_data max_workers (Some f))).
Proof.
  unfold run, preflight_calls.
  destruct (preflight_initial env urls_data (Some f)) as [_ Hdone].
  assert (Hstart : counted (length urls_data)
                     (calls (snd (preflight env urls_data (Some f))))
                     (snd (preflight env urls_data (Some f)))).
  { exists []. rewrite app_nil_r, Hdone.
    split; [reflexivity |]. split; [reflexivity |].
    intros k ev Hk. discriminate. }
  destruct (preflight env urls_data (Some f)) as [[e |] st0]; cbn [snd] in *;
    [exact Hstart |].
  destruct (bool_decide (max_workers <= 0)); [exact Hstart |].
  now apply counted_drain.
Qed.

Lemma task_calls_counted env urls_data max_workers f :
  snd (scrape_multiple BeautifulSoup env urls_data max_workers (Some f))
  = preflight_calls env urls_data (Some f)
    ++ task_calls BeautifulSoup env urls_data max_workers (Some f)
  /\ length (task_calls BeautifulSoup env urls_data max_workers (Some f))
     = completed (snd (run BeautifulSoup env urls_data max_workers (Some f)))
  /\ forall k ev,
       task_calls BeautifulSoup env urls_data max_workers (Some f) !! k
       = Some ev ->
       ev_current ev = S k /\ ev_total ev = length urls_data.
Proof.
  destruct (counted_run env urls_data max_workers f)
    as (loop & Hcalls & Hlen & Hloop).
  unfold task_calls. rewrite scrape_multiple_run. cbn [snd].
  rewrite Hcalls, drop_app_length. auto.
Qed.

(** X4.  Whatever the callback does, every invocation carries the number
    of tasks as total; the invocations before the loop carry 0 as count
    of completed tasks, and the [k]-th invocation from the loop carries
    [k]: the counter moves once before each invocation, not once per
    task. *)
Theorem progress_counts_follow_invocations env urls_data max_workers f :
  snd (scrape_multiple BeautifulSoup env urls_data max_workers (Some f))
  = preflight_calls env urls_data (Some f)
    ++ task_calls BeautifulSoup env urls_data max_workers (Some f)
  /\ Forall (fun ev =>
              ev_current ev = 0%nat /\ ev_total ev = length urls_data)
           (preflight_calls env urls_data (Some f))
  /\ forall k ev,
       task_calls BeautifulSoup env urls_data max_workers (Some f) !! k
       = Some ev ->
       ev_current ev = S k /\ ev_total ev = length urls_data.
Proof.
  destruct (task_calls_counted env urls_data max_workers f)
    as (Hsplit & _ & Hloop).
  split; [exact Hsplit |]. split; [apply preflight_counts | exact Hloop].
Qed.

End Counting.


(** ** The counters of the summary *)

Section Summary.

Variable BeautifulSoup : string -> result (list node).
Variable total_urls : nat.

Lemma handle_future_counters cb fut st :
  never_raises cb ->
  let st' := snd (handle_future total_urls cb fut st) in
  success_count st' = (success_count st + length (succeeded [fut]))%nat
  /\ (success_count st' + fail_count st'
      = success_count st + fail_count st + 1)%nat.
Proof.
  intros Hquiet.
  destruct fut as [url_data [[result_url content] | e]];
    unfold succeeded, handle_future, on_exception, unguarded, notify,
      classify;
    cbn [fst snd filter list_filter].
  - destruct ((_ <? _)%nat) eqn:Hlong; destruct cb as [f |]; cbn;
      rewrite ?Hquiet; cbn; rewrite ?decide_True by reflexivity;
      rewrite ?decide_False by discriminate; cbn; lia.
  - destruct cb as [f |]; cbn; rewrite ?Hquiet;
      rewrite ?decide_False by discriminate; cbn; lia.
Qed.

Lemma succeeded_cons fut futures :
  length (succeeded (fut :: futures))
  = (length (succeeded [fut]) + length (succeeded futures))%nat.
Proof.
  unfold succeeded. rewrite !filter_cons, filter_nil.
  destruct (decide (classify fut = "success")); reflexivity.
Qed.

Lemma drain_counters cb futures : forall st,
  never_raises cb ->
  let st' := snd (drain total_urls cb futures st) in
  success_count st' = (success_count st + length (succeeded futures))%nat
  /\ (success_count st' + fail_count st'
      = success_count st + fail_count st + length futures)%nat.
Proof.
  induction futures as [| fut rest IH]; intros st Hquiet; cbn zeta.
  - cbn. lia.
  - cbn [drain].
    destruct (handle_future_never_raises total_urls cb fut st Hquiet)
      as (st1 & Hfut & _ & _).
    pose proof (handle_future_counters cb fut st Hquiet) as Hone.
    rewrite Hfut in *. cbn [snd] in Hone.
    destruct (IH st1 Hquiet) as [Hs Hsum].
    rewrite succeeded_cons. cbn [length]. lia.
Qed.

End Summary.

Section SummaryOfRun.

Variable BeautifulSoup : string -> result (list node).

Lemma run_never_raises env urls_data max_workers cb :
  never_raises cb ->
  0 < max_workers ->
  run BeautifulSoup env urls_data max_workers cb
  = drain (length urls_data) cb
      (completed_futures BeautifulSoup env urls_data)
      (snd (preflight env urls_data cb))
  /\ fst (run BeautifulSoup env urls_data max_workers cb) = None.
Proof.
  intros Hquiet Hworkers. unfold run.
  pose proof (preflight_never_raises env urls_data cb Hquiet) as Hpre.
  destruct (preflight env urls_data cb) as [o st0]. cbn in Hpre. subst o.
  rewrite bool_decide_eq_false_2 by lia.
  fold (completed_futures BeautifulSoup env urls_data). cbn [snd].
  destruct (drain_never_raises (length urls_data) cb
              (completed_futures BeautifulSoup env urls_data) st0 Hquiet)
    as (st1 & -> & _).
  auto.
Qed.

Lemma preflight_counters env urls_data cb :
  success_count (snd (preflight env urls_data cb)) = 0%nat
  /\ fail_count (snd (preflight env urls_data cb)) = 0%nat.
Proof.
  unfold preflight, unguarded, notify.
  destruct cb as [f |]; cbn; repeat (case_if || case_verdict); auto.
Qed.

(** X6.  When the callback does not raise, the counters of the summary
    that line 210 logs add up: every task is completed, succeeded plus
    failed is the number of tasks, and succeeded is the number of futures
    whose stored text is more than 10 characters longer than the
    title. *)
Theorem summary_counts_add_up env urls_data max_workers cb :
  never_raises cb ->
  0 < max_workers ->
  well_scheduled env urls_data ->
  let st := snd (run BeautifulSoup env urls_data max_workers cb) in
  fst (run BeautifulSoup env urls_data max_workers cb) = None
  /\ fst (scrape_multiple BeautifulSoup env urls_data max_workers cb)
     = Ok (results st)
  /\ completed st = length urls_data
  /\ (success_count st + fail_count st)%nat = length urls_data
  /\ success_count st
     = length (succeeded (completed_futures BeautifulSoup env urls_data)).
Proof.
  intros Hquiet Hworkers Hsched st.
  destruct (run_never_raises env urls_data max_workers cb Hquiet Hworkers)
    as [Hrun Hnone].
  split; [exact Hnone |]. split.
  { rewrite scrape_multiple_run, Hnone. reflexivity. }
  subst st. rewrite Hrun.
  destruct (preflight_initial env urls_data cb) as [_ Hdone].
  destruct (preflight_counters env urls_data cb) as [Hs Hf].
  destruct (drain_never_raises (length urls_data) cb
              (completed_futures BeautifulSoup env urls_data)
              (snd (preflight env urls_data cb)) Hquiet)
    as (st1 & Hdrain & Hcompleted & _).
  pose proof (drain_counters (length urls_data) cb
                (completed_futures BeautifulSoup env urls_data)
                (snd (preflight env urls_data cb)) Hquiet) as [Hsucc Hsum].
  rewrite Hdrain in *. cbn [snd] in *.
  rewrite (length_completed_futures _ _ _ Hsched) in *.
  repeat split; lia.
Qed.

End SummaryOfRun.

(** ** A callback that raises on every result *)

Section Touchy.

Variable BeautifulSoup : string -> result (list node).

Lemma handle_future_touchy total_urls f fut st :
  touchy f ->
  returns (snd fut) ->
  exists st',
    handle_future total_urls (Some f) fut st = (None, st')
    /\ completed st' = S (S (completed st)).
Proof.
  intros [Hlenient Hraises] [[result_url content] Hret].
  destruct fut as [url_data outcome]. cbn in Hret. subst outcome.
  unfold handle_future, on_exception, unguarded, notify.
  destruct ((_ <? _)%nat); cbn;
    rewrite Hraises by (cbn; auto); cbn;
    rewrite Hlenient by (cbn; auto); eauto.
Qed.

Lemma drain_touchy total_urls f futures : forall st,
  touchy f ->
  Forall (fun fut => returns (snd fut)) futures ->
  exists st',
    drain total_urls (Some f) futures st = (None, st')
    /\ completed st' = (completed st + 2 * length futures)%nat.
Proof.
  induction futures as [| fut rest IH]; intros st Htouchy Hall.
  - exists st. cbn. split; [reflexivity | lia].
  - apply Forall_cons in Hall. destruct Hall as [Hfut Hrest].
    destruct (handle_future_touchy total_urls f fut st Htouchy Hfut)
      as (st1 & Hstep & Hdone).
    destruct (IH st1 Htouchy Hrest) as (st2 & Hdrain & Hdone2).
    exists st2. cbn [drain]. rewrite Hstep. split; [exact Hdrain |].
    cbn [length]. lia.
Qed.

Lemma completed_futures_return env urls_data :
  Forall well_formed urls_data ->
  well_scheduled env urls_data ->
  Forall (fun fut => returns (snd fut))
         (completed_futures BeautifulSoup env urls_data).
Proof.
  intros Hwf Hsched.
  rewrite (completed_futures_Permutation _ _ _ Hsched).
  apply Forall_forall. intros fut Hin.
  apply elem_of_lookup_imap in Hin. destruct Hin as (i & url_data & -> & Hi).
  cbn [snd].
  destruct (scrape_single_returns BeautifulSoup (server env i) url_data
              (proj1 (Forall_lookup _ _) Hwf i url_data Hi)) as [text ->].
  unfold returns. eauto.
Qed.

(** X5.  A callback that raises an exception derived from [Exception] on
    the success and failed invocations, and returns on the others, is
    invoked twice per task and each task is counted twice: the run
    returns, the loop makes twice as many invocations as there are tasks,
    and the last one reports twice as many completed tasks as the total
    it carries. *)
Theorem raising_callback_counts_tasks_twice env urls_data max_workers f :
  touchy f ->
  0 < max_workers ->
  Forall well_formed urls_data ->
  well_scheduled env urls_data ->
  returns (fst (scrape_multiple BeautifulSoup env urls_data max_workers
                  (Some f)))
  /\ length (task_calls BeautifulSoup env urls_data max_workers (Some f))
     = (2 * length urls_data)%nat
  /\ (forall ev,
        last (task_calls BeautifulSoup env urls_data max_workers (Some f))
        = Some ev ->
        ev_current ev = (2 * length urls_data)%nat
        /\ ev_total ev = length urls_data).
Proof.
  intros Htouchy Hworkers Hwf Hsched.
  destruct (task_calls_counted BeautifulSoup env urls_data max_workers f)
    as (_ & Hlen & Hloop).
  assert (Hrun : fst (run BeautifulSoup env urls_data max_workers (Some f))
                 = None
                 /\ completed (snd (run BeautifulSoup env urls_data
                                      max_workers (Some f)))
                    = (2 * length urls_data)%nat).
  { unfold run.
    destruct (preflight_initial env urls_data (Some f)) as [_ Hdone].
    pose proof (preflight_lenient env urls_data f (proj1 Htouchy)) as Hpre.
    destruct (preflight env urls_data (Some f)) as [o st0].
    cbn in Hpre, Hdone. subst o.
    rewrite bool_decide_eq_false_2 by lia.
    fold (completed_futures BeautifulSoup env urls_data).
    destruct (drain_touchy (length urls_data) f
                (completed_futures BeautifulSoup env urls_data) st0 Htouchy
                (completed_futures_return env urls_data Hwf Hsched))
      as (st1 & -> & Hdone1).
    cbn. rewrite Hdone1, Hdone, (length_completed_futures _ _ _ Hsched).
    split; [reflexivity | lia]. }
  destruct Hrun as [Hnone Hdone]. rewrite Hdone in Hlen.
  split; [| split].
  - rewrite scrape_multiple_run, Hnone. unfold returns. cbn. eauto.
  - exact Hlen.
  - intros ev Hlast. rewrite last_lookup, Hlen in Hlast.
    destruct (Hloop _ _ Hlast) as [Hcur Htot].
    split; [| exact Htot].
    destruct (length urls_data) as [| n] eqn:Hn.
    + cbn in Hlast. apply lookup_lt_Some in Hlast. lia.
    + rewrite Hcur. lia.
Qed.

End Touchy.


(** ** Edges of the batch *)

Section BatchEdges.

Variable BeautifulSoup : string -> result (list node).

(** X7.  The empty batch: with a positive worker count [scrape_multiple]
    returns the empty mapping and never invokes the callback, whatever
    the environment and the callback are. *)
Theorem empty_batch_returns_empty_mapping env max_workers cb :
  0 < max_workers ->
  scrape_multiple BeautifulSoup env [] max_workers cb = (Ok ∅, []).
Proof.
  intros Hworkers. unfold scrape_multiple, preflight. cbn.
  rewrite bool_decide_eq_false_2 by lia.
  unfold as_completed, submit_all. cbn.
  induction (completion env) as [| i order IH]; [reflexivity |].
  cbn. rewrite lookup_nil. exact IH.
Qed.

Lemma scrape_multiple_without_workers env urls_data max_workers cb :
  max_workers <= 0 ->
  never_raises cb ->
  scrape_multiple BeautifulSoup env urls_data max_workers cb
  = (Raise ValueError, preflight_calls env urls_data cb).
Proof.
  intros Hworkers Hquiet. unfold scrape_multiple, preflight_calls.
  pose proof (preflight_never_raises env urls_data cb Hquiet) as Hpre.
  destruct (preflight env urls_data cb) as [o st0]. cbn in Hpre. subst o.
  now rewrite bool_decide_eq_true_2 by assumption.
Qed.

(** X8.  With a worker count of 0 or less the pool cannot be built, and
    [scrape_multiple] finds out only after the Tor check: for every batch
    it raises and the loop makes no invocation; with a callback that does
    not raise the exception is [ValueError] and the callback has heard
    of the check by then, [checking] when a link holds [.onion] and
    [error] after it when the check failed. *)
Theorem no_workers_no_fetch env urls_data max_workers :
  max_workers <= 0 ->
  (forall cb,
     raises (fst (scrape_multiple BeautifulSoup env urls_data max_workers cb))
     /\ task_calls BeautifulSoup env urls_data max_workers cb = [])
  /\ scrape_multiple BeautifulSoup env urls_data max_workers None
     = (Raise ValueError, [])
  /\ (forall f,
        quiet f ->
        scrape_multiple BeautifulSoup env urls_data max_workers (Some f)
        = (Raise ValueError,
           if existsb (fun url_data =>
                         Py.contains ".onion" (Py.get url_data "link" ""))
                      urls_data
           then {| ev_label := "Checking Tor connection...";
                   ev_status := "checking";
                   ev_current := 0; ev_total := length urls_data |}
                :: (if check_tor_connection (probe env) then []
                    else [ {| ev_label := "Tor NOT running!";
                              ev_status := "error";
                              ev_current := 0;
                              ev_total := length urls_data |} ])
           else [])).
Proof.
  intros Hworkers. split; [| split].
  - intros cb. split.
    + unfold scrape_multiple, raises.
      destruct (preflight env urls_data cb) as [[e |] st0]; cbn; [eauto |].
      rewrite bool_decide_eq_true_2 by assumption. cbn. eauto.
    + unfold task_calls, preflight_calls, scrape_multiple.
      destruct (preflight env urls_data cb) as [[e |] st0]; cbn [snd].
      * apply drop_all.
      * rewrite bool_decide_eq_true_2 by assumption. cbn [snd].
        apply drop_all.
  - rewrite (scrape_multiple_without_workers _ _ _ None Hworkers I).
    f_equal. unfold preflight_calls, preflight, unguarded, notify.
    destruct (existsb _ urls_data); [| reflexivity].
    cbn. destruct (check_tor_connection (probe env)); reflexivity.
  - intros f Hquiet.
    rewrite (scrape_multiple_without_workers _ _ _ (Some f) Hworkers Hquiet).
    f_equal. apply preflight_calls_quiet. exact Hquiet.
Qed.

End BatchEdges.

(** ** Attempts *)

Lemma urlopen_reads_prefix forcelist srv srv' total :
  forall read connect n,
  (forall j, (j <= total)%nat -> srv (n + j)%nat = srv' (n + j)%nat) ->
  urlopen total read connect forcelist srv n
  = urlopen total read connect forcelist srv' n.
Proof.
  induction total as [| total IH]; intros read connect n Hsame;
    pose proof (Hsame 0%nat ltac:(lia)) as Hfirst;
    rewrite Nat.add_0_r in Hfirst; cbn [urlopen]; rewrite <- Hfirst;
    [reflexivity |].
  assert (Hnext : forall j, (j <= total)%nat ->
                    srv (S n + j)%nat = srv' (S n + j)%nat).
  { intros j Hj. replace (S n + j)%nat with (n + S j)%nat by lia.
    apply Hsame. lia. }
  destruct (srv n) as [st hdrs body | e | e].
  - destruct (is_retry _ _ _ _); [| reflexivity].
    destruct (sleep hdrs); [now apply IH | reflexivity].
  - destruct (spend connect); [now apply IH | reflexivity].
  - destruct (spend read); [now apply IH | reflexivity].
Qed.

(** The response of a request is the last reply it read. *)
Lemma urlopen_response forcelist srv total :
  forall read connect n response n',
  urlopen total read connect forcelist srv n = Ok (response, n') ->
  exists k,
    n' = S k /\ (n <= k <= n + total)%nat
    /\ srv k = Answer (status_code response) (headers response)
                 (text response).
Proof.
  induction total as [| total IH]; intros read connect n response n';
    cbn [urlopen]; destruct (srv n) as [st hdrs body | e | e] eqn:Hn;
    try discriminate.
  - destruct (is_retry _ _ _ _); [discriminate |]. intros [= <- <-].
    exists n. split; [reflexivity |]. split; [lia | exact Hn].
  - destruct (is_retry _ _ _ _).
    + destruct (sleep hdrs); [| discriminate].
      intros H. apply IH in H. destruct H as (k & -> & Hk & Hlast).
      exists k. split; [reflexivity |]. split; [lia | exact Hlast].
    + intros [= <- <-].
      exists n. split; [reflexivity |]. split; [lia | exact Hn].
  - destruct (spend connect); [| discriminate].
    intros H. apply IH in H. destruct H as (k & -> & Hk & Hlast).
    exists k. split; [reflexivity |]. split; [lia | exact Hlast].
  - destruct (spend read); [| discriminate].
    intros H. apply IH in H. destruct H as (k & -> & Hk & Hlast).
    exists k. split; [reflexivity |]. split; [lia | exact Hlast].
Qed.

(** A fetch that may follow [m] redirections reads at most [m + 1] times
    the replies of one request. *)
Lemma send_reads_prefix retry srv srv' m : forall n,
  (forall j, (j < S m * S (total retry))%nat ->
             srv (n + j)%nat = srv' (n + j)%nat) ->
  send m retry srv n = send m retry srv' n.
Proof.
  induction m as [| m IH]; intros n Hsame; cbn [send];
    rewrite <- (urlopen_reads_prefix (status_forcelist retry) srv srv'
                  (total retry) (read retry) (connect retry) n)
      by (intros j Hj; apply Hsame; lia);
    destruct (urlopen _ _ _ _ srv n) as [[response k] | e] eqn:Hreq;
    try reflexivity.
  destruct (is_redirect response); [| reflexivity].
  apply urlopen_next in Hreq. apply IH. intros j Hj.
  replace (k + j)%nat with (n + (k - n + j))%nat by lia.
  apply Hsame. lia.
Qed.

(** Without a redirection among its replies a fetch is one request. *)
Lemma send_one_request retry srv srv' m n :
  (forall j, (j <= total retry)%nat ->
             srv (n + j)%nat = srv' (n + j)%nat
             /\ ~ redirection (srv (n + j)%nat)) ->
  send m retry srv n = send m retry srv' n.
Proof.
  intros Hsame.
  assert (Hreq : urlopen (total retry) (read retry) (connect retry)
                   (status_forcelist retry) srv n
                 = urlopen (total retry) (read retry) (connect retry)
                     (status_forcelist retry) srv' n).
  { apply urlopen_reads_prefix. intros j Hj. now apply Hsame. }
  destruct (urlopen (total retry) (read retry) (connect retry)
              (status_forcelist retry) srv n) as [[response k] | e] eqn:Hone.
  - assert (Hfinal : is_redirect response = false).
    { destruct (urlopen_response _ _ _ _ _ _ _ _ Hone)
        as (k0 & _ & Hk0 & Hlast).
      apply not_true_iff_false. intros Hmoved.
      destruct response as [st hdrs body].
      apply is_redirect_redirection in Hmoved. cbn in Hlast.
      rewrite <- Hlast in Hmoved.
      replace k0 with (n + (k0 - n))%nat in Hmoved by lia.
      apply (proj2 (Hsame (k0 - n)%nat ltac:(lia))). exact Hmoved. }
    rewrite (send_final retry srv m n response k Hone Hfinal).
    symmetry. apply (send_final retry srv' m n response k); [| exact Hfinal].
    now rewrite <- Hreq.
  - rewrite (send_raises retry srv m n e Hone).
    symmetry. apply send_raises. now rewrite <- Hreq.
Qed.

Section Attempts.

Variable BeautifulSoup : string -> result (list node).

Lemma scrape_single_transport srv srv' url_data :
  (forall link, url_data !! "link" = Some link ->
                transport link srv = transport link srv') ->
  scrape_single BeautifulSoup srv url_data
  = scrape_single BeautifulSoup srv' url_data.
Proof.
  intros Hsame. unfold scrape_single, Py.getitem.
  destruct (url_data !! "link") as [link |]; [| reflexivity].
  specialize (Hsame link eq_refl). unfold transport in Hsame.
  change (Ok link ≫= ?k) with (k link). cbv beta.
  destruct (Py.contains ".onion" link); now rewrite Hsame.
Qed.

(** X9.  A fetch reads a bounded part of what the server says.  One
    request makes at most four attempts through Tor and one directly,
    and up to thirty redirections are followed: what [scrape_single]
    returns depends on the first 124 replies only, and for a link without
    [.onion] on the first 31.  When none of the first four replies is a
    redirection the result depends on these four only; for a link without
    [.onion] it depends on the first reply only when that one is not a
    redirection. *)
Theorem fetch_reads_a_bounded_prefix :
  (forall srv srv' url_data,
     (forall j, (j < 124)%nat -> srv j = srv' j) ->
     scrape_single BeautifulSoup srv url_data
     = scrape_single BeautifulSoup srv' url_data)
  /\ (forall srv srv' url_data link,
        url_data !! "link" = Some link ->
        Py.contains ".onion" link = false ->
        (forall j, (j < 31)%nat -> srv j = srv' j) ->
        scrape_single BeautifulSoup srv url_data
        = scrape_single BeautifulSoup srv' url_data)
  /\ (forall srv srv' url_data,
        (forall j, (j <= 3)%nat -> srv j = srv' j /\ ~ redirection (srv j)) ->
        scrape_single BeautifulSoup srv url_data
        = scrape_single BeautifulSoup srv' url_data)
  /\ (forall srv srv' url_data link,
        url_data !! "link" = Some link ->
        Py.contains ".onion" link = false ->
        srv 0%nat = srv' 0%nat ->
        ~ redirection (srv 0%nat) ->
        scrape_single BeautifulSoup srv url_data
        = scrape_single BeautifulSoup srv' url_data).
Proof.
  split; [| split; [| split]].
  - intros srv srv' url_data Hsame. apply scrape_single_transport.
    intros link _. unfold transport, requests_get, session_get.
    destruct (Py.contains ".onion" link);
      apply send_reads_prefix; intros j Hj; apply Hsame;
      unfold DEFAULT_REDIRECT_LIMIT in Hj; cbn in Hj; lia.
  - intros srv srv' url_data link Hlink Hclear Hsame.
    apply scrape_single_transport. intros link' Hlink'.
    rewrite Hlink in Hlink'. injection Hlink' as <-.
    unfold transport, requests_get, session_get. rewrite Hclear.
    apply send_reads_prefix. intros j Hj. apply Hsame.
    unfold DEFAULT_REDIRECT_LIMIT in Hj. cbn in Hj. lia.
  - intros srv srv' url_data Hsame. apply scrape_single_transport.
    intros link _. unfold transport, requests_get, session_get.
    destruct (Py.contains ".onion" link);
      apply send_one_request; intros j Hj; apply Hsame; cbn in Hj; lia.
  - intros srv srv' url_data link Hlink Hclear Hfirst Hfinal.
    apply scrape_single_transport. intros link' Hlink'.
    rewrite Hlink in Hlink'. injection Hlink' as <-.
    unfold transport, requests_get, session_get. rewrite Hclear.
    apply send_one_request. intros j Hj. cbn in Hj.
    replace j with 0%nat by lia. auto.
Qed.

(** X10.  The route is chosen by the substring [.onion] anywhere in the
    link.  When the server answers 503, with no [Retry-After] header or
    one that can be read, and then 200 with a body that the parser
    accepts, a link that holds [.onion], be it in the path or the query
    of a clear-web address, gets the retry and the page; a link that does
    not hold it gets the title, the 503 being final. *)
Theorem onion_anywhere_selects_tor srv url_data link title h b hdrs body soup :
  url_data !! "link" = Some link ->
  url_data !! "title" = Some title ->
  srv 0%nat = Answer 503 h b ->
  sleep h = Ok tt ->
  srv 1%nat = Answer 200 hdrs body ->
  BeautifulSoup body = Ok soup ->
  (mentions_onion link ->
   scrape_single BeautifulSoup srv url_data
   = Ok (link, title +:+ " - " +:+ visible_text soup))
  /\ (~ mentions_onion link ->
      scrape_single BeautifulSoup srv url_data = Ok (link, title)).
Proof.
  intros Hlink Htitle Hbusy Hsleep Hpage Hsoup. split; intros Honion.
  - apply (scrape_single_page BeautifulSoup srv url_data link title
             {| status_code := 200; headers := hdrs; text := body |} soup);
      try assumption; try reflexivity.
    unfold transport.
    rewrite (proj2 (contains_spec ".onion" link) Honion).
    apply (session_get_tor srv 1); auto.
    + intros j Hj. replace j with 0%nat by lia. rewrite Hbusy. cbn.
      split; [left; set_solver | exact Hsleep].
    + intros Hin. set_solver.
    + right. right. intros Hin. set_solver.
    + right. intros Hin. set_solver.
  - apply scrape_single_failed; try assumption.
    unfold fetch_failed, transport.
    destruct (Py.contains ".onion" link) eqn:Hc.
    + exfalso. apply Honion. now apply contains_spec.
    + pose proof (requests_get_decided srv 0 ltac:(lia)) as Hfirst.
      rewrite Hbusy in Hfirst. rewrite Hfirst.
      * cbn. lia.
      * intros i Hi. lia.
      * right. intros Hin. set_solver.
Qed.

End Attempts.


(** ** The Tor check *)

Section TorCheck.

Variable BeautifulSoup : string -> result (list node).

Lemma submit_all_server env env' urls_data :
  server env = server env' ->
  submit_all BeautifulSoup env urls_data
  = submit_all BeautifulSoup env' urls_data.
Proof. intros Hsame. unfold submit_all. now rewrite Hsame. Qed.

(** X11.  The Tor check only informs.  With a callback that does not
    raise, what [scrape_multiple] returns or raises does not depend on
    the reply of the check service.  The callback hears of the check as
    follows: nothing when no link holds [.onion]; else [checking], and
    after it [error] with the label [Tor NOT running!] exactly when the
    check fails. *)
Theorem tor_check_is_advisory :
  (forall env env' urls_data max_workers cb,
     server env = server env' ->
     completion env = completion env' ->
     never_raises cb ->
     fst (scrape_multiple BeautifulSoup env urls_data max_workers cb)
     = fst (scrape_multiple BeautifulSoup env' urls_data max_workers cb))
  /\ (forall env urls_data f,
        quiet f ->
        preflight_calls env urls_data (Some f)
        = if existsb (fun url_data =>
                        Py.contains ".onion" (Py.get url_data "link" ""))
                     urls_data
          then {| ev_label := "Checking Tor connection...";
                  ev_status := "checking";
                  ev_current := 0; ev_total := length urls_data |}
               :: (if check_tor_connection (probe env) then []
                   else [ {| ev_label := "Tor NOT running!";
                             ev_status := "error";
                             ev_current := 0;
                             ev_total := length urls_data |} ])
          else []).
Proof.
  split.
  - intros env env' urls_data max_workers cb Hserver Horder Hquiet.
    destruct (decide (max_workers <= 0)) as [Hnone | Hsome].
    + now rewrite !(scrape_multiple_without_workers _ _ _ _ _ Hnone Hquiet).
    + rewrite !(scrape_multiple_never_raises _ _ _ _ _ Hquiet) by lia.
      cbn [fst]. unfold completed_futures.
      now rewrite Horder, (submit_all_server env env' urls_data Hserver).
  - intros env urls_data f Hquiet. now apply preflight_calls_quiet.
Qed.

End TorCheck.

(** ** Entries and completion order *)

Section Order.

Variable BeautifulSoup : string -> result (list node).

Lemma completion_split env urls_data i :
  well_scheduled env urls_data ->
  (i < length urls_data)%nat ->
  exists before after,
    completion env = before ++ i :: after /\ i ∉ after.
Proof.
  intros Hsched Hi.
  assert (Hin : i ∈ completion env).
  { rewrite Hsched. apply elem_of_seq. lia. }
  apply list_elem_of_split in Hin. destruct Hin as (before & after & Hsplit).
  exists before, after. split; [exact Hsplit |].
  assert (Hnodup : NoDup (completion env)).
  { rewrite Hsched. apply NoDup_seq. }
  rewrite Hsplit in Hnodup. apply NoDup_app in Hnodup.
  destruct Hnodup as (_ & _ & Hnodup).
  apply NoDup_cons in Hnodup. tauto.
Qed.

Lemma unique_link_entry env urls_data max_workers cb r i url_data link text :
  fst (scrape_multiple BeautifulSoup env urls_data max_workers cb) = Ok r ->
  well_scheduled env urls_data ->
  urls_data !! i = Some url_data ->
  scrape_single BeautifulSoup (server env i) url_data = Ok (link, text) ->
  (forall j other,
     j <> i -> urls_data !! j = Some other ->
     other !! "link" <> Some link) ->
  r !! link = Some (truncate text).
Proof.
  intros Hr Hsched Hi Hret Hunique.
  apply scrape_multiple_returned in Hr. subst r.
  destruct (completion_split env urls_data i Hsched
              (lookup_lt_Some _ _ _ Hi)) as (before & after & Hsplit & Hnot).
  apply (results_last_completed BeautifulSoup env urls_data before i after
           url_data link text Hsplit Hi Hret).
  intros j other Hj Hother. apply (Hunique j other); [| exact Hother].
  intros ->. contradiction.
Qed.

End Order.

(** X12.  A task whose link no other task of the batch has keeps its own
    text: in every completion order its entry is what [scrape_single]
    returned for it, cut to 2000 characters.  With a link that two tasks
    share the mapping depends on the order of completion. *)
Theorem unique_link_keeps_its_text :
  (forall BeautifulSoup env urls_data max_workers cb r i url_data link text,
     fst (scrape_multiple BeautifulSoup env urls_data max_workers cb) = Ok r ->
     well_scheduled env urls_data ->
     urls_data !! i = Some url_data ->
     scrape_single BeautifulSoup (server env i) url_data = Ok (link, text) ->
     (forall j other,
        j <> i -> urls_data !! j = Some other ->
        other !! "link" <> Some link) ->
     r !! link = Some (truncate text))
  /\ (exists env env' urls_data,
        server env = server env' /\ probe env = probe env'
        /\ well_scheduled env urls_data /\ well_scheduled env' urls_data
        /\ fst (scrape_multiple HtmlParser.html_parser env urls_data 5 None)
           <> fst (scrape_multiple HtmlParser.html_parser env' urls_data 5
                     None)).
Proof.
  split; [apply unique_link_entry |].
  exists (Edge.first_serves Scenario.hello_page [0; 1]%nat),
         (Edge.first_serves Scenario.hello_page [1; 0]%nat),
         Edge.same_link_tasks.
  split; [reflexivity |]. split; [reflexivity |].
  split; [apply Permutation_refl |].
  split; [apply Permutation_swap |].
  intros Heq.
  apply (f_equal (fun res : result (gmap string string) =>
                    match res with
                    | Ok r => r !! "http://beta.test/"
                    | Raise _ => None
                    end)) in Heq.
  vm_compute in Heq. discriminate.
Qed.


(** ** The phase of a task *)

Section Phase.

Variable BeautifulSoup : string -> result (list node).

(** X13.  What the phase says about the fetch, for a callback that does
    not raise.  When the title has at most 2000 characters, a fetch that
    failed, or whose page the parser rejected, is reported as failed.
    When the title has at most 1990 characters the phase is success
    exactly when the server answered 200 with a body that the parser
    accepts and whose text has at least 8 characters. *)
Theorem success_phase_means_page
    env urls_data max_workers f before i after url_data link title :
  quiet f ->
  0 < max_workers ->
  well_scheduled env urls_data ->
  completion env = before ++ i :: after ->
  urls_data !! i = Some url_data ->
  url_data !! "link" = Some link ->
  url_data !! "title" = Some title ->
  exists ev,
    task_calls BeautifulSoup env urls_data max_workers (Some f)
      !! length before = Some ev
    /\ ((Py.len title <= 2000)%nat ->
        fetch_failed link (server env i)
        \/ page_rejected BeautifulSoup link (server env i) ->
        ev_status ev = "failed")
    /\ ((Py.len title <= 1990)%nat ->
        (ev_status ev = "success" <->
         exists response soup,
           transport link (server env i) = Ok response
           /\ status_code response = 200
           /\ BeautifulSoup (text response) = Ok soup
           /\ (8 <= Py.len (visible_text soup))%nat)).
Proof.
  intros Hquiet Hworkers Hsched Horder Hi Hlink Htitle.
  pose proof (task_call_at BeautifulSoup env urls_data max_workers f before i
                after url_data Hquiet Hworkers Hsched Horder Hi) as Hcall.
  rewrite (scrape_single_spec _ _ _ _ _ Hlink Htitle) in Hcall.
  eexists. split; [exact Hcall |].
  unfold task_event, classify, Py.get, fetch_failed, page_rejected.
  cbn [ev_status fst snd].
  rewrite Htitle. change (default "" (Some title)) with title.
  pose proof (len_truncate title) as Htrunc.
  assert (Hbare : ((Py.len title <= 2000)%nat ->
                   (if (Py.len title + 10 <? Py.len (truncate title))%nat
                    then "success" else "failed") = "failed")
                  /\ ((Py.len title <= 1990)%nat ->
                      (if (Py.len title + 10 <? Py.len (truncate title))%nat
                       then "success" else "failed") <> "success")).
  { split; intros Hshort;
      destruct (Nat.ltb_spec (Py.len title + 10) (Py.len (truncate title)));
      try reflexivity; try discriminate;
      destruct (Nat.ltb_spec max_chars (Py.len title));
      unfold max_chars in *; lia. }
  destruct Hbare as [Hfailed Hnever].
  destruct (transport link (server env i)) as [response | e].
  - destruct (decide (status_code response = 200)) as [Hok | Hno].
    + rewrite bool_decide_eq_true_2 by assumption.
      destruct (BeautifulSoup (text response)) as [soup | e] eqn:Hsoup.
      * set (page := visible_text soup).
        pose proof (len_truncate (title +:+ " - " +:+ page)) as Hstored.
        rewrite !len_append in Hstored.
        change (Py.len " - ") with 3%nat in Hstored.
        change (Py.len truncation_marker) with 14%nat in Hstored.
        unfold max_chars in Hstored.
        split.
        { intros _ [Hfail | (response' & [= <-] & _ & e & He)];
            [contradiction |].
          rewrite Hsoup in He. discriminate. }
        intros Hshort.
        assert (Hrule : (Py.len title + 10
                           <? Py.len (truncate (title +:+ " - " +:+ page)))%nat
                        = true <-> (8 <= Py.len page)%nat).
        { rewrite Hstored, Nat.ltb_lt.
          destruct (Nat.ltb_spec 2000 (Py.len title + (3 + Py.len page)));
            lia. }
        destruct ((Py.len title + 10
                     <? Py.len (truncate (title +:+ " - " +:+ page)))%nat).
        -- split; [| reflexivity]. intros _.
           exists response, soup. repeat split; try assumption.
           now apply Hrule.
        -- split; [discriminate |].
           intros (response' & soup' & [= <-] & _ & Hsoup' & Hlong).
           rewrite Hsoup in Hsoup'. injection Hsoup' as <-.
           apply Hrule in Hlong. discriminate.
      * split; [intros Hshort _; now apply Hfailed |].
        intros Hshort. split; [intros H; now apply Hnever in H |].
        intros (response' & soup' & [= <-] & _ & Hsoup' & _).
        rewrite Hsoup in Hsoup'. discriminate.
    + rewrite bool_decide_eq_false_2 by assumption.
      split; [intros Hshort _; now apply Hfailed |].
      intros Hshort. split; [intros H; now apply Hnever in H |].
      intros (response' & soup' & [= <-] & Hok & _). contradiction.
  - split; [intros Hshort _; now apply Hfailed |].
    intros Hshort. split; [intros H; now apply Hnever in H |].
    intros (response' & soup' & Hr & _). discriminate.
Qed.

End Phase.

(** ** Truncation *)

Lemma take_append_exact (a b : string) :
  Py.take (Py.len a) (a +:+ b) = a.
Proof.
  unfold Py.take, Py.len. induction a as [| c a IH].
  - destruct b; reflexivity.
  - rewrite append_cons. cbn [String.length substring].
    f_equal. exact IH.
Qed.

(** X14.  Cutting a text twice is cutting it once, and the first 2000
    characters of a stored text are those of the text. *)
Theorem truncate_idempotent (content : string) :
  truncate (truncate content) = truncate content
  /\ Py.take 2000 (truncate content) = Py.take 2000 content.
Proof.
  destruct (Nat.le_gt_cases (Py.len content) max_chars) as [Hle | Hgt].
  - rewrite !(truncate_short content Hle). auto.
  - rewrite (truncate_long content Hgt).
    assert (Hlen : Py.len (Py.take max_chars content) = max_chars).
    { rewrite len_take. lia. }
    assert (Htake : Py.take max_chars
                      (Py.take max_chars content +:+ truncation_marker)
                    = Py.take max_chars content).
    { rewrite <- Hlen at 1. apply take_append_exact. }
    split; [| exact Htake].
    rewrite truncate_long.
    + now rewrite Htake.
    + rewrite len_append, Hlen.
      change (Py.len truncation_marker) with 14%nat. lia.
Qed.

(** ** The handlers of the logger *)

Module LoggingFacts.

Import Logging.

Lemma file_handlers_are_streams hs :
  existsb (fun h => isinstance h FileHandler) hs = true ->
  existsb (fun h => isinstance h StreamHandler) hs = true.
Proof.
  rewrite !existsb_exists. intros (h & Hin & Hfile).
  exists h. split; [exact Hin |].
  unfold isinstance in *. destruct (handler_cls h); try discriminate.
  reflexivity.
Qed.

Lemma handlers_configure lg :
  handlers (configure lg)
  = handlers lg
    ++ (if existsb (fun h => isinstance h FileHandler) (handlers lg)
        then [] else [file_handler]).
Proof.
  unfold configure, setLevel. cbn [handlers].
  destruct (existsb (fun h => isinstance h FileHandler) (handlers lg))
    eqn:Hfile; cbn [negb handlers addHandler].
  - rewrite (file_handlers_are_streams _ Hfile). cbn [negb handlers].
    now rewrite app_nil_r.
  - rewrite existsb_app. cbn [existsb]. unfold isinstance at 2.
    cbn [handler_cls file_handler]. rewrite orb_true_r.
    reflexivity.
Qed.

End LoggingFacts.

(** X15.  The handlers of the logger after lines 15-34.  The file handler
    is added unless the logger has one; the console handler of lines
    30-34 is never added, since a file handler is a stream handler and
    the test of line 29 finds it.  The level is DEBUG and running the
    lines again changes nothing. *)
Theorem console_handler_never_attached (lg : Logging.logger) :
  Logging.handlers (Logging.configure lg)
  = Logging.handlers lg
    ++ (if existsb (fun h => Logging.isinstance h Logging.FileHandler)
                   (Logging.handlers lg)
        then [] else [Logging.file_handler])
  /\ Logging.logger_level (Logging.configure lg) = Logging.DEBUG
  /\ Logging.configure (Logging.configure lg) = Logging.configure lg.
Proof.
  pose proof (LoggingFacts.handlers_configure lg) as Hhandlers.
  assert (Hlevel : forall lg', Logging.logger_level (Logging.configure lg')
                               = Logging.DEBUG).
  { intros lg'. unfold Logging.configure. cbn.
    repeat case_if; reflexivity. }
  split; [exact Hhandlers |]. split; [apply Hlevel |].
  assert (Hfile : existsb (fun h => Logging.isinstance h Logging.FileHandler)
                    (Logging.handlers (Logging.configure lg)) = true).
  { rewrite Hhandlers, existsb_app.
    destruct (existsb _ (Logging.handlers lg)); reflexivity. }
  pose proof (LoggingFacts.handlers_configure (Logging.configure lg)) as H2.
  rewrite Hfile, app_nil_r in H2.
  pose proof (Hlevel (Logging.configure lg)) as Hl2.
  pose proof (Hlevel lg) as Hl1.
  destruct (Logging.configure (Logging.configure lg)) as [l2 h2].
  destruct (Logging.configure lg) as [l1 h1].
  cbn in *. congruence.
Qed.


(** * Concrete runs of the further properties *)

Lemma mixed_tasks_scheduled :
  well_scheduled (Scenario.offline [2; 0; 1]%nat) Edge.mixed_tasks.
Proof.
  unfold well_scheduled. cbn.
  apply (bool_decide_unpack _). vm_compute. exact I.
Defined.

Lemma no_title_ill_formed : ~ well_formed Edge.no_title.
Proof. intros [_ [title Htitle]]. vm_compute in Htitle. discriminate. Defined.

Lemma touchy_callback_touchy : touchy Edge.touchy_callback.
Proof.
  split.
  - intros seen ev [H | H]; unfold Edge.touchy_callback; rewrite H;
      reflexivity.
  - intros seen ev [H | H]; unfold Edge.touchy_callback; rewrite H;
      reflexivity.
Defined.

(** X1 on a task without a title. *)
Lemma scrape_single_returns_iff_well_formed_witness :
  scrape_single Scenario.html_parser
    (fun _ => Answer 200 no_headers Scenario.hello_page) Edge.no_title
  = Raise (KeyError "title").
Proof.
  apply (proj2 (proj2 (scrape_single_returns_iff_well_formed
                         Scenario.html_parser _ Edge.no_title))).
  - eexists. reflexivity.
  - reflexivity.
Defined.

(** X2 on a task whose server cannot be reached. *)
Lemma scrape_single_text_marks_failure_witness :
  exists text,
    scrape_single Scenario.html_parser (fun _ => ConnectFault ConnectTimeout)
      (task "http://beta.test/" "Beta")
    = Ok ("http://beta.test/", text)
    /\ (exists rest, text = "Beta" +:+ rest)
    /\ (text = "Beta"
        <-> fetch_failed "http://beta.test/"
              (fun _ => ConnectFault ConnectTimeout)
            \/ page_rejected Scenario.html_parser "http://beta.test/"
                 (fun _ => ConnectFault ConnectTimeout)).
Proof.
  apply (scrape_single_text_marks_failure Scenario.html_parser
           (fun _ => ConnectFault ConnectTimeout)
           (task "http://beta.test/" "Beta") "http://beta.test/" "Beta");
    reflexivity.
Defined.

(** X3 on three tasks of which two lack a key: the one completed first
    has no title. *)
Lemma scrape_multiple_skips_ill_formed_tasks_witness :
  task_calls Scenario.html_parser (Scenario.offline [2; 0; 1]%nat)
    Edge.mixed_tasks 5 (Some Scenario.silent) !! 0%nat
  = Some {| ev_label := "http://gamma.test/"; ev_status := "error";
            ev_current := 1; ev_total := 3 |}.
Proof.
  apply (proj2 (scrape_multiple_skips_ill_formed_tasks Scenario.html_parser
                  (Scenario.offline [2; 0; 1]%nat) Edge.mixed_tasks 5
                  Scenario.silent silent_quiet ltac:(lia)
                  mixed_tasks_scheduled)
           0%nat 2%nat Edge.no_title eq_refl eq_refl no_title_ill_formed).
Defined.

(** X5 on the three tasks when nothing can be reached: six invocations
    from the loop. *)
Lemma raising_callback_counts_tasks_twice_witness :
  length (task_calls Scenario.html_parser (Scenario.offline [2; 0; 1]%nat)
            Scenario.three_tasks 5 (Some Edge.touchy_callback))
  = 6%nat.
Proof.
  destruct (raising_callback_counts_tasks_twice Scenario.html_parser
              (Scenario.offline [2; 0; 1]%nat) Scenario.three_tasks 5
              Edge.touchy_callback touchy_callback_touchy ltac:(lia)
              ScenarioFacts.three_tasks_well_formed
              ScenarioFacts.three_tasks_scheduled) as (_ & Hlen & _).
  exact Hlen.
Defined.

(** X6 on the three tasks when nothing can be reached. *)
Lemma summary_counts_add_up_witness :
  (success_count
     (snd (run Scenario.html_parser (Scenario.offline [2; 0; 1]%nat)
             Scenario.three_tasks 5 None))
   + fail_count
       (snd (run Scenario.html_parser (Scenario.offline [2; 0; 1]%nat)
               Scenario.three_tasks 5 None)))%nat
  = 3%nat.
Proof.
  destruct (summary_counts_add_up Scenario.html_parser
              (Scenario.offline [2; 0; 1]%nat) Scenario.three_tasks 5 None
              I ltac:(lia) ScenarioFacts.three_tasks_scheduled)
    as (_ & _ & _ & Hsum & _).
  exact Hsum.
Defined.

(** X7 with five workers. *)
Lemma empty_batch_returns_empty_mapping_witness :
  scrape_multiple Scenario.html_parser (Scenario.offline [0%nat]) [] 5 None
  = (Ok ∅, []).
Proof.
  apply (empty_batch_returns_empty_mapping Scenario.html_parser). lia.
Defined.

(** X8 with no worker, on the three tasks when nothing can be reached. *)
Lemma no_workers_no_fetch_witness :
  scrape_multiple Scenario.html_parser (Scenario.offline [2; 0; 1]%nat)
    Scenario.three_tasks 0 (Some Scenario.silent)
  = (Raise ValueError,
     [ {| ev_label := "Checking Tor connection..."; ev_status := "checking";
          ev_current := 0; ev_total := 3 |};
       {| ev_label := "Tor NOT running!"; ev_status := "error";
          ev_current := 0; ev_total := 3 |} ]).
Proof.
  apply (proj2 (proj2 (no_workers_no_fetch Scenario.html_parser
                         (Scenario.offline [2; 0; 1]%nat)
                         Scenario.three_tasks 0 ltac:(lia)))
           Scenario.silent silent_quiet).
Defined.

(** X9 on two servers that differ from the fifth attempt on. *)
Lemma fetch_reads_a_bounded_prefix_witness :
  scrape_single Scenario.html_parser (Scenario.flaky 3 Scenario.hello_page)
    Scenario.onion_task
  = scrape_single Scenario.html_parser
      (Edge.flaky_then_gone Scenario.hello_page) Scenario.onion_task.
Proof.
  apply (proj1 (proj2 (proj2
           (fetch_reads_a_bounded_prefix Scenario.html_parser)))).
  intros j Hj.
  destruct j as [| [| [| [| j]]]];
    try (split; [reflexivity | intros [[target Htarget] _]; discriminate]).
  exfalso. lia.
Defined.

(** X10 on a clear-web address with [.onion] in its query. *)
Lemma onion_anywhere_selects_tor_witness :
  scrape_single Scenario.html_parser (Scenario.flaky 1 Scenario.hello_page)
    Edge.redirect_task
  = Ok ("http://example.test/?next=http://alpha.onion/",
        "Redirect" +:+ " - "
        +:+ visible_text
              [Tag "html"
                 [Tag "body"
                    [Tag "script" [NavigableString "x"];
                     NavigableString "Hello World"]]]).
Proof.
  apply (proj1 (onion_anywhere_selects_tor Scenario.html_parser
                  (Scenario.flaky 1 Scenario.hello_page) Edge.redirect_task
                  "http://example.test/?next=http://alpha.onion/" "Redirect"
                  no_headers "" no_headers Scenario.hello_page _
                  eq_refl eq_refl eq_refl eq_refl eq_refl
                  ltac:(vm_compute; reflexivity))).
  exists "http://example.test/?next=http://alpha", "/". reflexivity.
Defined.

(** X11 on the three tasks, with and without Tor. *)
Lemma tor_check_is_advisory_witness :
  fst (scrape_multiple Scenario.html_parser (Scenario.offline [2; 0; 1]%nat)
         Scenario.three_tasks 5 None)
  = fst (scrape_multiple Scenario.html_parser
           (Edge.offline_with_tor [2; 0; 1]%nat) Scenario.three_tasks 5 None).
Proof.
  apply (proj1 (tor_check_is_advisory Scenario.html_parser));
    [reflexivity | reflexivity | exact I].
Defined.

(** X12 on the three tasks: the link of the second is its own. *)
Lemma unique_link_keeps_its_text_witness :
  ({[ "http://alpha.onion/" := "Alpha"; "http://beta.test/" := "Beta" ]}
     : gmap string string) !! "http://beta.test/"
  = Some (truncate "Beta").
Proof.
  apply (proj1 unique_link_keeps_its_text Scenario.html_parser
           (Scenario.offline [2; 0; 1]%nat) Scenario.three_tasks 5 None _
           1%nat (task "http://beta.test/" "Beta") "http://beta.test/" "Beta"
           offline_run ScenarioFacts.three_tasks_scheduled eq_refl eq_refl).
  intros j other Hj Hother.
  destruct j as [| [| [| j]]]; try contradiction;
    try (injection Hother as <-; vm_compute; discriminate).
  discriminate.
Defined.

(** X13 on the page of Scenario A. *)
Lemma success_phase_means_page_witness :
  exists ev,
    task_calls Scenario.html_parser
      (Scenario.serving Scenario.hello_page [0%nat])
      [task "http://example.test/ok" "Example"] 5 (Some Scenario.silent)
      !! 0%nat = Some ev
    /\ ev_status ev = "success".
Proof.
  destruct (success_phase_means_page Scenario.html_parser
              (Scenario.serving Scenario.hello_page [0%nat])
              [task "http://example.test/ok" "Example"] 5 Scenario.silent
              [] 0%nat [] (task "http://example.test/ok" "Example")
              "http://example.test/ok" "Example"
              silent_quiet ltac:(lia) (Permutation_refl [0%nat])
              eq_refl eq_refl eq_refl eq_refl) as (ev & Hev & _ & Hiff).
  exists ev. split; [exact Hev |].
  apply Hiff.
  - vm_compute. lia.
  - exists {| status_code := 200; headers := no_headers;
              text := Scenario.hello_page |},
           [Tag "html"
              [Tag "body"
                 [Tag "script" [NavigableString "x"];
                  NavigableString "Hello World"]]].
    split; [reflexivity |]. split; [reflexivity |].
    split; [vm_compute; reflexivity |]. vm_compute. lia.
Defined.

